(** * GMV Max report scripts: a shallow embedding and its properties

    The repository is a set of Google Apps Script report pullers.  Each one
    pages through a reporting endpoint, flattens the records into rows and
    writes them to a spreadsheet tab.  This development embeds

    - the values the scripts handle (JSON values, JavaScript numbers and the
      coercions the scripts rely on: [||], [??], [Number], [parseFloat],
      [isFinite], template strings),
    - the helpers [num_], [sumTotals_], [buildDailyWindows_],
      [validateDailyRange_], [validateHourlyRange_], [getAccessToken_],
      [writeRowsToSheet_], [writeTotalsSheet_], [logErrorRow_],
      [toQueryString_] and the four readers of the Config sheet,
    - the pagination loop of the single-query reports and the window x pair
      driver of [runLiveGmvMaxCampaignDaily_SinceJune1_Simple],

    and proves the properties the specification states about them.

    Modelling conventions.
    - A JavaScript number is [NaN], an infinity or an exact rational: IEEE
      rounding, overflow and the sign of zero are not modelled.
    - An object is the list of its own properties in insertion order.  Of
      the prototype chain, the names inherited from [Object.prototype] are
      modelled in [sumTotals_], which tests [k in out] and assigns under
      the keys of a response; elsewhere reads and writes are of own
      properties (no key the scripts read by name is an inherited one).
      The rule that keys which are array indices are enumerated first is
      not modelled (the scripts' objects have none).
    - Strings are byte strings; white space is ASCII white space.
    - A [Date] is its time value in milliseconds; a time zone gives the
      offset from UTC of each instant and of each local time, so that it
      may change with daylight saving; date strings are read and printed
      in the ISO form [yyyy-MM-dd], for the years 0 to 9999.
    - The platform ([UrlFetchApp], [SpreadsheetApp], [PropertiesService],
      the clock) is an explicit world state threaded through a state and
      exception monad; [while (true)] loops take fuel, and running out of
      fuel is the outcome [Diverge], which no [catch] intercepts. *)

From Stdlib Require Import ZArith QArith Qround Bool List Ascii String Lia.
From stdpp Require Import base option list gmap strings.
From Equations Require Import Equations.
Import ListNotations.

Local Open Scope string_scope.
Local Open Scope Z_scope.

(** ** JavaScript numbers *)

Module Num.

Inductive t : Type :=
| NaN
| PosInf
| NegInf
| Fin (q : Q).

Definition ofZ (z : Z) : t := Fin (inject_Z z).

Definition zero : t := ofZ 0.

Definition isNaN (x : t) : bool :=
  match x with NaN => true | _ => false end.

(** The global [isFinite] on a number. *)
Definition isFinite (x : t) : bool :=
  match x with Fin _ => true | _ => false end.

Definition Qsign (q : Q) : Z := Z.sgn (Qnum q).

Definition add (x y : t) : t :=
  match x, y with
  | NaN, _ | _, NaN => NaN
  | PosInf, NegInf | NegInf, PosInf => NaN
  | PosInf, _ | _, PosInf => PosInf
  | NegInf, _ | _, NegInf => NegInf
  | Fin a, Fin b => Fin (Qred (a + b))
  end.

Definition neg (x : t) : t :=
  match x with
  | NaN => NaN
  | PosInf => NegInf
  | NegInf => PosInf
  | Fin a => Fin (Qred (- a))
  end.

Definition sub (x y : t) : t := add x (neg y).

Definition signedInf (s : Z) : t :=
  if s <? 0 then NegInf else PosInf.

Definition div (x y : t) : t :=
  match x, y with
  | NaN, _ | _, NaN => NaN
  | Fin a, Fin b =>
      if Qsign b =? 0 then
        if Qsign a =? 0 then NaN else signedInf (Qsign a)
      else Fin (Qred (a / b))
  | Fin _, _ => zero
  | PosInf, Fin b => signedInf (if Qsign b =? 0 then 1 else Qsign b)
  | NegInf, Fin b => signedInf (if Qsign b =? 0 then -1 else - Qsign b)
  | _, _ => NaN
  end.

(** [x < y]; any comparison with [NaN] is false. *)
Definition ltb (x y : t) : bool :=
  match x, y with
  | NaN, _ | _, NaN => false
  | _, NegInf => false
  | NegInf, _ => true
  | PosInf, _ => false
  | _, PosInf => true
  | Fin a, Fin b => negb (Qle_bool b a)
  end.

(** [x <= y]. *)
Definition leb (x y : t) : bool :=
  match x, y with
  | NaN, _ | _, NaN => false
  | NegInf, _ => true
  | _, PosInf => true
  | _, NegInf => false
  | PosInf, _ => false
  | Fin a, Fin b => Qle_bool a b
  end.

Definition gtb (x y : t) : bool := ltb y x.
Definition geb (x y : t) : bool := leb y x.

(** [x === y] on numbers. *)
Definition eqb (x y : t) : bool :=
  match x, y with
  | PosInf, PosInf | NegInf, NegInf => true
  | Fin a, Fin b => Qeq_bool a b
  | _, _ => false
  end.

(** [Math.floor]. *)
Definition floor (x : t) : t :=
  match x with
  | Fin a => ofZ (Qfloor a)
  | _ => x
  end.

(** ToBoolean on a number: zero and [NaN] are falsy. *)
Definition truthy (x : t) : bool :=
  match x with
  | NaN => false
  | Fin a => negb (Qsign a =? 0)
  | _ => true
  end.

End Num.

(** ** Characters and decimal numerals *)

Definition is_digit (c : ascii) : bool :=
  let n := nat_of_ascii c in ((48 <=? n) && (n <=? 57))%nat.

Definition digit_val (c : ascii) : Z := Z.of_nat (nat_of_ascii c) - 48.

(** ASCII white space and line terminators. *)
Definition is_space (c : ascii) : bool :=
  let n := nat_of_ascii c in
  ((n =? 9) || (n =? 10) || (n =? 11) || (n =? 12) || (n =? 13) || (n =? 32))%nat.

Fixpoint trim_start (s : string) : string :=
  match s with
  | String c r => if is_space c then trim_start r else s
  | EmptyString => s
  end.

Fixpoint rev_string_onto (s acc : string) : string :=
  match s with
  | String c r => rev_string_onto r (String c acc)
  | EmptyString => acc
  end.

Definition rev_string (s : string) : string := rev_string_onto s "".

Definition trim (s : string) : string :=
  rev_string (trim_start (rev_string (trim_start s))).

(** The longest prefix of decimal digits, as digit values, and the rest. *)
Fixpoint take_digits (s : string) : list Z * string :=
  match s with
  | String c r =>
      if is_digit c then
        let '(ds, rest) := take_digits r in (digit_val c :: ds, rest)
      else ([], s)
  | EmptyString => ([], s)
  end.

Definition digits_value (ds : list Z) : Z :=
  fold_left (fun acc d => 10 * acc + d) ds 0.

Definition digit_char (d : Z) : ascii := ascii_of_nat (Z.to_nat (48 + d)).

(** Decimal digits of a non-negative integer, most significant first. *)
Fixpoint digits_of_fuel (fuel : nat) (n : Z) (acc : string) : string :=
  match fuel with
  | O => acc
  | S f =>
      let acc' := String (digit_char (n mod 10)) acc in
      if n <? 10 then acc' else digits_of_fuel f (n / 10) acc'
  end.

Definition Z_to_string (z : Z) : string :=
  let body n := digits_of_fuel (S (Z.to_nat (Z.log2 n))) n "" in
  if z <? 0 then String "-" (body (- z)) else body z.

Definition nat_to_string (n : nat) : string := Z_to_string (Z.of_nat n).

(** [s] padded on the left with zeros to [w] characters. *)
Definition pad_left (w : nat) (s : string) : string :=
  fold_right (fun _ acc => String "0" acc) s (seq 0 (w - String.length s)).

(** ** Numeric literals: [parseFloat] and [Number] on strings *)

(** [strip_prefix p s] is what follows [p] in [s], if [s] starts with [p]. *)
Fixpoint strip_prefix (p s : string) : option string :=
  match p, s with
  | EmptyString, _ => Some s
  | String a p', String b s' => if Ascii.eqb a b then strip_prefix p' s' else None
  | String _ _, EmptyString => None
  end.

(** The value [m * 10^k] of a decimal literal, in lowest terms. *)
Definition decimal_value (m k : Z) : Q :=
  if 0 <=? k then inject_Z (m * 10 ^ k) else Qred (m # Z.to_pos (10 ^ (- k))).

(** An optional exponent part [e[+-]digits]; without digits it is not read. *)
Definition scan_exponent (s : string) : Z * string :=
  match s with
  | String c r =>
      if Ascii.eqb c "e" || Ascii.eqb c "E" then
        let '(sg, r') :=
          match r with
          | String "+" r1 => (1, r1)
          | String "-" r1 => (-1, r1)
          | _ => (1, r)
          end in
        let '(ds, rest) := take_digits r' in
        match ds with
        | [] => (0, s)
        | _ => (sg * digits_value ds, rest)
        end
      else (0, s)
  | EmptyString => (0, s)
  end.

(** The longest prefix of [s] that is an unsigned decimal literal
    ([Infinity], [12], [12.5], [.5], [5.], each with an optional exponent),
    with its value and the unread rest. *)
Definition scan_unsigned (s : string) : option (Num.t * string) :=
  match strip_prefix "Infinity" s with
  | Some rest => Some (Num.PosInf, rest)
  | None =>
      let '(ip, r1) := take_digits s in
      let '(fp, r2) :=
        match r1 with
        | String "." r => take_digits r
        | _ => ([], r1)
        end in
      match (ip ++ fp)%list with
      | [] => None
      | ds =>
          let '(e, rest) := scan_exponent r2 in
          Some (Num.Fin (decimal_value (digits_value ds) (e - Z.of_nat (length fp))), rest)
      end
  end.

Definition scan_signed (s : string) : option (Num.t * string) :=
  match s with
  | String "-" r =>
      match scan_unsigned r with
      | Some (v, rest) => Some (Num.neg v, rest)
      | None => None
      end
  | String "+" r => scan_unsigned r
  | _ => scan_unsigned s
  end.

(** The global [parseFloat] on a string: leading white space is skipped and
    the longest numeric prefix is read; [NaN] when there is none. *)
Definition parseFloat (s : string) : Num.t :=
  match scan_signed (trim_start s) with
  | Some (v, _) => v
  | None => Num.NaN
  end.

Definition radix_digit (base : Z) (c : ascii) : option Z :=
  let n := Z.of_nat (nat_of_ascii c) in
  let d := if (48 <=? n) && (n <=? 57) then n - 48
           else if (97 <=? n) && (n <=? 102) then n - 87
           else if (65 <=? n) && (n <=? 70) then n - 55
           else 99 in
  if d <? base then Some d else None.

Fixpoint radix_value (base : Z) (s : string) (acc : Z) : option Z :=
  match s with
  | EmptyString => Some acc
  | String c r =>
      match radix_digit base c with
      | Some d => radix_value base r (base * acc + d)
      | None => None
      end
  end.

Definition radix_literal (base : Z) (s : string) : Num.t :=
  match s with
  | EmptyString => Num.NaN
  | _ => match radix_value base s 0 with
         | Some v => Num.ofZ v
         | None => Num.NaN
         end
  end.

(** [Number(s)] on a string: the whole trimmed string must be a numeric
    literal; the empty string is zero. *)
Definition string_to_number (s : string) : Num.t :=
  match trim s with
  | EmptyString => Num.zero
  | String "0" (String "x" r) | String "0" (String "X" r) => radix_literal 16 r
  | String "0" (String "o" r) | String "0" (String "O" r) => radix_literal 8 r
  | String "0" (String "b" r) | String "0" (String "B" r) => radix_literal 2 r
  | t =>
      match scan_signed t with
      | Some (v, EmptyString) => v
      | _ => Num.NaN
      end
  end.

(** Number to string.  Integers print in decimal; other rationals print
    their decimal expansion, cut after 17 fractional digits. *)
Fixpoint fraction_digits (fuel : nat) (r d : Z) : string :=
  match fuel with
  | O => ""
  | S f =>
      if r =? 0 then ""
      else String (digit_char (10 * r / d)) (fraction_digits f (10 * r mod d) d)
  end.

Definition number_to_string (x : Num.t) : string :=
  match x with
  | Num.NaN => "NaN"
  | Num.PosInf => "Infinity"
  | Num.NegInf => "-Infinity"
  | Num.Fin q =>
      let n := Qnum q in
      let d := Zpos (Qden q) in
      let a := Z.abs n in
      let body :=
        if a mod d =? 0 then Z_to_string (a / d)
        else (Z_to_string (a / d) ++ "." ++ fraction_digits 17 (a mod d) d)%string in
      if n <? 0 then String "-" body else body
  end.

(** ** JavaScript values *)

#[local] Unset Elimination Schemes.
Inductive JsVal : Type :=
| JUndefined
| JNull
| JBool (b : bool)
| JNum (n : Num.t)
| JStr (s : string)
| JArr (items : list JsVal)
| JObj (props : list (string * JsVal)).
#[local] Set Elimination Schemes.

(** The own properties of an object, in insertion order. *)
Abbreviation Props := (list (string * JsVal)).

Definition JInt (z : Z) : JsVal := JNum (Num.ofZ z).

(** An [Error] object: its [name] and its [message]. *)
Record JsError : Type := mkError { err_name : string; err_message : string }.

Definition Error (msg : string) : JsError := mkError "Error" msg.
Definition TypeError (msg : string) : JsError := mkError "TypeError" msg.
Definition SyntaxError (msg : string) : JsError := mkError "SyntaxError" msg.

(** The result of code that returns or throws. *)
Inductive Result (A : Type) : Type :=
| Ok (a : A)
| Throw (e : JsError).
Arguments Ok {A} a.
Arguments Throw {A} e.

Definition result_bind {A B} (r : Result A) (k : A -> Result B) : Result B :=
  match r with
  | Ok a => k a
  | Throw e => Throw e
  end.

(** ToBoolean. *)
Definition truthy (v : JsVal) : bool :=
  match v with
  | JUndefined | JNull => false
  | JBool b => b
  | JNum n => Num.truthy n
  | JStr s => negb (String.eqb s "")
  | JArr _ | JObj _ => true
  end.

(** [a || b]. *)
Definition js_or (a b : JsVal) : JsVal := if truthy a then a else b.

Definition nullish (v : JsVal) : bool :=
  match v with
  | JUndefined | JNull => true
  | _ => false
  end.

(** [a ?? b]. *)
Definition js_coalesce (a b : JsVal) : JsVal := if nullish a then b else a.

(** *** Properties *)

Fixpoint own (ps : Props) (k : string) : option JsVal :=
  match ps with
  | [] => None
  | (k', v) :: r => if String.eqb k' k then Some v else own r k
  end.

(** The names an ordinary object inherits from [Object.prototype]. *)
Definition Object_prototype_names : list string :=
  ["constructor"; "__defineGetter__"; "__defineSetter__"; "hasOwnProperty";
   "__lookupGetter__"; "__lookupSetter__"; "isPrototypeOf"; "propertyIsEnumerable";
   "toString"; "valueOf"; "__proto__"; "toLocaleString"].

Definition inherited (k : string) : bool :=
  existsb (String.eqb k) Object_prototype_names.

(** [k in o] for an ordinary object with own properties [ps]: the name of an
    own property, or a name the object inherits. *)
Definition has (ps : Props) (k : string) : bool :=
  match own ps k with Some _ => true | None => inherited k end.

(** [o[k] = v]: an existing property keeps its place, a new one goes last. *)
Fixpoint set (ps : Props) (k : string) (v : JsVal) : Props :=
  match ps with
  | [] => [(k, v)]
  | (k', v') :: r => if String.eqb k' k then (k', v) :: r else (k', v') :: set r k v
  end.

(** [o[k] = v] on an ordinary object, for a value [v] that is not an object:
    as [set], except under the name [__proto__], which is an accessor of
    [Object.prototype] whose setter ignores such a value; an own property of
    that name (as [JSON.parse] creates) is assigned as any other. *)
Definition put (ps : Props) (k : string) (v : JsVal) : Props :=
  match own ps k with
  | None => if String.eqb k "__proto__" then ps else set ps k v
  | Some _ => set ps k v
  end.

(** [Object.assign({}, o)]: the own properties of [o] are assigned one by
    one to a new ordinary object, so that an own [__proto__] of [o] is not
    copied.  (When its value is an object it becomes the prototype of the
    copy; that is not modelled.) *)
Definition Object_assign (ps : Props) : Props :=
  List.filter (fun kv => negb (String.eqb (fst kv) "__proto__")) ps.

(** The array index a property key denotes, if any. *)
Definition index_of_key (k : string) : option nat :=
  match take_digits k with
  | (d :: ds, EmptyString) =>
      if (d =? 0) && negb (Nat.eqb (length ds) 0) then None
      else Some (Z.to_nat (digits_value (d :: ds)))
  | _ => None
  end.

Fixpoint chars (s : string) : list string :=
  match s with
  | EmptyString => []
  | String c r => String c "" :: chars r
  end.

(** [v[k]] on a base that is neither [null] nor [undefined]. *)
Definition get (v : JsVal) (k : string) : JsVal :=
  match v with
  | JObj ps => default JUndefined (own ps k)
  | JArr l =>
      if String.eqb k "length" then JInt (Z.of_nat (length l))
      else match index_of_key k with
           | Some i => nth i l JUndefined
           | None => JUndefined
           end
  | JStr s =>
      if String.eqb k "length" then JInt (Z.of_nat (String.length s))
      else match index_of_key k with
           | Some i => nth i (map JStr (chars s)) JUndefined
           | None => JUndefined
           end
  | _ => JUndefined
  end.

(** [v.k] in general: reading a property of [null] or [undefined] throws. *)
Definition member (v : JsVal) (k : string) : Result JsVal :=
  match v with
  | JUndefined =>
      Throw (TypeError ("Cannot read properties of undefined (reading '" ++ k ++ "')"))
  | JNull =>
      Throw (TypeError ("Cannot read properties of null (reading '" ++ k ++ "')"))
  | _ => Ok (get v k)
  end.

(** [Object.keys(v)]. *)
Definition Object_keys (v : JsVal) : list string :=
  match v with
  | JObj ps => map fst ps
  | JArr l => map nat_to_string (seq 0 (length l))
  | JStr s => map nat_to_string (seq 0 (String.length s))
  | _ => []
  end.

(** *** Coercions *)

(** [String(v)] and [`${v}`]. *)
Fixpoint ToString (v : JsVal) : string :=
  match v with
  | JUndefined => "undefined"
  | JNull => "null"
  | JBool true => "true"
  | JBool false => "false"
  | JNum n => number_to_string n
  | JStr s => s
  | JObj _ => "[object Object]"
  | JArr l =>
      (fix join (l : list JsVal) : string :=
         match l with
         | [] => ""
         | x :: r =>
             let sx := match x with
                       | JUndefined | JNull => ""
                       | _ => ToString x
                       end in
             match r with
             | [] => sx
             | _ => sx ++ "," ++ join r
             end
         end) l
  end.

(** [Number(v)]. *)
Definition ToNumber (v : JsVal) : Num.t :=
  match v with
  | JUndefined => Num.NaN
  | JNull => Num.zero
  | JBool true => Num.ofZ 1
  | JBool false => Num.zero
  | JNum n => n
  | JStr s => string_to_number s
  | JObj _ => Num.NaN
  | JArr _ => string_to_number (ToString v)
  end.

(** [String(err)] for an error object. *)
Definition error_to_string (e : JsError) : string :=
  if String.eqb (err_message e) "" then err_name e
  else err_name e ++ ": " ++ err_message e.


(** ** Totals aggregation (the batch report's helpers) *)

(** [num_(x)]: [parseFloat] for a string, [Number] for anything else. *)
Definition num_ (x : JsVal) : Num.t :=
  let n := match x with
           | JStr s => parseFloat s
           | _ => ToNumber x
           end in
  if Num.isNaN n then Num.NaN else n.

(** [n || 0] on numbers. *)
Definition or_zero (n : Num.t) : Num.t :=
  if Num.truthy n then n else Num.zero.

(** The body of the [forEach] of [sumTotals_] for the key [k].  Under an
    inherited name that [out] does not own, [out[k]] is a function or an
    object, which [num_] reads as [NaN], as it reads [undefined]. *)
Definition sumTotals_key (add : JsVal) (out : Props) (k : string) : Props :=
  let v := num_ (get add k) in
  if Num.isFinite v then
    put out k (JNum (Num.add (or_zero (num_ (get (JObj out) k))) v))
  else if negb (has out k) then
    set out k (get add k)
  else out.

(** [sumTotals_(agg, add)]: [out] starts as [Object.assign({}, agg)] and the
    keys of [add || {}] are visited in order. *)
Definition sumTotals_ (agg : Props) (add : JsVal) : Props :=
  fold_left (sumTotals_key add) (Object_keys (js_or add (JObj []))) (Object_assign agg).

(** The recomputation of the overall ROI once every slice is merged (the
    [if (totalsAgg)] block of the batch report; an object is always truthy). *)
Definition recomputeRoi (totalsAgg : Props) : Props :=
  let cost := num_ (get (JObj totalsAgg) "cost") in
  let gross := num_ (get (JObj totalsAgg) "gross_revenue") in
  let t1 :=
    if Num.isFinite cost && Num.gtb cost Num.zero && Num.isFinite gross
    then set totalsAgg "roi" (JNum (Num.div gross cost))
    else totalsAgg in
  let netCost := num_ (get (JObj t1) "net_cost") in
  if (negb (Num.isFinite cost) || Num.eqb cost Num.zero)
     && Num.isFinite netCost && Num.gtb netCost Num.zero && Num.isFinite gross
  then set t1 "roi" (JNum (Num.div gross netCost))
  else t1.

(** ** Row flattening *)

(** The identifiers a row copies from the configuration (or, in the batch
    report, from the advertiser/store pair being fetched). *)
Record Entity : Type := mkEntity {
  advertiser_id : string;
  store_id : string;
  campaign_id : string
}.

(** Where a field of the row literal comes from: the configuration, or the
    item's [dimensions] or [metrics] object under the given key. *)
Inductive Source : Type :=
| FromAdvertiser
| FromStore
| FromCampaign
| Dimension (key : string)
| Metric (key : string).

(** A row literal: its field names, in order, with their sources. *)
Abbreviation RowLiteral := (list (string * Source)).

Definition field_value (ent : Entity) (d m : JsVal) (src : Source) : JsVal :=
  match src with
  | FromAdvertiser => JStr (advertiser_id ent)
  | FromStore => JStr (store_id ent)
  | FromCampaign => JStr (campaign_id ent)
  | Dimension k => js_or (get d k) (JStr "")
  | Metric k => js_or (get m k) (JStr "")
  end.

(** The callback of [list.forEach]: [d = item.dimensions || {}],
    [m = item.metrics || {}], then the row literal. *)
Definition flattenItem (lit : RowLiteral) (ent : Entity) (item : JsVal) : Result Props :=
  result_bind (member item "dimensions") (fun d0 =>
  let d := js_or d0 (JObj []) in
  result_bind (member item "metrics") (fun m0 =>
  let m := js_or m0 (JObj []) in
  Ok (map (fun f => (fst f, field_value ent d m (snd f))) lit))).

(** The elements [forEach] visits: those of an array; a string or any other
    truthy [data.list] has no [forEach] method. *)
Definition forEach_items (list_ : JsVal) : Result (list JsVal) :=
  match list_ with
  | JArr l => Ok l
  | _ => Throw (TypeError "list.forEach is not a function")
  end.

(** *** The row literals of the six reports *)

Definition metric (k : string) : string * Source := (k, Metric k).
Definition dimension (k : string) : string * Source := (k, Dimension k).

(** Attributes and performance metrics of the Product campaign reports. *)
Definition product_campaign_fields : RowLiteral :=
  map metric
    ["operation_status"; "campaign_name"; "schedule_type"; "schedule_start_time";
     "schedule_end_time"; "target_roi_budget"; "bid_type"; "max_delivery_budget";
     "roas_bid"; "cost"; "net_cost"; "orders"; "cost_per_order"; "gross_revenue"; "roi"].

(** Attributes, performance and LIVE engagement metrics of the LIVE reports;
    two LIVE metrics are renamed in the row. *)
Definition live_campaign_fields : RowLiteral :=
  map metric
    ["operation_status"; "campaign_name"; "tt_account_name";
     "tt_account_profile_image_url"; "identity_id"; "schedule_type";
     "schedule_start_time"; "schedule_end_time"; "bid_type"; "target_roi_budget";
     "max_delivery_budget"; "roas_bid"; "cost"; "net_cost"; "orders";
     "cost_per_order"; "gross_revenue"; "roi"; "live_views"; "cost_per_live_view"]
  ++ [("live_10s_views", Metric "10_second_live_views");
      ("cost_per_10s_live_view", Metric "cost_per_10_second_live_view");
      ("live_follows", Metric "live_follows")].

Definition row_ProductCampaignDaily : RowLiteral :=
  [("advertiser_id", FromAdvertiser); ("store_id", FromStore);
   dimension "stat_time_day"; dimension "campaign_id"] ++ product_campaign_fields.

Definition row_ProductCampaignHourly : RowLiteral :=
  [("advertiser_id", FromAdvertiser); ("store_id", FromStore);
   dimension "stat_time_hour"; dimension "campaign_id"] ++ product_campaign_fields.

Definition row_LiveCampaignHourly : RowLiteral :=
  [("advertiser_id", FromAdvertiser); ("store_id", FromStore);
   dimension "stat_time_hour"; dimension "campaign_id"] ++ live_campaign_fields.

Definition row_ProductProductDaily : RowLiteral :=
  [("advertiser_id", FromAdvertiser); ("store_id", FromStore);
   ("campaign_id", FromCampaign);
   dimension "stat_time_day"; dimension "item_group_id"]
  ++ map metric
       ["product_name"; "product_image_url"; "product_status"; "bid_type";
        "cost"; "orders"; "cost_per_order"; "gross_revenue"; "roi"].

Definition row_ProductCreativeStatuses : RowLiteral :=
  [("advertiser_id", FromAdvertiser); ("store_id", FromStore);
   dimension "campaign_id"; dimension "item_group_id"; dimension "item_id"]
  ++ map metric
       ["creative_delivery_status"; "cost"; "orders"; "cost_per_order";
        "gross_revenue"; "roi"; "product_impressions"; "product_clicks";
        "product_click_rate"; "ad_click_rate"; "ad_conversion_rate";
        "ad_video_view_rate_2s"; "ad_video_view_rate_6s"; "ad_video_view_rate_p25";
        "ad_video_view_rate_p50"; "ad_video_view_rate_p75"; "ad_video_view_rate_p100"].

Definition row_LiveCampaignDailySince : RowLiteral :=
  [("advertiser_id", FromAdvertiser); ("store_id", FromStore);
   dimension "stat_time_day"; dimension "campaign_id"] ++ live_campaign_fields.

(** Every row literal of the repository. *)
Definition all_row_literals : list RowLiteral :=
  [row_ProductCampaignDaily; row_ProductCampaignHourly; row_LiveCampaignHourly;
   row_ProductProductDaily; row_ProductCreativeStatuses; row_LiveCampaignDailySince].

(** ** Dates *)

(** A [Date] is its time value: milliseconds since the epoch, or [NaN] for
    an invalid date.  Calendar dates are proleptic Gregorian. *)

Definition msDay : Z := 24 * 60 * 60 * 1000.

(** A time zone: [utc_offset t] is the offset from UTC, in milliseconds
    east, in force at the time value [t]; [local_offset l] is the offset
    with which the local time [l] (milliseconds since the local midnight of
    1970-01-01) is read as a time value.  The two differ around a change of
    daylight saving. *)
Record Zone : Type := mkZone {
  utc_offset : Z -> Z;
  local_offset : Z -> Z
}.

(** A zone without daylight saving, [c] milliseconds east of UTC. *)
Definition fixed_zone (c : Z) : Zone := mkZone (fun _ => c) (fun _ => c).

Definition UTC : Zone := fixed_zone 0.

(** Days since 1970-01-01 of the civil date [y-m-d]; a day past the end of
    its month runs into the next one, as in [MakeDay]. *)
Definition days_from_civil (y m d : Z) : Z :=
  let y' := if m <=? 2 then y - 1 else y in
  let era := y' / 400 in
  let yoe := y' - era * 400 in
  let mp := if 2 <? m then m - 3 else m + 9 in
  let doy := (153 * mp + 2) / 5 + d - 1 in
  let doe := yoe * 365 + yoe / 4 - yoe / 100 + doy in
  era * 146097 + doe - 719468.

(** The civil date of a day number. *)
Definition civil_from_days (z : Z) : Z * Z * Z :=
  let z' := z + 719468 in
  let era := z' / 146097 in
  let doe := z' - era * 146097 in
  let yoe := (doe - doe / 1460 + doe / 36524 - doe / 146096) / 365 in
  let doy := doe - (365 * yoe + yoe / 4 - yoe / 100) in
  let mp := (5 * doy + 2) / 153 in
  let d := doy - (153 * mp + 2) / 5 + 1 in
  let m := if mp <? 10 then mp + 3 else mp - 9 in
  let y := yoe + era * 400 in
  (if m <=? 2 then y + 1 else y, m, d).

(** Exactly [n] decimal digits at the head of [s]: their value and the rest. *)
Fixpoint fixed_digits (n : nat) (s : string) (acc : Z) : option (Z * string) :=
  match n with
  | O => Some (acc, s)
  | S n' =>
      match s with
      | String c r =>
          if is_digit c then fixed_digits n' r (10 * acc + digit_val c) else None
      | EmptyString => None
      end
  end.

(** The date part of an ISO date-time string, [YYYY], [YYYY-MM] or
    [YYYY-MM-DD], with the month in 1..12 and the day in 1..31, and what
    follows it.  Expanded years and the legacy (non-ISO) forms that an
    engine may also accept are not modelled: they read as invalid. *)
Definition scan_iso_date (s : string) : option (Z * string) :=
  match fixed_digits 4 s 0 with
  | None => None
  | Some (y, r1) =>
      match strip_prefix "-" r1 with
      | None => Some (days_from_civil y 1 1, r1)
      | Some r1' =>
          match fixed_digits 2 r1' 0 with
          | None => None
          | Some (m, r2) =>
              if (1 <=? m) && (m <=? 12) then
                match strip_prefix "-" r2 with
                | None => Some (days_from_civil y m 1, r2)
                | Some r2' =>
                    match fixed_digits 2 r2' 0 with
                    | None => None
                    | Some (d, r3) =>
                        if (1 <=? d) && (d <=? 31)
                        then Some (days_from_civil y m d, r3)
                        else None
                    end
                end
              else None
          end
      end
  end.

(** The day number of a string that is an ISO calendar date. *)
Definition iso_day (s : string) : option Z :=
  match scan_iso_date s with
  | Some (n, EmptyString) => Some n
  | _ => None
  end.

(** [new Date(s)] for the two shapes the scripts build: a date followed by
    ["T00:00:00Z"] (UTC) or by ["T00:00:00"] (the midnight of that date in
    the script's time zone [zone]). *)
Definition Date_parse (zone : Zone) (s : string) : Num.t :=
  match scan_iso_date s with
  | Some (n, rest) =>
      if String.eqb rest "T00:00:00Z" then Num.ofZ (n * msDay)
      else if String.eqb rest "T00:00:00"
      then Num.ofZ (n * msDay - local_offset zone (n * msDay))
      else Num.NaN
  | None => Num.NaN
  end.

(** The [yyyy-MM-dd] rendering of a day number. *)
Definition format_day (n : Z) : string :=
  let '(y, m, d) := civil_from_days n in
  pad_left 4 (Z_to_string y) ++ "-" ++ pad_left 2 (Z_to_string m)
    ++ "-" ++ pad_left 2 (Z_to_string d).

(** [Utilities.formatDate(new Date(t), tz, 'yyyy-MM-dd')]: the calendar
    date of the time value [t] in the zone [tz]. *)
Definition formatDate_ymd (tz : Zone) (t : Z) : string :=
  format_day ((t + utc_offset tz t) / msDay).

(** [Utilities.formatDate(new Date(t), tz, 'yyyy-MM-dd HH:mm:ss')]. *)
Definition formatDate_ymd_hms (tz : Zone) (t : Z) : string :=
  let secs := (t + utc_offset tz t) mod msDay / 1000 in
  formatDate_ymd tz t ++ " " ++ pad_left 2 (Z_to_string (secs / 3600))
    ++ ":" ++ pad_left 2 (Z_to_string (secs / 60 mod 60))
    ++ ":" ++ pad_left 2 (Z_to_string (secs mod 60)).

(** *** Sample zones *)

(** The first Sunday on or after the day number [n] (1970-01-01 was a
    Thursday). *)
Definition sunday_from (n : Z) : Z := n + (7 - (n + 4) mod 7) mod 7.

Definition msHour : Z := 60 * 60 * 1000.

(** [America/New_York] under the rule in force since 2007: five hours west
    of UTC, and four from 02:00 local time on the second Sunday of March to
    02:00 local time on the first Sunday of November.  A local time that the
    change skips or repeats is read with the offset in force before the
    change. *)
Definition America_New_York : Zone :=
  let year_of (t : Z) := fst (fst (civil_from_days (t / msDay))) in
  let spring y := (sunday_from (days_from_civil y 3 1) + 7) * msDay in
  let autumn y := sunday_from (days_from_civil y 11 1) * msDay in
  mkZone
    (fun t =>
       let y := year_of t in
       if (spring y + 7 * msHour <=? t) && (t <? autumn y + 6 * msHour)
       then - (4 * msHour) else - (5 * msHour))
    (fun l =>
       let y := year_of l in
       if (spring y + 3 * msHour <=? l) && (l <? autumn y + 2 * msHour)
       then - (4 * msHour) else - (5 * msHour)).

(** [Asia/Jakarta] and [Asia/Tokyo] have no daylight saving. *)
Definition Asia_Jakarta : Zone := fixed_zone (7 * msHour).
Definition Asia_Tokyo : Zone := fixed_zone (9 * msHour).

(** *** The window planner *)

(** The [while (curStart <= end)] loop of [buildDailyWindows_] on time
    values; [fmt] is [Utilities.formatDate(_, tz, 'yyyy-MM-dd')]. *)
Equations? windows_loop (fmt : Z -> string) (endT curStart : Z) :
    list (string * string) by wf (Z.to_nat ((endT - curStart) / msDay + 1)) lt :=
  windows_loop fmt endT curStart with Z_le_dec curStart endT => {
    | left Hle =>
        let curEnd := Z.min endT (curStart + 29 * msDay) in
        (fmt curStart, fmt curEnd) :: windows_loop fmt endT (curEnd + msDay);
    | right _ => [] }.
Proof.
  subst curEnd. unfold msDay.
  apply Z2Nat.inj_lt; Z.div_mod_to_equations; lia.
Qed.

(** [buildDailyWindows_(startDateStr, endDateStr, tz)].  [script] is the
    script's own time zone, in which [new Date] reads the two strings; [tz]
    is the zone in which the windows are printed.  The loop advances the
    time value by whole days of [msDay] milliseconds.  With an invalid
    date, [curStart <= end] compares with [NaN] and the loop body never
    runs. *)
Definition buildDailyWindows_ (script tz : Zone)
    (startDateStr endDateStr : string) : list (string * string) :=
  let start := Date_parse script (startDateStr ++ "T00:00:00") in
  let end_ := Date_parse script (endDateStr ++ "T00:00:00") in
  match start, end_ with
  | Num.Fin s, Num.Fin e =>
      windows_loop (formatDate_ymd tz) (Qfloor e) (Qfloor s)
  | _, _ => []
  end.

(** *** Range validation *)

(** [validateDailyRange_(startDateStr, endDateStr)]. *)
Definition dailyRangeDays (startDateStr endDateStr : string) : Num.t :=
  let start := Date_parse UTC (startDateStr ++ "T00:00:00Z") in
  let end_ := Date_parse UTC (endDateStr ++ "T00:00:00Z") in
  Num.add (Num.floor (Num.div (Num.sub end_ start) (Num.ofZ msDay))) (Num.ofZ 1).

Definition validateDailyRange_ (startDateStr endDateStr : string) : Result unit :=
  let days := dailyRangeDays startDateStr endDateStr in
  if Num.gtb days (Num.ofZ 30) then
    Throw (Error "Daily breakdown window must be ≤ 30 days when using stat_time_day.")
  else Ok tt.

(** [validateHourlyRange_(startDateStr, endDateStr)]; [hint] is the end of
    the message, which differs between the two hourly reports. *)
Definition validateHourlyRange_ (hint : string) (startDateStr endDateStr : string) :
    Result unit :=
  if negb (String.eqb startDateStr endDateStr) then
    Throw (Error ("Hourly breakdown requires start_date == end_date " ++ hint))
  else Ok tt.

(** ** The query string *)

(** The characters [encodeURIComponent] leaves as they are: letters, digits
    and [- _ . ! ~ * ' ( )]. *)
Definition is_unreserved (c : ascii) : bool :=
  let n := nat_of_ascii c in
  (((65 <=? n) && (n <=? 90)) || ((97 <=? n) && (n <=? 122))
   || ((48 <=? n) && (n <=? 57))
   || (n =? 45) || (n =? 95) || (n =? 46) || (n =? 33) || (n =? 126)
   || (n =? 42) || (n =? 39) || (n =? 40) || (n =? 41))%nat.

(** An upper-case hexadecimal digit. *)
Definition hex_digit (n : nat) : ascii :=
  ascii_of_nat (if (n <? 10)%nat then 48 + n else 55 + n).

(** [encodeURIComponent(s)]: every byte of the UTF-8 form of [s] other than
    an unreserved character becomes [%XX]. *)
Fixpoint encodeURIComponent (s : string) : string :=
  match s with
  | EmptyString => EmptyString
  | String c r =>
      if is_unreserved c then String c (encodeURIComponent r)
      else
        let n := nat_of_ascii c in
        String "%" (String (hex_digit (n / 16)) (String (hex_digit (n mod 16))
          (encodeURIComponent r)))
  end.

(** [toQueryString_(params)] of the single-query reports. *)
Definition toQueryString_ (params : Props) : string :=
  String.concat "&"
    (map (fun k => (encodeURIComponent k ++ "="
                      ++ encodeURIComponent (ToString (get (JObj params) k)))%string)
       (Object_keys (JObj params))).

(** ** The platform and the effect monad *)

(** What [UrlFetchApp.fetch] returns (with [muteHttpExceptions]): the status
    code, the content text, and the value of [JSON.parse] on that text
    (a [SyntaxError] when the text is not JSON). *)
Record HttpResponse : Type := mkResponse {
  getResponseCode : Z;
  getContentText : string;
  parsedContent : Result JsVal
}.

(** A request: the [params] object (before [JSON.stringify] and
    [toQueryString_], which the log of requests leaves out) and the
    [Access-Token] header. *)
Record Request : Type := mkRequest {
  req_params : Props;
  req_token : string
}.

(** The contents of a sheet: its rows, top to bottom, each a list of cells. *)
Abbreviation Sheet := (list (list JsVal)).

(** The environment of a run.  The server answers a request knowing the
    requests made before it, and may fail at the transport level; the clock
    is read after a number of requests.  [scriptZone] is the time zone of
    the script, in which [new Date] reads a local time; [timeZone] gives
    the zone of an identifier such as ["Asia/Jakarta"]. *)
Record Platform : Type := mkPlatform {
  server : list Request -> Request -> Result HttpResponse;
  scriptProperties : string -> option string;
  clock : nat -> Z;
  scriptZone : Zone;
  timeZone : string -> Zone
}.

(** What a run changes: the requests issued so far, oldest first, and the
    sheets of the active spreadsheet. *)
Record World : Type := mkWorld {
  requests : list Request;
  sheets : gmap string Sheet
}.

Inductive Outcome (A : Type) : Type :=
| Return (a : A)
| Raise (e : JsError)
| Diverge.
Arguments Return {A} a.
Arguments Raise {A} e.
Arguments Diverge {A}.

(** Computations over the world and the mutable local variables [L] of the
    running function. *)
Definition M (L A : Type) : Type := World * L -> Outcome A * (World * L).

Definition ret {L A} (a : A) : M L A := fun s => (Return a, s).

Definition bind {L A B} (c : M L A) (k : A -> M L B) : M L B :=
  fun s =>
    match c s with
    | (Return a, s') => k a s'
    | (Raise e, s') => (Raise e, s')
    | (Diverge, s') => (Diverge, s')
    end.

Notation "'let*' x ':=' c 'in' k" := (bind c (fun x => k))
  (at level 10, x name, c at level 100, k at level 200).
Notation "c ';;' k" := (bind c (fun _ => k))
  (at level 100, k at level 200, right associativity).

(** [throw e]. *)
Definition raise {L A} (e : JsError) : M L A := fun s => (Raise e, s).

(** A loop that has not ended when the fuel is spent. *)
Definition diverge {L A} : M L A := fun s => (Diverge, s).

Definition lift {L A} (r : Result A) : M L A :=
  match r with
  | Ok a => ret a
  | Throw e => raise e
  end.

(** [try { body } catch (err) { handler(err) }]: what [body] did to the
    world and to the local variables before it threw is kept. *)
Definition try_catch {L A} (body : M L A) (handler : JsError -> M L A) : M L A :=
  fun s =>
    match body s with
    | (Raise e, s') => handler e s'
    | r => r
    end.

Definition get_locals {L} : M L L := fun s => (Return (snd s), s).

Definition modify_locals {L} (f : L -> L) : M L unit :=
  fun s => (Return tt, (fst s, f (snd s))).

(** [for each x of xs: body x], in order. *)
Fixpoint forEach {L A} (xs : list A) (body : A -> M L unit) : M L unit :=
  match xs with
  | [] => ret tt
  | x :: rest => body x;; forEach rest body
  end.

Section PlatformOperations.

Context (P : Platform) {L : Type}.

(** [UrlFetchApp.fetch(url, {method: 'get', headers, muteHttpExceptions: true})]. *)
Definition UrlFetchApp_fetch (req : Request) : M L HttpResponse :=
  fun s =>
    let w := fst s in
    let s' := (mkWorld (requests w ++ [req]) (sheets w), snd s) in
    match server P (requests w) req with
    | Ok res => (Return res, s')
    | Throw e => (Raise e, s')
    end.

(** [PropertiesService.getScriptProperties().getProperty(key)]. *)
Definition getProperty (key : string) : M L JsVal :=
  ret (match scriptProperties P key with
       | Some v => JStr v
       | None => JNull
       end).

(** [new Date()], as a time value. *)
Definition Date_now : M L Z :=
  fun s => (Return (clock P (length (requests (fst s)))), s).

(** [getAccessToken_()]. *)
Definition getAccessToken_ : M L string :=
  let* token := getProperty "TT_ACCESS_TOKEN" in
  if negb (truthy token) then
    raise (Error "Missing TT_ACCESS_TOKEN in Script Properties.")
  else ret (ToString token).

End PlatformOperations.

(** *** Sheets *)

Definition blank_cell (v : JsVal) : bool :=
  match v with
  | JStr s => String.eqb s ""
  | _ => false
  end.

Definition blank_row (r : list JsVal) : bool := forallb blank_cell r.

(** [sh.getLastRow()]: the position of the last row that has content. *)
Fixpoint getLastRow (sh : Sheet) : nat :=
  match sh with
  | [] => O
  | r :: rest =>
      match getLastRow rest with
      | O => if blank_row r then O else 1%nat
      | S n => S (S n)
      end
  end.

(** The cells [new] written over the head of the row [old]. *)
Definition overwrite_cells (new old : list JsVal) : list JsVal :=
  new ++ drop (length new) old.

(** The rows [block] written over the top of [sh]. *)
Fixpoint overwrite_block (block : list (list JsVal)) (sh : Sheet) : Sheet :=
  match block with
  | [] => sh
  | b :: block' => overwrite_cells b (hd [] sh) :: overwrite_block block' (tl sh)
  end.

(** The rows [block] written into [sh] from row [row] (counted from 1) and
    column 1; rows in between that did not exist are empty. *)
Fixpoint overwrite_rows (row : nat) (block : list (list JsVal)) (sh : Sheet) : Sheet :=
  match row with
  | O | S O => overwrite_block block sh
  | S row' =>
      match block with
      | [] => sh
      | _ => hd [] sh :: overwrite_rows row' block (tl sh)
      end
  end.

Section SheetOperations.

Context {L : Type}.

(** [ss.getSheetByName(name) || ss.insertSheet(name)]: the contents of the
    sheet, which exists afterwards. *)
Definition getOrInsertSheet (name : string) : M L Sheet :=
  fun s =>
    let w := fst s in
    match sheets w !! name with
    | Some sh => (Return sh, s)
    | None => (Return [], (mkWorld (requests w) (<[name := []]> (sheets w)), snd s))
    end.

Definition putSheet (name : string) (sh : Sheet) : M L unit :=
  fun s =>
    let w := fst s in
    (Return tt, (mkWorld (requests w) (<[name := sh]> (sheets w)), snd s)).

(** [sh.clearContents()]. *)
Definition clearContents (name : string) : M L unit := putSheet name [].

(** [sh.getRange(row, 1, numRows, numColumns).setValues(values)]: the range
    must have at least one row and one column, and [values] its shape. *)
Definition setValues (name : string) (row numRows numColumns : nat)
    (values : list (list JsVal)) : M L unit :=
  if Nat.eqb numRows 0 then
    raise (Error "The number of rows in the range must be at least 1.")
  else if Nat.eqb numColumns 0 then
    raise (Error "The number of columns in the range must be at least 1.")
  else if negb (Nat.eqb (length values) numRows) then
    raise (Error "The number of rows in the data does not match the number of rows in the range.")
  else if negb (forallb (fun r => Nat.eqb (length r) numColumns) values) then
    raise (Error "The number of columns in the data does not match the number of columns in the range.")
  else
    let* sh := getOrInsertSheet name in
    putSheet name (overwrite_rows row values sh).

(** [sh.appendRow(values)]: the row goes below the last row with content. *)
Definition appendRow (name : string) (values : list JsVal) : M L unit :=
  let* sh := getOrInsertSheet name in
  putSheet name (overwrite_rows (S (getLastRow sh)) [values] sh).

(** [writeRowsToSheet_(sheetName, rows, headerOrder)] of the single-query
    reports. *)
Definition writeRowsToSheet_ (sheetName : string) (rows : list Props)
    (headerOrder : list string) : M L unit :=
  getOrInsertSheet sheetName;;
  clearContents sheetName;;
  setValues sheetName 1 1 (length headerOrder) [map JStr headerOrder];;
  let data :=
    map (fun r => map (fun h => js_coalesce (get (JObj r) h) (JStr "")) headerOrder) rows in
  if negb (Nat.eqb (length data) 0) then
    setValues sheetName 2 (length data) (length headerOrder) data
  else ret tt.

(** [writeTotalsSheet_(sheetName, totals)]: a row of keys over a row of
    values. *)
Definition writeTotalsSheet_ (sheetName : string) (totals : JsVal) : M L unit :=
  getOrInsertSheet sheetName;;
  clearContents sheetName;;
  let keys := Object_keys totals in
  setValues sheetName 1 1 (length keys) [map JStr keys];;
  setValues sheetName 2 1 (length keys) [map (fun k => get totals k) keys].

End SheetOperations.

(** ** The single-query reports *)

(** The configuration row, as [readConfig_] and its variants return it.
    [page_size] is a number or [undefined]. *)
Record Config : Type := mkConfig {
  cfg_entity : Entity;
  start_date : string;
  end_date : string;
  page_size : JsVal;
  enable_total_metrics : bool;
  campaign_ids : list string;
  item_group_ids : list string;
  creative_delivery_statuses : list string
}.

(** What differs between the five single-query reports. *)
Record Report : Type := mkReport {
  rp_validate : Config -> Result unit;
  rp_dimensions : list string;
  rp_metrics : list string;
  rp_filtering : Config -> Props;
  rp_http_error : Z -> string -> string;
  rp_api_error : JsVal -> JsVal -> string;
  rp_row : RowLiteral;
  rp_sheet : string;
  rp_columns : list string;
  rp_totals_sheet : string
}.

(** The local variables of a report function. *)
Record Locals : Type := mkLocals {
  page : Z;
  allRows : list Props;
  totalMetrics : JsVal
}.

Definition strings (l : list string) : JsVal := JArr (map JStr l).

(** [v !== 0]. *)
Definition strict_neq_zero (v : JsVal) : bool :=
  match v with
  | JNum n => negb (Num.eqb n Num.zero)
  | _ => true
  end.

(** The [params] object of a request. *)
Definition request_params (ent : Entity) (startDate endDate : string)
    (dimensions metrics : list string) (filtering : Props)
    (page : Z) (pageSize : JsVal) (enableTotals : bool) : Props :=
  [("advertiser_id", JStr (advertiser_id ent));
   ("store_ids", strings [store_id ent]);
   ("start_date", JStr startDate);
   ("end_date", JStr endDate);
   ("dimensions", strings dimensions);
   ("metrics", strings metrics);
   ("filtering", JObj filtering);
   ("page", JInt page);
   ("page_size", pageSize)]
  ++ (if enableTotals then [("enable_total_metrics", JBool true)] else []).

Definition push_row (row : Props) (l : Locals) : Locals :=
  mkLocals (page l) (allRows l ++ [row]) (totalMetrics l).

Definition capture_totals (v : JsVal) (l : Locals) : Locals :=
  mkLocals (page l) (allRows l) v.

Definition next_page (l : Locals) : Locals :=
  mkLocals (page l + 1) (allRows l) (totalMetrics l).

Section SingleQueryReport.

Context (P : Platform) (rp : Report) (cfg : Config).

(** The request for the page [page]. *)
Definition page_request (accessToken : string) (page : Z) : Request :=
  let pageSize := js_or (page_size cfg) (JInt 1000) in
  mkRequest
    (request_params (cfg_entity cfg) (start_date cfg) (end_date cfg)
       (rp_dimensions rp) (rp_metrics rp) (rp_filtering rp cfg)
       page pageSize (enable_total_metrics cfg))
    accessToken.

(** One turn of the [while (true)] loop once the response [res] is there,
    up to the test that ends the loop: [true] when [page >= totalPage].
    [l] holds the variables as they were when the turn began. *)
Definition processPage (l : Locals) (res : HttpResponse) : M Locals bool :=
  let code := getResponseCode res in
  if negb (code =? 200) then
    raise (Error (rp_http_error rp code (getContentText res)))
  else
  let* body := lift (parsedContent res) in
  let* bcode := lift (member body "code") in
  if strict_neq_zero bcode then
    raise (Error (rp_api_error rp bcode (get body "message")))
  else
  let data := js_or (get body "data") (JObj []) in
  let list_ := js_or (get data "list") (JArr []) in
  (if enable_total_metrics cfg && truthy (get body "total_metrics")
      && negb (truthy (totalMetrics l))
   then modify_locals (capture_totals (get body "total_metrics"))
   else ret tt);;
  let* items := lift (forEach_items list_) in
  forEach items (fun item =>
    let* row := lift (flattenItem (rp_row rp) (cfg_entity cfg) item) in
    modify_locals (push_row row));;
  let pageInfo := js_or (get data "page_info") (JObj []) in
  let totalPage := ToNumber (js_or (get pageInfo "total_page") (JInt 1)) in
  ret (Num.geb (Num.ofZ (page l)) totalPage).

(** One turn of the loop: the request, then the response. *)
Definition fetchPage (accessToken : string) : M Locals bool :=
  let* l := get_locals in
  let* res := UrlFetchApp_fetch P (page_request accessToken (page l)) in
  processPage l res.

(** The [while (true)] loop. *)
Fixpoint fetchAllPages (fuel : nat) (accessToken : string) : M Locals unit :=
  match fuel with
  | O => diverge
  | S fuel' =>
      let* stop := fetchPage accessToken in
      if stop then ret tt
      else modify_locals next_page;; fetchAllPages fuel' accessToken
  end.

(** The report function, after [readConfig_]. *)
Definition runReport (fuel : nat) : M Locals unit :=
  lift (rp_validate rp cfg);;
  let* accessToken := getAccessToken_ P in
  modify_locals (fun _ => mkLocals 1 [] JNull);;
  fetchAllPages fuel accessToken;;
  let* l := get_locals in
  writeRowsToSheet_ (rp_sheet rp) (allRows l) (rp_columns rp);;
  if enable_total_metrics cfg && truthy (totalMetrics l) then
    writeTotalsSheet_ (rp_totals_sheet rp) (totalMetrics l)
  else ret tt.

End SingleQueryReport.

(** *** The five reports *)

Definition product_campaign_metrics : list string :=
  ["campaign_id"; "operation_status"; "campaign_name"; "schedule_type";
   "schedule_start_time"; "schedule_end_time"; "target_roi_budget"; "bid_type";
   "max_delivery_budget"; "roas_bid"; "cost"; "net_cost"; "orders";
   "cost_per_order"; "gross_revenue"; "roi"].

Definition live_campaign_metrics : list string :=
  ["campaign_id"; "operation_status"; "campaign_name"; "tt_account_name";
   "tt_account_profile_image_url"; "identity_id"; "schedule_type";
   "schedule_start_time"; "schedule_end_time"; "bid_type"; "target_roi_budget";
   "max_delivery_budget"; "roas_bid"; "cost"; "net_cost"; "orders";
   "cost_per_order"; "gross_revenue"; "roi"; "live_views"; "cost_per_live_view";
   "10_second_live_views"; "cost_per_10_second_live_view"; "live_follows"].

Definition product_campaign_columns (time_column : string) : list string :=
  ["advertiser_id"; "store_id"; time_column; "campaign_id"; "operation_status";
   "campaign_name"; "schedule_type"; "schedule_start_time"; "schedule_end_time";
   "target_roi_budget"; "bid_type"; "max_delivery_budget"; "roas_bid"; "cost";
   "net_cost"; "orders"; "cost_per_order"; "gross_revenue"; "roi"].

Definition live_campaign_columns (time_column : string) : list string :=
  ["advertiser_id"; "store_id"; time_column; "campaign_id"; "operation_status";
   "campaign_name"; "tt_account_name"; "tt_account_profile_image_url";
   "identity_id"; "schedule_type"; "schedule_start_time"; "schedule_end_time";
   "bid_type"; "target_roi_budget"; "max_delivery_budget"; "roas_bid"; "cost";
   "net_cost"; "orders"; "cost_per_order"; "gross_revenue"; "roi"; "live_views";
   "cost_per_live_view"; "live_10s_views"; "cost_per_10s_live_view"; "live_follows"].

Definition long_http_error (code : Z) (text : string) : string :=
  "API error HTTP " ++ Z_to_string code ++ ": " ++ text.

Definition long_api_error (code message : JsVal) : string :=
  "API returned code " ++ ToString code ++ " message: " ++ ToString message.

Definition short_http_error (code : Z) (text : string) : string :=
  "HTTP " ++ Z_to_string code ++ ": " ++ text.

Definition short_api_error (code message : JsVal) : string :=
  "API " ++ ToString code ++ ": " ++ ToString message.

Definition validate_daily (cfg : Config) : Result unit :=
  validateDailyRange_ (start_date cfg) (end_date cfg).

Definition ProductCampaignDaily : Report :=
  {| rp_validate := validate_daily;
     rp_dimensions := ["campaign_id"; "stat_time_day"];
     rp_metrics := product_campaign_metrics;
     rp_filtering := fun _ => [("gmv_max_promotion_types", strings ["PRODUCT"])];
     rp_http_error := long_http_error;
     rp_api_error := long_api_error;
     rp_row := row_ProductCampaignDaily;
     rp_sheet := "GMVMax_Product_Campaign_Daily";
     rp_columns := product_campaign_columns "stat_time_day";
     rp_totals_sheet := "GMVMax_Product_Campaign_Daily_Totals" |}.

Definition ProductCampaignHourly : Report :=
  {| rp_validate := fun cfg =>
       validateHourlyRange_ "(one calendar day)." (start_date cfg) (end_date cfg);
     rp_dimensions := ["campaign_id"; "stat_time_hour"];
     rp_metrics := product_campaign_metrics;
     rp_filtering := fun _ => [("gmv_max_promotion_types", strings ["PRODUCT"])];
     rp_http_error := long_http_error;
     rp_api_error := long_api_error;
     rp_row := row_ProductCampaignHourly;
     rp_sheet := "GMVMax_Product_Campaign_Hourly";
     rp_columns := product_campaign_columns "stat_time_hour";
     rp_totals_sheet := "GMVMax_Product_Campaign_Hourly_Totals" |}.

Definition LiveCampaignHourly : Report :=
  {| rp_validate := fun cfg =>
       validateHourlyRange_ "(one day)." (start_date cfg) (end_date cfg);
     rp_dimensions := ["campaign_id"; "stat_time_hour"];
     rp_metrics := live_campaign_metrics;
     rp_filtering := fun _ => [("gmv_max_promotion_types", strings ["LIVE"])];
     rp_http_error := short_http_error;
     rp_api_error := short_api_error;
     rp_row := row_LiveCampaignHourly;
     rp_sheet := "GMVMax_LIVE_Campaign_Hourly";
     rp_columns := live_campaign_columns "stat_time_hour";
     rp_totals_sheet := "GMVMax_LIVE_Campaign_Hourly_Totals" |}.

Definition ProductProductDaily : Report :=
  {| rp_validate := validate_daily;
     rp_dimensions := ["item_group_id"; "stat_time_day"];
     rp_metrics :=
       ["product_name"; "product_image_url"; "product_status"; "bid_type"; "cost";
        "orders"; "cost_per_order"; "gross_revenue"; "roi"];
     rp_filtering := fun cfg =>
       [("campaign_ids", strings [campaign_id (cfg_entity cfg)])];
     rp_http_error := long_http_error;
     rp_api_error := long_api_error;
     rp_row := row_ProductProductDaily;
     rp_sheet := "GMVMax_Product_ProductLevel_Daily";
     rp_columns :=
       ["advertiser_id"; "store_id"; "campaign_id"; "stat_time_day"; "item_group_id";
        "product_name"; "product_image_url"; "product_status"; "bid_type"; "cost";
        "orders"; "cost_per_order"; "gross_revenue"; "roi"];
     rp_totals_sheet := "GMVMax_Product_ProductLevel_Daily_Totals" |}.

Definition ProductCreativeStatuses : Report :=
  {| rp_validate := fun _ => Ok tt;
     rp_dimensions := ["campaign_id"; "item_group_id"; "item_id"];
     rp_metrics :=
       ["creative_delivery_status"; "cost"; "orders"; "cost_per_order";
        "gross_revenue"; "roi"; "product_impressions"; "product_clicks";
        "product_click_rate"; "ad_click_rate"; "ad_conversion_rate";
        "ad_video_view_rate_2s"; "ad_video_view_rate_6s"; "ad_video_view_rate_p25";
        "ad_video_view_rate_p50"; "ad_video_view_rate_p75"; "ad_video_view_rate_p100"];
     rp_filtering := fun cfg =>
       ([("campaign_ids", strings (campaign_ids cfg));
         ("item_group_ids", strings (item_group_ids cfg))]
        ++ (match creative_delivery_statuses cfg with
            | [] => []
            | l => [("creative_delivery_statuses", strings l)]
            end))%list;
     rp_http_error := short_http_error;
     rp_api_error := short_api_error;
     rp_row := row_ProductCreativeStatuses;
     rp_sheet := "GMVMax_Product_Creative_Statuses";
     rp_columns :=
       ["advertiser_id"; "store_id"; "campaign_id"; "item_group_id"; "item_id";
        "creative_delivery_status"; "cost"; "orders"; "cost_per_order";
        "gross_revenue"; "roi"; "product_impressions"; "product_clicks";
        "product_click_rate"; "ad_click_rate"; "ad_conversion_rate";
        "ad_video_view_rate_2s"; "ad_video_view_rate_6s"; "ad_video_view_rate_p25";
        "ad_video_view_rate_p50"; "ad_video_view_rate_p75"; "ad_video_view_rate_p100"];
     rp_totals_sheet := "GMVMax_Product_Creative_Statuses_Totals" |}.

Definition single_query_reports : list Report :=
  [ProductCampaignDaily; ProductCampaignHourly; LiveCampaignHourly;
   ProductProductDaily; ProductCreativeStatuses].

Definition runProductGmvMaxCampaignDaily (P : Platform) := runReport P ProductCampaignDaily.
Definition runProductGmvMaxCampaignHourly (P : Platform) := runReport P ProductCampaignHourly.
Definition runLiveGmvMaxCampaignHourly (P : Platform) := runReport P LiveCampaignHourly.
Definition runProductGmvMaxProductDaily (P : Platform) := runReport P ProductProductDaily.
Definition runProductGmvMaxCreativeStatuses (P : Platform) := runReport P ProductCreativeStatuses.

(** ** The configuration sheet *)

(** [s.toUpperCase()], on the ASCII letters (the scripts only compare the
    result with ['TRUE']). *)
Definition upper_char (c : ascii) : ascii :=
  let n := nat_of_ascii c in
  if ((97 <=? n) && (n <=? 122))%nat then ascii_of_nat (n - 32) else c.

Fixpoint toUpperCase (s : string) : string :=
  match s with
  | EmptyString => EmptyString
  | String c r => String (upper_char c) (toUpperCase r)
  end.

(** [s.split(sep)] for a separator of one character. *)
Fixpoint split_on (sep : ascii) (s : string) : list string :=
  match s with
  | EmptyString => [EmptyString]
  | String c r =>
      if Ascii.eqb c sep then EmptyString :: split_on sep r
      else match split_on sep r with
           | h :: t => String c h :: t
           | [] => [String c EmptyString]
           end
  end.

(** [s.split(',').map(s => s.trim()).filter(Boolean)]. *)
Definition csv_list (s : string) : list string :=
  List.filter (fun x => negb (String.eqb x "")) (map trim (split_on "," s)).

(** [row[i]]. *)
Definition cell_at (row : list string) (i : nat) : JsVal :=
  match nth_error row i with
  | Some s => JStr s
  | None => JUndefined
  end.

(** [headers.forEach((h, i) => asMap[h] = f(row[i]))], from the index [i]
    on. *)
Fixpoint fill_map (f : JsVal -> JsVal) (headers row : list string) (i : nat)
    (asMap : Props) : Props :=
  match headers with
  | [] => asMap
  | h :: rest => fill_map f rest row (S i) (set asMap h (f (cell_at row i)))
  end.

(** [(v || '').toString().trim()]. *)
Definition trimmed (v : JsVal) : JsVal :=
  JStr (trim (ToString (js_or v (JStr "")))).

Definition double_quote : string := String (ascii_of_nat 34) EmptyString.

(** The first lines of every reader: the display values of the data range
    of the sheet named Config, [None] when there is no such sheet.  An
    empty sheet has no last row, and a range of no rows throws.  [f] is
    what the reader does to a cell. *)
Definition config_map (short : string) (f : JsVal -> JsVal)
    (config : option (list (list string))) : Result Props :=
  match config with
  | None =>
      Throw (Error ("Missing " ++ double_quote ++ "Config" ++ double_quote ++ " sheet."))
  | Some [] => Throw (Error "The number of rows in the range must be at least 1.")
  | Some [_] => Throw (Error short)
  | Some (first :: row :: _) => Ok (fill_map f (map trim first) row 0 [])
  end.

(** [asMap.page_size ? Number(asMap.page_size) : undefined]. *)
Definition page_size_of (asMap : Props) : JsVal :=
  if truthy (get (JObj asMap) "page_size")
  then JNum (ToNumber (get (JObj asMap) "page_size"))
  else JUndefined.

(** [String(asMap.enable_total_metrics || '').toUpperCase() === 'TRUE']. *)
Definition enable_total_metrics_of (asMap : Props) : bool :=
  String.eqb
    (toUpperCase (ToString (js_or (get (JObj asMap) "enable_total_metrics") (JStr ""))))
    "TRUE".

(** [(asMap.k || '').split(',').map(s => s.trim()).filter(Boolean)]. *)
Definition csv_of (asMap : Props) (k : string) : list string :=
  csv_list (ToString (js_or (get (JObj asMap) k) (JStr ""))).

Section ConfigReaders.

Context (P : Platform).

(** [props.getProperty('TT_ADVERTISER_IDS')]. *)
Definition advertiser_property : JsVal :=
  match scriptProperties P "TT_ADVERTISER_IDS" with
  | Some v => JStr v
  | None => JNull
  end.

(** The first identifier of the property:
    [(getProperty('TT_ADVERTISER_IDS') || '').split(',')[0].trim()]. *)
Definition first_advertiser : JsVal :=
  JStr (trim (hd EmptyString
                (split_on "," (ToString (js_or advertiser_property (JStr "")))))).

(** [readConfig_()] of the two Product campaign reports. *)
Definition readConfig_ (config : option (list (list string))) : Result Config :=
  result_bind
    (config_map "Config sheet must have headers in row 1 and values in row 2."
       (fun v => v) config)
    (fun asMap =>
       let advertiser_id := js_or (get (JObj asMap) "advertiser_id") advertiser_property in
       let store_id := get (JObj asMap) "store_id" in
       let start_date := get (JObj asMap) "start_date" in
       let end_date := get (JObj asMap) "end_date" in
       if negb (truthy advertiser_id) then
         Throw (Error "Missing advertiser_id (Config or TT_ADVERTISER_IDS).")
       else if negb (truthy store_id) then
         Throw (Error "Missing store_id in Config.")
       else if negb (truthy start_date) || negb (truthy end_date) then
         Throw (Error "Missing start_date/end_date in Config.")
       else
         Ok (mkConfig
               (mkEntity (ToString advertiser_id) (ToString store_id) EmptyString)
               (ToString start_date) (ToString end_date)
               (page_size_of asMap) (enable_total_metrics_of asMap) [] [] [])).

(** [readConfigLiveHourly_()]. *)
Definition readConfigLiveHourly_ (config : option (list (list string))) :
    Result Config :=
  result_bind
    (config_map "Config needs headers row 1 + values row 2." trimmed config)
    (fun asMap =>
       let advertiser_id :=
         if negb (truthy (get (JObj asMap) "advertiser_id")) then first_advertiser
         else get (JObj asMap) "advertiser_id" in
       if negb (truthy advertiser_id) then
         Throw (Error "Missing advertiser_id.")
       else if negb (truthy (get (JObj asMap) "store_id")) then
         Throw (Error "Missing store_id in Config.")
       else if negb (truthy (get (JObj asMap) "start_date"))
               || negb (truthy (get (JObj asMap) "end_date")) then
         Throw (Error "Missing start_date/end_date in Config.")
       else
         Ok (mkConfig
               (mkEntity (ToString advertiser_id)
                  (ToString (get (JObj asMap) "store_id")) EmptyString)
               (ToString (get (JObj asMap) "start_date"))
               (ToString (get (JObj asMap) "end_date"))
               (page_size_of asMap) (enable_total_metrics_of asMap) [] [] [])).

(** [readConfig_ProductSingleCampaign_()]. *)
Definition readConfig_ProductSingleCampaign_ (config : option (list (list string))) :
    Result Config :=
  result_bind
    (config_map "Config sheet must have headers in row 1 and values in row 2."
       (fun v => v) config)
    (fun asMap =>
       let advertiser_id := js_or (get (JObj asMap) "advertiser_id") advertiser_property in
       let store_id := get (JObj asMap) "store_id" in
       let start_date := get (JObj asMap) "start_date" in
       let end_date := get (JObj asMap) "end_date" in
       let campaignIdsStr :=
         trim (ToString (js_or (get (JObj asMap) "campaign_ids") (JStr ""))) in
       let arr := if String.eqb campaignIdsStr "" then [] else csv_list campaignIdsStr in
       match arr with
       | [campaign_id] =>
           if negb (truthy advertiser_id) then
             Throw (Error "Missing advertiser_id (Config or TT_ADVERTISER_IDS).")
           else if negb (truthy store_id) then
             Throw (Error "Missing store_id in Config.")
           else if negb (truthy start_date) || negb (truthy end_date) then
             Throw (Error "Missing start_date/end_date in Config.")
           else
             Ok (mkConfig
                   (mkEntity (ToString advertiser_id) (ToString store_id) campaign_id)
                   (ToString start_date) (ToString end_date)
                   (page_size_of asMap) (enable_total_metrics_of asMap) [] [] [])
       | _ =>
           Throw (Error
             ("To include product_name and other product attributes, set exactly ONE campaign_id in Config.campaign_ids. "
              ++ "For multi-campaign pulls, remove attributes and use performance-only with dimensions "
              ++ "[" ++ double_quote ++ "campaign_id" ++ double_quote ++ ","
              ++ double_quote ++ "item_group_id" ++ double_quote ++ ","
              ++ double_quote ++ "stat_time_day" ++ double_quote ++ "]."))
       end).

(** [readConfigCreativeStatuses_()]. *)
Definition readConfigCreativeStatuses_ (config : option (list (list string))) :
    Result Config :=
  result_bind
    (config_map "Config needs headers row (1) + values row (2)." trimmed config)
    (fun asMap =>
       let advertiser_id :=
         if negb (truthy (get (JObj asMap) "advertiser_id")) then first_advertiser
         else get (JObj asMap) "advertiser_id" in
       let store_id := get (JObj asMap) "store_id" in
       let start_date := get (JObj asMap) "start_date" in
       let end_date := get (JObj asMap) "end_date" in
       let campaign_ids := csv_of asMap "campaign_ids" in
       let item_group_ids := csv_of asMap "item_group_ids" in
       let creative_delivery_statuses := csv_of asMap "creative_delivery_statuses" in
       if negb (truthy advertiser_id) then
         Throw (Error "Missing advertiser_id (Config or TT_ADVERTISER_IDS).")
       else if negb (truthy store_id) then
         Throw (Error "Missing store_id in Config.")
       else if negb (truthy start_date) || negb (truthy end_date) then
         Throw (Error "Missing start_date / end_date in Config.")
       else if Nat.eqb (length campaign_ids) 0 then
         Throw (Error "Provide at least one campaign_id in Config.")
       else if Nat.eqb (length item_group_ids) 0 then
         Throw (Error "Provide at least one item_group_id in Config.")
       else
         Ok (mkConfig
               (mkEntity (ToString advertiser_id) (ToString store_id) EmptyString)
               (ToString start_date) (ToString end_date)
               (page_size_of asMap) (enable_total_metrics_of asMap)
               campaign_ids item_group_ids creative_delivery_statuses)).

End ConfigReaders.

(** ** The batch report: LIVE campaigns, daily, since 2025-06-01 *)

Module Batch.

(** The mutable variables of the function: [page] (reset for each pair),
    [allRows] and [totalsAgg]. *)
Record Locals : Type := mkLocals {
  page : Z;
  allRows : list Props;
  totalsAgg : Props
}.

Definition TZ : string := "Asia/Jakarta".
Definition START_FIXED : string := "2025-06-01".
Definition dimensions : list string := ["campaign_id"; "stat_time_day"].
Definition filtering : Props := [("gmv_max_promotion_types", strings ["LIVE"])].
Definition pageSize : JsVal := JInt 1000.

(** An advertiser with its store. *)
Abbreviation Pair := (string * string)%type.

Definition entity (p : Pair) : Entity := mkEntity (fst p) (snd p) "".

(** The pairing of advertisers and stores: one store for all advertisers,
    or lists of equal length paired by position. *)
Definition make_pairs (ADVERTISER_IDS STORE_IDS : list string) : Result (list Pair) :=
  if Nat.eqb (length STORE_IDS) 1 then
    Ok (map (fun a => (a, nth 0 STORE_IDS "")) ADVERTISER_IDS)
  else if Nat.eqb (length ADVERTISER_IDS) (length STORE_IDS) then
    Ok (combine ADVERTISER_IDS STORE_IDS)
  else
    Throw (Error "List mismatch: provide one store for all advertisers OR equal counts.").

Definition push_row (row : Props) (l : Locals) : Locals :=
  mkLocals (page l) (allRows l ++ [row]) (totalsAgg l).

Definition merge_totals (add : JsVal) (l : Locals) : Locals :=
  mkLocals (page l) (allRows l) (sumTotals_ (totalsAgg l) add).

Definition next_page (l : Locals) : Locals :=
  mkLocals (page l + 1) (allRows l) (totalsAgg l).

Definition first_page (l : Locals) : Locals :=
  mkLocals 1 (allRows l) (totalsAgg l).

Definition set_totals (f : Props -> Props) (l : Locals) : Locals :=
  mkLocals (page l) (allRows l) (f (totalsAgg l)).

Definition http_error (code : Z) (text : string) : string :=
  "HTTP " ++ Z_to_string code ++ " – " ++ text.

Definition api_error (code message : JsVal) : string :=
  "API code " ++ ToString code ++ " – " ++ ToString message.

(** [String(err && err.message || err)]. *)
Definition error_text (err : JsError) : string :=
  if String.eqb (err_message err) "" then error_to_string err
  else err_message err.

(** [toQueryString_(params)] of the batch report: a parameter whose value is
    [undefined] or [null] is left out. *)
Definition toQueryString_ (params : Props) : string :=
  String.concat "&"
    (flat_map (fun k =>
                 match get (JObj params) k with
                 | JUndefined | JNull => []
                 | v => [(encodeURIComponent k ++ "="
                            ++ encodeURIComponent (ToString v))%string]
                 end)
       (Object_keys (JObj params))).

Section Driver.

Context (P : Platform).

(** The request for the page [page] of the window [w] and the pair [p]. *)
Definition page_request (w : string * string) (p : Pair) (ACCESS_TOKEN : string)
    (page : Z) : Request :=
  mkRequest
    (request_params (entity p) (fst w) (snd w) dimensions live_campaign_metrics
       filtering page pageSize true)
    ACCESS_TOKEN.

(** One turn of the [while (true)] loop once the response [res] is there,
    up to the test that ends the loop.  [l] holds the variables as they
    were when the turn began. *)
Definition processPage (p : Pair) (l : Locals) (res : HttpResponse) : M Locals bool :=
  if negb (getResponseCode res =? 200) then
    raise (Error (http_error (getResponseCode res) (getContentText res)))
  else
  let* body := lift (parsedContent res) in
  let* bcode := lift (member body "code") in
  if strict_neq_zero bcode then
    raise (Error (api_error bcode (get body "message")))
  else
  (if truthy (get body "total_metrics")
   then modify_locals (merge_totals (get body "total_metrics"))
   else ret tt);;
  let data := js_or (get body "data") (JObj []) in
  let list_ := js_or (get data "list") (JArr []) in
  let* items := lift (forEach_items list_) in
  forEach items (fun item =>
    let* row := lift (flattenItem row_LiveCampaignDailySince (entity p) item) in
    modify_locals (push_row row));;
  let pageInfo := js_or (get data "page_info") (JObj []) in
  ret (Num.geb (Num.ofZ (page l))
         (ToNumber (js_or (get pageInfo "total_page") (JInt 1)))).

(** One turn of the loop: the request, then the response. *)
Definition fetchPage (w : string * string) (p : Pair) (ACCESS_TOKEN : string) :
    M Locals bool :=
  let* l := get_locals in
  let* res := UrlFetchApp_fetch P (page_request w p ACCESS_TOKEN (page l)) in
  processPage p l res.

Fixpoint fetchAllPages (fuel : nat) (w : string * string) (p : Pair)
    (ACCESS_TOKEN : string) : M Locals unit :=
  match fuel with
  | O => diverge
  | S fuel' =>
      let* stop := fetchPage w p ACCESS_TOKEN in
      if stop then ret tt
      else modify_locals next_page;; fetchAllPages fuel' w p ACCESS_TOKEN
  end.

(** [logErrorRow_(sheetName, obj)]. *)
Definition logErrorRow_ {L} (sheetName : string) (obj : Props) : M L unit :=
  let keys := ["ts"; "advertiser_id"; "store_id"; "window"; "message"] in
  let* sh := getOrInsertSheet sheetName in
  (if Nat.eqb (getLastRow sh) 0 then
     setValues sheetName 1 1 (length keys) [map JStr keys]
   else ret tt);;
  appendRow sheetName (map (fun k => js_or (get (JObj obj) k) (JStr "")) keys).

(** The object literal the [catch] block logs. *)
Definition error_record (ts : string) (w : string * string) (p : Pair)
    (err : JsError) : Props :=
  [("ts", JStr ts);
   ("advertiser_id", JStr (fst p));
   ("store_id", JStr (snd p));
   ("window", JStr (fst w ++ ".." ++ snd w));
   ("message", JStr (error_text err))].

(** The body of [pairs.forEach] for the window [w]: the pagination loop in
    its [try], the error row in its [catch]. *)
Definition fetchPair (fuel : nat) (ACCESS_TOKEN : string) (w : string * string)
    (p : Pair) : M Locals unit :=
  modify_locals first_page;;
  try_catch (fetchAllPages fuel w p ACCESS_TOKEN)
    (fun err =>
       let* now := Date_now P in
       logErrorRow_ "GMVMax_Errors"
         (error_record (formatDate_ymd_hms (timeZone P TZ) now) w p err)).

(** [writeRowsToSheet_(sheetName, rows, columns)] of this report. *)
Definition writeRowsToSheet_ {L} (sheetName : string) (rows : list Props)
    (columns : list string) : M L unit :=
  getOrInsertSheet sheetName;;
  clearContents sheetName;;
  setValues sheetName 1 1 (length columns) [map JStr columns];;
  if Nat.eqb (length rows) 0 then ret tt
  else
    let data :=
      map (fun r =>
             map (fun c =>
                    match get (JObj r) c with
                    | JUndefined => JStr ""
                    | v => v
                    end) columns) rows in
    setValues sheetName 2 (length data) (length columns) data.

Definition data_sheet : string := "GMVMax_LIVE_Campaign_Daily_Since_2025-06-01".
Definition totals_sheet : string := "GMVMax_LIVE_Campaign_Daily_Totals_Since_2025-06-01".

(** [runLiveGmvMaxCampaignDaily_SinceJune1_Simple()], with the two constant
    lists at its head as parameters. *)
Definition runLiveGmvMaxCampaignDaily_SinceJune1_Simple
    (ADVERTISER_IDS STORE_IDS : list string) (fuel : nat) : M Locals unit :=
  let* token := getProperty P "TT_ACCESS_TOKEN" in
  if negb (truthy token) then
    raise (Error "Missing TT_ACCESS_TOKEN in Script Properties (or hardcode ACCESS_TOKEN).")
  else
  let ACCESS_TOKEN := ToString token in
  let* now := Date_now P in
  let todayStr := formatDate_ymd (timeZone P TZ) now in
  let windows :=
    buildDailyWindows_ (scriptZone P) (timeZone P TZ) START_FIXED todayStr in
  let* pairs := lift (make_pairs ADVERTISER_IDS STORE_IDS) in
  modify_locals (fun _ => mkLocals 1 [] []);;
  forEach windows (fun w =>
    forEach pairs (fun p => fetchPair fuel ACCESS_TOKEN w p));;
  modify_locals (set_totals recomputeRoi);;
  let* l := get_locals in
  writeRowsToSheet_ data_sheet (allRows l) (live_campaign_columns "stat_time_day");;
  if negb (Nat.eqb (length (Object_keys (JObj (totalsAgg l)))) 0) then
    writeTotalsSheet_ totals_sheet (JObj (totalsAgg l))
  else ret tt.

End Driver.

End Batch.

(** * Properties *)

Local Open Scope list_scope.

(** ** Sanity checks of the value model *)

Example Z_to_string_ex :
  (Z_to_string 0, Z_to_string 40105, Z_to_string (-7), pad_left 2 (Z_to_string 6)) =
  ("0", "40105", "-7", "06").
Proof. reflexivity. Qed.

Example parseFloat_ex :
  map parseFloat ["10"; " 2.50"; "12abc"; "abc"; ""; "-3e2"; ".5"; "Infinity"; "1e"] =
  [Num.ofZ 10; Num.Fin (5 # 2); Num.ofZ 12; Num.NaN; Num.NaN; Num.ofZ (-300);
   Num.Fin (1 # 2); Num.PosInf; Num.ofZ 1].
Proof. reflexivity. Qed.

Example string_to_number_ex :
  map string_to_number ["3"; " 7 "; ""; "12abc"; "0x1f"; "1.5"; "-Infinity"] =
  [Num.ofZ 3; Num.ofZ 7; Num.ofZ 0; Num.NaN; Num.ofZ 31; Num.Fin (3 # 2); Num.NegInf].
Proof. reflexivity. Qed.

Example number_to_string_ex :
  map number_to_string [Num.ofZ 200; Num.Fin (5 # 2); Num.Fin (-1 # 8); Num.NaN] =
  ["200"; "2.5"; "-0.125"; "NaN"].
Proof. reflexivity. Qed.

Example coercion_ex :
  (ToNumber (JArr [JStr "7"]), ToNumber (JArr []), ToNumber (JObj []),
   ToString (JArr [JInt 1; JNull; JStr "a"]), get (JStr "ab") "1",
   Object_keys (JArr [JNull; JNull])) =
  (Num.ofZ 7, Num.ofZ 0, Num.NaN, "1,,a", JStr "b", ["0"; "1"]).
Proof. reflexivity. Qed.

(** ** Arithmetic of the number model on integers *)

Lemma Qred_inject_Z (z : Z) : Qred (inject_Z z) = inject_Z z.
Proof.
  unfold Qred, inject_Z. simpl.
  pose proof (Z.ggcd_gcd z 1) as Hg.
  pose proof (Z.ggcd_correct_divisors z 1) as Hd.
  destruct (Z.ggcd z 1) as [g [aa bb]]. simpl in *.
  rewrite Z.gcd_1_r in Hg. subst g. destruct Hd as [Ha Hb].
  rewrite Z.mul_1_l in Ha, Hb. subst aa bb. reflexivity.
Qed.

Lemma Qred_integer (q : Q) (z : Z) : (q == inject_Z z)%Q -> Qred q = inject_Z z.
Proof.
  intros H. rewrite <- (Qred_inject_Z z). now apply Qred_complete.
Qed.

Lemma add_ofZ (a b : Z) : Num.add (Num.ofZ a) (Num.ofZ b) = Num.ofZ (a + b).
Proof.
  unfold Num.add, Num.ofZ. f_equal. apply Qred_integer.
  now rewrite inject_Z_plus.
Qed.

Lemma neg_ofZ (a : Z) : Num.neg (Num.ofZ a) = Num.ofZ (- a).
Proof.
  unfold Num.neg, Num.ofZ. f_equal. apply Qred_integer.
  now rewrite inject_Z_opp.
Qed.

Lemma sub_ofZ (a b : Z) : Num.sub (Num.ofZ a) (Num.ofZ b) = Num.ofZ (a - b).
Proof. unfold Num.sub. now rewrite neg_ofZ, add_ofZ. Qed.

Lemma div_ofZ_exact (k d : Z) :
  d <> 0 -> Num.div (Num.ofZ (k * d)) (Num.ofZ d) = Num.ofZ k.
Proof.
  intros Hd. unfold Num.div, Num.ofZ, Num.Qsign. simpl.
  destruct (Z.eqb_spec (Z.sgn d) 0) as [E | _].
  - apply -> Z.sgn_null_iff in E. contradiction.
  - f_equal. apply Qred_integer.
    rewrite inject_Z_mult. field.
    intros H0. apply Hd. now apply (inject_Z_injective d 0).
Qed.

Lemma floor_ofZ (a : Z) : Num.floor (Num.ofZ a) = Num.ofZ a.
Proof. unfold Num.floor, Num.ofZ. now rewrite Qfloor_Z. Qed.

Lemma ltb_ofZ (a b : Z) : Num.ltb (Num.ofZ a) (Num.ofZ b) = (a <? b).
Proof.
  unfold Num.ltb, Num.ofZ, Qle_bool. simpl.
  rewrite !Z.mul_1_r. now rewrite Z.ltb_antisym.
Qed.

Lemma leb_ofZ (a b : Z) : Num.leb (Num.ofZ a) (Num.ofZ b) = (a <=? b).
Proof.
  unfold Num.leb, Num.ofZ, Qle_bool. simpl. now rewrite !Z.mul_1_r.
Qed.

Lemma gtb_ofZ (a b : Z) : Num.gtb (Num.ofZ a) (Num.ofZ b) = (b <? a).
Proof. apply ltb_ofZ. Qed.

Lemma geb_ofZ (a b : Z) : Num.geb (Num.ofZ a) (Num.ofZ b) = (b <=? a).
Proof. apply leb_ofZ. Qed.

(** ** Own properties *)

Lemma own_set_eq (ps : Props) (k : string) (v : JsVal) :
  own (set ps k v) k = Some v.
Proof.
  induction ps as [| [k' v'] ps IH]; simpl.
  - now rewrite String.eqb_refl.
  - destruct (String.eqb_spec k' k) as [-> | Hne]; simpl.
    + now rewrite String.eqb_refl.
    + destruct (String.eqb_spec k' k); [contradiction | exact IH].
Qed.

Lemma own_set_ne (ps : Props) (k k' : string) (v : JsVal) :
  k <> k' -> own (set ps k v) k' = own ps k'.
Proof.
  intros Hne. induction ps as [| [k0 v0] ps IH]; simpl.
  - destruct (String.eqb_spec k k'); [contradiction | reflexivity].
  - destruct (String.eqb_spec k0 k) as [-> | Hk]; simpl.
    + destruct (String.eqb_spec k k'); [contradiction | reflexivity].
    + now rewrite IH.
Qed.

Lemma own_None_not_In (ps : Props) (k : string) :
  own ps k = None <-> ~ In k (map fst ps).
Proof.
  induction ps as [| [k' v'] ps IH]; simpl.
  - tauto.
  - destruct (String.eqb_spec k' k) as [-> | Hne].
    + split; [discriminate | tauto].
    + rewrite IH. tauto.
Qed.

Lemma get_set_eq (ps : Props) (k : string) (v : JsVal) :
  get (JObj (set ps k v)) k = v.
Proof. simpl. now rewrite own_set_eq. Qed.

Lemma get_set_ne (ps : Props) (k k' : string) (v : JsVal) :
  k <> k' -> get (JObj (set ps k v)) k' = get (JObj ps) k'.
Proof. intros H. simpl. now rewrite own_set_ne. Qed.

(** ** The totals aggregator *)

Lemma inherited_not_proto (k : string) : inherited k = false -> k <> "__proto__".
Proof. intros H ->. discriminate H. Qed.

Lemma own_put_eq (ps : Props) (k : string) (v : JsVal) :
  own (put ps k v) k =
  match own ps k with
  | None => if String.eqb k "__proto__" then None else Some v
  | Some _ => Some v
  end.
Proof.
  unfold put. destruct (own ps k) eqn:E.
  - apply own_set_eq.
  - destruct (String.eqb k "__proto__"); [exact E | apply own_set_eq].
Qed.

Lemma own_put_ne (ps : Props) (k k' : string) (v : JsVal) :
  k <> k' -> own (put ps k v) k' = own ps k'.
Proof.
  intros Hne. unfold put.
  destruct (own ps k); [now apply own_set_ne |].
  destruct (String.eqb k "__proto__"); [reflexivity | now apply own_set_ne].
Qed.

Lemma own_Object_assign (ps : Props) (k : string) :
  own (Object_assign ps) k = if String.eqb k "__proto__" then None else own ps k.
Proof.
  unfold Object_assign. induction ps as [| [k' v'] ps IH].
  - cbn. now destruct (String.eqb k "__proto__").
  - cbn [List.filter fst].
    destruct (String.eqb_spec k' "__proto__") as [-> | Hk']; cbn [negb own].
    + rewrite IH. destruct (String.eqb_spec k "__proto__") as [E | Hk]; [reflexivity |].
      destruct (String.eqb_spec "__proto__" k); [congruence | reflexivity].
    + rewrite IH. destruct (String.eqb_spec k' k) as [<- | Hne]; [| reflexivity].
      destruct (String.eqb_spec k' "__proto__"); [contradiction | reflexivity].
Qed.

Lemma Object_assign_without_proto (ps : Props) :
  own ps "__proto__" = None -> Object_assign ps = ps.
Proof.
  unfold Object_assign. induction ps as [| [k v] ps IH]; simpl; [reflexivity |].
  destruct (String.eqb_spec k "__proto__") as [-> | Hk]; [discriminate |].
  intros H. simpl. now rewrite (IH H).
Qed.

(** What the [forEach] body leaves under the key it visits. *)
Definition merged_value (add : JsVal) (prior : option JsVal) (k : string) : option JsVal :=
  let v := num_ (get add k) in
  if Num.isFinite v then
    match prior with
    | None =>
        if String.eqb k "__proto__" then None
        else Some (JNum (Num.add (or_zero (num_ JUndefined)) v))
    | Some old => Some (JNum (Num.add (or_zero (num_ old)) v))
    end
  else match prior with
       | Some old => Some old
       | None => if inherited k then None else Some (get add k)
       end.

Lemma sumTotals_key_same (add : JsVal) (out : Props) (k : string) :
  own (sumTotals_key add out k) k = merged_value add (own out k) k.
Proof.
  unfold sumTotals_key, merged_value, has. simpl.
  destruct (Num.isFinite (num_ (get add k))).
  - rewrite own_put_eq. now destruct (own out k).
  - destruct (own out k) eqn:E; simpl.
    + exact E.
    + destruct (inherited k); simpl; [exact E | now rewrite own_set_eq].
Qed.

Lemma sumTotals_key_other (add : JsVal) (out : Props) (k k' : string) :
  k <> k' -> own (sumTotals_key add out k) k' = own out k'.
Proof.
  intros Hne. unfold sumTotals_key.
  destruct (Num.isFinite _); [now apply own_put_ne |].
  destruct (negb _); [now apply own_set_ne | reflexivity].
Qed.

Lemma sumTotals_fold (add : JsVal) (keys : list string) :
  List.NoDup keys ->
  forall (agg : Props) (k : string),
    own (fold_left (sumTotals_key add) keys agg) k =
    if existsb (String.eqb k) keys then merged_value add (own agg k) k else own agg k.
Proof.
  induction 1 as [| k0 keys Hnotin Hnd IH]; intros agg k; simpl.
  - reflexivity.
  - rewrite IH. destruct (String.eqb_spec k k0) as [-> | Hne]; simpl.
    + assert (E : existsb (String.eqb k0) keys = false).
      { apply not_true_is_false. intros E. apply existsb_exists in E.
        destruct E as [x [Hin Hx]]. apply String.eqb_eq in Hx. now subst. }
      rewrite E. apply sumTotals_key_same.
    + rewrite sumTotals_key_other by congruence. reflexivity.
Qed.

(** The entry of a merge under a key of the merged object, and under any
    other key. *)
Lemma sumTotals_own (agg fs : Props) (k : string) :
  List.NoDup (map fst fs) ->
  own (sumTotals_ agg (JObj fs)) k =
  match own fs k with
  | Some _ => merged_value (JObj fs) (own (Object_assign agg) k) k
  | None => own (Object_assign agg) k
  end.
Proof.
  intros Hnd. unfold sumTotals_. simpl. rewrite sumTotals_fold by exact Hnd.
  destruct (own fs k) eqn:E.
  - assert (Hin : existsb (String.eqb k) (map fst fs) = true); [| now rewrite Hin].
    apply existsb_exists. exists k. split; [| apply String.eqb_refl].
    destruct (in_dec string_dec k (map fst fs)) as [Hi | Hi]; [exact Hi |].
    apply own_None_not_In in Hi. congruence.
  - assert (Hout : existsb (String.eqb k) (map fst fs) = false); [| now rewrite Hout].
    apply not_true_is_false. intros H. apply existsb_exists in H.
    destruct H as [x [Hi Hx]]. apply String.eqb_eq in Hx. subst x.
    apply own_None_not_In in E. contradiction.
Qed.

(** C4. The merge tests [k in out], which holds for a name that every
    object inherits as well as for a key of the accumulator.  A value that
    does not read as a number is therefore not carried through under such a
    name, although the key is not yet present: merging
    {currency: "USD", constructor: "USD"} into the empty accumulator gives
    {currency: "USD"}, and merging {toString: "n/a"} gives the empty
    accumulator again.  Under other names the value is carried when the
    key is new and dropped when it is not: {currency: "USD"} then
    {currency: "EUR"} gives {currency: "USD"}; and numbers add up, also
    under an inherited name, except under [__proto__], where the assignment
    of a number has no effect. *)
Theorem sumTotals_does_not_carry_inherited_names :
  sumTotals_ [] (JObj [("currency", JStr "USD"); ("constructor", JStr "USD")])
    = [("currency", JStr "USD")]
  /\ sumTotals_ [] (JObj [("toString", JStr "n/a")]) = []
  /\ own [] "constructor" = None
  /\ has [] "constructor" = true
  /\ sumTotals_ (sumTotals_ [] (JObj [("currency", JStr "USD")]))
       (JObj [("currency", JStr "EUR")])
     = [("currency", JStr "USD")]
  /\ sumTotals_ (sumTotals_ [] (JObj [("cost", JStr "10"); ("constructor", JStr "2")]))
       (JObj [("cost", JStr "5"); ("constructor", JStr "3")])
     = [("cost", JInt 15); ("constructor", JInt 5)]
  /\ sumTotals_ [] (JObj [("__proto__", JStr "5")]) = [].
Proof. repeat split. Qed.

(** ** The ROI recomputation *)

Lemma positive_is_not_zero (x : Num.t) :
  Num.gtb x Num.zero = true -> Num.eqb x Num.zero = false.
Proof.
  destruct x as [| | | q]; simpl; try reflexivity; try discriminate.
  intros H. apply negb_true_iff in H.
  destruct (Qeq_bool q (inject_Z 0)) eqn:E; [| reflexivity].
  apply Qeq_bool_iff in E.
  assert (Hle : Qle_bool q (inject_Z 0) = true).
  { apply Qle_bool_iff. rewrite E. apply Qle_refl. }
  congruence.
Qed.

(** The totals the recomputation leaves alone: a finite positive cost, a
    summed ROI, and no gross revenue. *)
Definition totals_without_revenue : Props :=
  [("cost", JInt 100); ("roi", JInt 3)].

(** C5, as stated, fails: with a finite positive summed cost and no finite
    gross revenue, the ROI is not [gross_revenue / cost] (here [NaN]); the
    summed value 3 is kept. *)
Lemma roi_kept_without_finite_revenue :
  Num.isFinite (num_ (get (JObj totals_without_revenue) "cost")) = true
  /\ Num.gtb (num_ (get (JObj totals_without_revenue) "cost")) Num.zero = true
  /\ get (JObj (recomputeRoi totals_without_revenue)) "roi" = JInt 3
  /\ get (JObj (recomputeRoi totals_without_revenue)) "roi" <>
       JNum (Num.div (num_ (get (JObj totals_without_revenue) "gross_revenue"))
                     (num_ (get (JObj totals_without_revenue) "cost"))).
Proof. repeat split; try reflexivity. discriminate. Qed.

(** C5, amended.  The ROI is recomputed only when the summed gross revenue
    is a finite number: it is then [gross_revenue / cost] when the summed
    cost is finite and positive, and [gross_revenue / net_cost] when the
    cost is zero or not finite while the net cost is finite and positive.
    When the gross revenue is not finite the totals are left as they are.
    Cost 100 and gross revenue 250 give 2.5; cost 0, net cost 50 and gross
    revenue 100 give 2. *)
Theorem roi_recomputed_from_finite_revenue (t : Props) :
  let cost := num_ (get (JObj t) "cost") in
  let gross := num_ (get (JObj t) "gross_revenue") in
  let netCost := num_ (get (JObj t) "net_cost") in
  (Num.isFinite gross = true -> Num.isFinite cost = true ->
   Num.gtb cost Num.zero = true ->
   get (JObj (recomputeRoi t)) "roi" = JNum (Num.div gross cost))
  /\ (Num.isFinite gross = true ->
      Num.isFinite cost = false \/ Num.eqb cost Num.zero = true ->
      Num.isFinite netCost = true -> Num.gtb netCost Num.zero = true ->
      get (JObj (recomputeRoi t)) "roi" = JNum (Num.div gross netCost))
  /\ (Num.isFinite gross = false -> recomputeRoi t = t)
  /\ get (JObj (recomputeRoi [("cost", JInt 100); ("gross_revenue", JInt 250)])) "roi"
     = JNum (Num.Fin (5 # 2))
  /\ get (JObj (recomputeRoi [("cost", JInt 0); ("net_cost", JInt 50);
                              ("gross_revenue", JInt 100)])) "roi"
     = JInt 2.
Proof.
  intros cost gross netCost. repeat split.
  - intros Hg Hc Hpos. unfold recomputeRoi. cbv zeta.
    fold cost gross. rewrite Hg, Hc, Hpos.
    rewrite (positive_is_not_zero cost Hpos). cbn [andb orb negb].
    apply get_set_eq.
  - intros Hg Hc Hn Hpos. unfold recomputeRoi.
    fold cost gross. rewrite Hg.
    assert (E : Num.isFinite cost && Num.gtb cost Num.zero = false).
    { destruct Hc as [Hc | Hc].
      - now rewrite Hc.
      - destruct (Num.gtb cost Num.zero) eqn:G.
        + apply positive_is_not_zero in G. congruence.
        + apply andb_false_r. }
    assert (E2 : negb (Num.isFinite cost) || Num.eqb cost Num.zero = true).
    { destruct Hc as [Hc | Hc]; rewrite Hc; [reflexivity | apply orb_true_r]. }
    cbv zeta. rewrite E, E2. cbn [andb]. fold netCost. rewrite Hn, Hpos.
    cbn [andb]. apply get_set_eq.
  - intros Hg. unfold recomputeRoi. cbv zeta. fold cost gross. rewrite Hg.
    now rewrite !andb_false_r.
Qed.

Lemma roi_recomputed_from_finite_revenue_witness :
  get (JObj (recomputeRoi [("cost", JStr "80"); ("gross_revenue", JInt 200)])) "roi"
  = JNum (Num.Fin (5 # 2)).
Proof.
  pose proof (roi_recomputed_from_finite_revenue
                [("cost", JStr "80"); ("gross_revenue", JInt 200)]) as H.
  simpl in H. destruct H as [H _].
  apply H; reflexivity.
Defined.

(** ** Row flattening *)

(** A field the response does not carry: the sub-object ([dimensions] or
    [metrics]) is missing or falsy, or it is an object without the key. *)
Definition absent (ips : Props) (sub key : string) : Prop :=
  match own ips sub with
  | None => True
  | Some (JObj ps) => own ps key = None
  | Some v => truthy v = false
  end.

(** A field the response carries with a falsy value. *)
Definition present_falsy (ips : Props) (sub key : string) : Prop :=
  exists ps v, own ips sub = Some (JObj ps) /\ own ps key = Some v /\ truthy v = false.

Lemma js_or_falsy (v d : JsVal) : truthy v = false -> js_or v d = d.
Proof. intros H. unfold js_or. now rewrite H. Qed.

Lemma absent_reads_undefined (ips : Props) (sub key : string) :
  absent ips sub key ->
  get (js_or (get (JObj ips) sub) (JObj [])) key = JUndefined.
Proof.
  unfold absent, js_or. simpl. destruct (own ips sub) as [v |]; simpl.
  - destruct v; cbn; intros H; try discriminate; try reflexivity;
      rewrite H; reflexivity.
  - reflexivity.
Qed.

Lemma present_falsy_reads_falsy (ips : Props) (sub key : string) :
  present_falsy ips sub key ->
  truthy (get (js_or (get (JObj ips) sub) (JObj [])) key) = false.
Proof.
  intros (ps & v & Hs & Hk & Hv). simpl. rewrite Hs. simpl. now rewrite Hk.
Qed.

Lemma flattenItem_object (lit : RowLiteral) (ent : Entity) (ips : Props) :
  flattenItem lit ent (JObj ips) =
  Ok (map (fun f => (fst f,
                     field_value ent (js_or (get (JObj ips) "dimensions") (JObj []))
                       (js_or (get (JObj ips) "metrics") (JObj [])) (snd f))) lit).
Proof. reflexivity. Qed.

Lemma own_row_field {A} (g : A -> JsVal) (lit : list (string * A)) (col : string) (src : A) :
  List.NoDup (map fst lit) -> In (col, src) lit ->
  own (map (fun f => (fst f, g (snd f))) lit) col = Some (g src).
Proof.
  induction lit as [| [c s] lit IH]; simpl; intros Hnd Hin; [contradiction |].
  inversion Hnd as [| ? ? Hnotin Hnd']; subst.
  destruct Hin as [E | Hin].
  - inversion E; subst. now rewrite String.eqb_refl.
  - destruct (String.eqb_spec c col) as [-> | Hne].
    + exfalso. apply Hnotin. apply in_map_iff. now exists (col, src).
    + now apply IH.
Qed.

Lemma get_row_field {A} (g : A -> JsVal) (lit : list (string * A)) (col : string) (src : A) :
  List.NoDup (map fst lit) -> In (col, src) lit ->
  get (JObj (map (fun f => (fst f, g (snd f))) lit)) col = g src.
Proof. intros Hnd Hin. simpl. now rewrite (own_row_field g lit col src Hnd Hin). Qed.

Lemma row_literals_have_distinct_fields (lit : RowLiteral) :
  In lit all_row_literals -> List.NoDup (map fst lit).
Proof.
  intros H. apply NoDup_ListNoDup.
  simpl in H.
  repeat (destruct H as [<- | H];
          [apply (bool_decide_unpack _); vm_compute; exact I |]).
  contradiction.
Qed.

(** The columns each report writes are the fields of its row literal. *)
Lemma declared_columns_are_row_fields :
  Forall (fun rp => rp_columns rp = map fst (rp_row rp)) single_query_reports
  /\ live_campaign_columns "stat_time_day" = map fst row_LiveCampaignDailySince.
Proof. split; [repeat constructor | reflexivity]. Qed.

Lemma field_value_not_nullish (ent : Entity) (d m : JsVal) (src : Source) :
  nullish (field_value ent d m src) = false.
Proof.
  destruct src; simpl; try reflexivity; unfold js_or.
  - destruct (truthy (get d key)) eqn:E; [| reflexivity].
    destruct (get d key); simpl in *; congruence.
  - destruct (truthy (get m key)) eqn:E; [| reflexivity].
    destruct (get m key); simpl in *; congruence.
Qed.

(** C7. For every row literal of the repository, every response item that
    is an object and every field of the literal (the declared output
    columns), the item flattens to a row whose value for that column is neither [null] nor
    [undefined]; the cell the sink writes for any header is neither; and a
    dimension or metric the response does not carry is the empty string in
    the row and in the cell written. *)
Theorem absent_field_is_empty_string
    (lit : RowLiteral) (ent : Entity) (ips : Props) (col : string) (src : Source) :
  In lit all_row_literals -> In (col, src) lit ->
  exists row,
    flattenItem lit ent (JObj ips) = Ok row
    /\ nullish (get (JObj row) col) = false
    /\ (forall h, nullish (js_coalesce (get (JObj row) h) (JStr "")) = false)
    /\ (forall key,
          (src = Dimension key /\ absent ips "dimensions" key)
          \/ (src = Metric key /\ absent ips "metrics" key) ->
          get (JObj row) col = JStr ""
          /\ js_coalesce (get (JObj row) col) (JStr "") = JStr "").
Proof.
  intros Hlit Hin. eexists. split; [apply flattenItem_object |].
  pose proof (row_literals_have_distinct_fields lit Hlit) as Hnd.
  assert (Hcol : forall g : Source -> JsVal,
             get (JObj (map (fun f => (fst f, g (snd f))) lit)) col = g src).
  { intros g. now apply get_row_field. }
  split; [| split].
  - rewrite Hcol. apply field_value_not_nullish.
  - intros h. unfold js_coalesce.
    destruct (nullish (get _ h)) eqn:E; [reflexivity | exact E].
  - intros key [[-> Habs] | [-> Habs]]; rewrite Hcol; cbn [field_value];
      rewrite (absent_reads_undefined _ _ _ Habs); split; reflexivity.
Qed.

Lemma absent_field_is_empty_string_witness :
  exists row,
    flattenItem row_ProductCampaignDaily (mkEntity "7064" "7493" "")
      (JObj [("dimensions", JObj [("campaign_id", JStr "c1")]);
             ("metrics", JObj [("cost", JStr "12.5")])]) = Ok row
    /\ get (JObj row) "orders" = JStr "".
Proof.
  destruct (absent_field_is_empty_string row_ProductCampaignDaily
              (mkEntity "7064" "7493" "")
              [("dimensions", JObj [("campaign_id", JStr "c1")]);
               ("metrics", JObj [("cost", JStr "12.5")])]
              "orders" (Metric "orders"))
    as (row & Hrow & _ & _ & Habsent).
  - simpl. tauto.
  - vm_compute. tauto.
  - exists row. split; [exact Hrow |].
    apply (Habsent "orders"). right. split; reflexivity.
Defined.

(** C9. In every row literal, a dimension or metric the response carries
    with a falsy value (0, the empty string, [false], [null]) is the empty
    string in the row, the very value an absent field gets: the two cases
    cannot be told apart in the output. *)
Theorem falsy_field_is_empty_string
    (lit : RowLiteral) (ent : Entity) (ips ips' : Props) (col key : string)
    (sub : string) (src : Source) :
  In lit all_row_literals -> In (col, src) lit ->
  (src = Dimension key /\ sub = "dimensions") \/ (src = Metric key /\ sub = "metrics") ->
  present_falsy ips sub key ->
  absent ips' sub key ->
  Forall (fun v => truthy v = false) [JInt 0; JStr ""; JBool false; JNull]
  /\ exists row row',
       flattenItem lit ent (JObj ips) = Ok row
       /\ flattenItem lit ent (JObj ips') = Ok row'
       /\ get (JObj row) col = JStr ""
       /\ get (JObj row') col = get (JObj row) col.
Proof.
  intros Hlit Hin Hsrc Hfalsy Habs.
  split; [repeat constructor |].
  pose proof (row_literals_have_distinct_fields lit Hlit) as Hnd.
  do 2 eexists. split; [apply flattenItem_object |].
  split; [apply flattenItem_object |].
  rewrite !(get_row_field _ lit col src Hnd Hin).
  apply present_falsy_reads_falsy in Hfalsy.
  apply absent_reads_undefined in Habs.
  destruct Hsrc as [[-> ->] | [-> ->]]; cbn [field_value];
    rewrite Habs, (js_or_falsy _ _ Hfalsy); split; reflexivity.
Qed.

Lemma falsy_field_is_empty_string_witness :
  exists row row',
    flattenItem row_LiveCampaignDailySince (mkEntity "a" "s" "")
      (JObj [("metrics", JObj [("orders", JInt 0)])]) = Ok row
    /\ flattenItem row_LiveCampaignDailySince (mkEntity "a" "s" "")
         (JObj [("metrics", JObj [])]) = Ok row'
    /\ get (JObj row) "orders" = JStr ""
    /\ get (JObj row') "orders" = get (JObj row) "orders".
Proof.
  refine (proj2 (falsy_field_is_empty_string row_LiveCampaignDailySince
                   (mkEntity "a" "s" "")
                   [("metrics", JObj [("orders", JInt 0)])]
                   [("metrics", JObj [])]
                   "orders" "orders" "metrics" (Metric "orders") _ _ _ _ _)).
  - simpl. tauto.
  - vm_compute. tauto.
  - right. split; reflexivity.
  - exists [("orders", JInt 0)], (JInt 0). repeat split; reflexivity.
  - reflexivity.
Defined.

(** ** Sheets *)

(** The contents of the sheet [name]; a sheet that does not exist yet has
    none. *)
Definition sheet_of (w : World) (name : string) : Sheet :=
  default [] (sheets w !! name).

Definition with_sheet (w : World) (name : string) (sh : Sheet) : World :=
  mkWorld (requests w) (<[name := sh]> (sheets w)).

(** A sheet whose last row has content. *)
Definition tidy (sh : Sheet) : Prop := getLastRow sh = length sh.

Ltac run_step :=
  unfold bind, ret, raise, lift, get_locals, modify_locals, putSheet,
    clearContents, getOrInsertSheet; cbn [fst snd sheets requests].

Lemma overwrite_cells_nil (b : list JsVal) : overwrite_cells b [] = b.
Proof. unfold overwrite_cells. rewrite drop_nil. apply app_nil_r. Qed.

Lemma overwrite_block_nil (block : list (list JsVal)) : overwrite_block block [] = block.
Proof.
  induction block as [| b block IH]; simpl; [reflexivity |].
  now rewrite overwrite_cells_nil, IH.
Qed.

Lemma overwrite_rows_append (sh : Sheet) (vals : list JsVal) :
  overwrite_rows (S (length sh)) [vals] sh = sh ++ [vals].
Proof.
  induction sh as [| r sh IH]; simpl.
  - now rewrite overwrite_cells_nil.
  - destruct sh as [| r' sh']; simpl in *.
    + now rewrite overwrite_cells_nil.
    + now rewrite IH.
Qed.

Lemma getLastRow_append (sh : Sheet) (vals : list JsVal) :
  blank_row vals = false -> getLastRow (sh ++ [vals]) = S (length sh).
Proof.
  intros Hb. induction sh as [| r sh IH]; simpl.
  - now rewrite Hb.
  - now rewrite IH.
Qed.

Lemma tidy_empty (sh : Sheet) : tidy sh -> getLastRow sh = O -> sh = [].
Proof.
  unfold tidy. intros Ht H0. rewrite H0 in Ht. now destruct sh.
Qed.

Lemma setValues_run {L} (name : string) (row : nat) (values : list (list JsVal))
    (numColumns : nat) (w : World) (l : L) :
  values <> [] -> numColumns <> O ->
  Forall (fun r => length r = numColumns) values ->
  setValues name row (length values) numColumns values (w, l) =
  (Return tt, (with_sheet w name (overwrite_rows row values (sheet_of w name)), l)).
Proof.
  intros Hv Hc Hall. unfold setValues.
  destruct (Nat.eqb_spec (length values) 0) as [E | _].
  { destruct values; [contradiction | discriminate]. }
  destruct (Nat.eqb_spec numColumns 0) as [E | _]; [contradiction |].
  rewrite Nat.eqb_refl. cbn [negb].
  assert (Hf : forallb (fun r => Nat.eqb (length r) numColumns) values = true).
  { apply forallb_forall. intros r Hr. apply Nat.eqb_eq.
    rewrite List.Forall_forall in Hall. now apply Hall. }
  rewrite Hf. cbn [negb]. run_step. unfold with_sheet, sheet_of.
  destruct (sheets w !! name) as [sh |] eqn:E; cbn [fst snd sheets requests default].
  - reflexivity.
  - now rewrite insert_insert_eq.
Qed.

(** The cells [writeRowsToSheet_] writes for the rows. *)
Definition data_cells (cell : Props -> string -> JsVal) (rows : list Props)
    (cols : list string) : list (list JsVal) :=
  map (fun r => map (cell r) cols) rows.

Definition single_cell (r : Props) (h : string) : JsVal :=
  js_coalesce (get (JObj r) h) (JStr "").

Definition batch_cell (r : Props) (c : string) : JsVal :=
  match get (JObj r) c with
  | JUndefined => JStr ""
  | v => v
  end.

Lemma with_sheet_twice (w : World) (name : string) (a b : Sheet) :
  with_sheet (with_sheet w name a) name b = with_sheet w name b.
Proof. unfold with_sheet. simpl. now rewrite insert_insert_eq. Qed.

Lemma sheet_of_with_sheet (w : World) (name : string) (a : Sheet) :
  sheet_of (with_sheet w name a) name = a.
Proof. unfold sheet_of, with_sheet. simpl. now rewrite lookup_insert_eq. Qed.

Lemma getOrInsertSheet_then_put {L A} (name : string) (sh : Sheet)
    (k : M L A) (w : World) (l : L) :
  (getOrInsertSheet name;; putSheet name sh;; k) (w, l) = k (with_sheet w name sh, l).
Proof.
  run_step. unfold with_sheet.
  destruct (sheets w !! name); cbn [fst snd sheets requests]; [reflexivity |].
  now rewrite insert_insert_eq.
Qed.

Lemma data_cells_shape (cell : Props -> string -> JsVal) (rows : list Props)
    (cols : list string) :
  Forall (fun r => length r = length cols) (data_cells cell rows cols).
Proof.
  unfold data_cells. apply List.Forall_forall. intros r Hr.
  apply in_map_iff in Hr. destruct Hr as [x [<- _]]. apply length_map.
Qed.

Lemma writeRowsToSheet_run {L} (name : string) (rows : list Props)
    (cols : list string) (w : World) (l : L) :
  cols <> [] ->
  writeRowsToSheet_ name rows cols (w, l) =
  (Return tt,
   (with_sheet w name (map JStr cols :: data_cells single_cell rows cols), l)).
Proof.
  intros Hc. unfold writeRowsToSheet_. unfold clearContents.
  rewrite getOrInsertSheet_then_put.
  assert (Hlen : length cols <> O) by (destruct cols; [contradiction | discriminate]).
  unfold bind at 1.
  rewrite (setValues_run sheetName 1 [map JStr cols] (length cols))
    || rewrite (setValues_run name 1 [map JStr cols] (length cols));
    try (discriminate || assumption).
  2: { constructor; [apply length_map | constructor]. }
  rewrite sheet_of_with_sheet, with_sheet_twice. cbn [overwrite_rows overwrite_block hd tl].
  rewrite overwrite_cells_nil.
  destruct rows as [| r rows].
  - reflexivity.
  - cbn [data_cells map length Nat.eqb negb].
    change (setValues name 2 (length (data_cells single_cell (r :: rows) cols))
              (length cols) (data_cells single_cell (r :: rows) cols)
              (with_sheet w name [map JStr cols], l) =
            (Return tt, (with_sheet w name
               (map JStr cols :: data_cells single_cell (r :: rows) cols), l))).
    rewrite setValues_run; try assumption.
    + rewrite sheet_of_with_sheet, with_sheet_twice.
      cbn [overwrite_rows hd tl]. now rewrite overwrite_block_nil.
    + discriminate.
    + apply data_cells_shape.
Qed.

Lemma writeRowsToSheet_no_columns {L} (name : string) (rows : list Props)
    (w : World) (l : L) :
  writeRowsToSheet_ name rows [] (w, l) =
  (Raise (Error "The number of columns in the range must be at least 1."),
   (with_sheet w name [], l)).
Proof.
  unfold writeRowsToSheet_, clearContents.
  rewrite getOrInsertSheet_then_put. reflexivity.
Qed.

Lemma batch_writeRowsToSheet_no_columns {L} (name : string) (rows : list Props)
    (w : World) (l : L) :
  Batch.writeRowsToSheet_ name rows [] (w, l) =
  (Raise (Error "The number of columns in the range must be at least 1."),
   (with_sheet w name [], l)).
Proof.
  unfold Batch.writeRowsToSheet_, clearContents.
  rewrite getOrInsertSheet_then_put. reflexivity.
Qed.

Lemma batch_writeRowsToSheet_run {L} (name : string) (rows : list Props)
    (cols : list string) (w : World) (l : L) :
  cols <> [] ->
  Batch.writeRowsToSheet_ name rows cols (w, l) =
  (Return tt,
   (with_sheet w name (map JStr cols :: data_cells batch_cell rows cols), l)).
Proof.
  intros Hc. unfold Batch.writeRowsToSheet_, clearContents.
  rewrite getOrInsertSheet_then_put.
  assert (Hlen : length cols <> O) by (destruct cols; [contradiction | discriminate]).
  unfold bind at 1.
  rewrite (setValues_run name 1 [map JStr cols] (length cols));
    try (discriminate || assumption).
  2: { constructor; [apply length_map | constructor]. }
  rewrite sheet_of_with_sheet, with_sheet_twice. cbn [overwrite_rows overwrite_block hd tl].
  rewrite overwrite_cells_nil.
  destruct rows as [| r rows].
  - reflexivity.
  - cbn [length Nat.eqb].
    change (setValues name 2 (length (data_cells batch_cell (r :: rows) cols))
              (length cols) (data_cells batch_cell (r :: rows) cols)
              (with_sheet w name [map JStr cols], l) =
            (Return tt, (with_sheet w name
               (map JStr cols :: data_cells batch_cell (r :: rows) cols), l))).
    rewrite setValues_run; try assumption.
    + rewrite sheet_of_with_sheet, with_sheet_twice.
      cbn [overwrite_rows hd tl]. now rewrite overwrite_block_nil.
    + discriminate.
    + apply data_cells_shape.
Qed.

(** The error log *)

Definition error_log_header : list JsVal :=
  map JStr ["ts"; "advertiser_id"; "store_id"; "window"; "message"].

(** The row [logErrorRow_] appends for [obj]. *)
Definition error_log_row (obj : Props) : list JsVal :=
  map (fun k => js_or (get (JObj obj) k) (JStr ""))
    ["ts"; "advertiser_id"; "store_id"; "window"; "message"].

(** The log after one more row: the header comes first on first use. *)
Definition log_appended (sh : Sheet) (row : list JsVal) : Sheet :=
  (if Nat.eqb (getLastRow sh) 0 then [error_log_header] else sh) ++ [row].

Definition touch (w : World) (name : string) : World :=
  match sheets w !! name with
  | Some _ => w
  | None => with_sheet w name []
  end.

Lemma getOrInsertSheet_run {L} (name : string) (w : World) (l : L) :
  getOrInsertSheet name (w, l) = (Return (sheet_of w name), (touch w name, l)).
Proof.
  unfold getOrInsertSheet, touch, sheet_of, with_sheet. cbn [fst snd].
  now destruct (sheets w !! name).
Qed.

Lemma sheet_of_touch (w : World) (name : string) :
  sheet_of (touch w name) name = sheet_of w name.
Proof.
  unfold touch, sheet_of. destruct (sheets w !! name) eqn:E.
  - now rewrite E.
  - unfold with_sheet. simpl. now rewrite lookup_insert_eq.
Qed.

Lemma with_sheet_touch (w : World) (name : string) (sh : Sheet) :
  with_sheet (touch w name) name sh = with_sheet w name sh.
Proof.
  unfold touch. destruct (sheets w !! name); [reflexivity |].
  apply with_sheet_twice.
Qed.

Lemma appendRow_run {L} (name : string) (vals : list JsVal) (w : World) (l : L) :
  tidy (sheet_of w name) ->
  appendRow name vals (w, l) =
  (Return tt, (with_sheet w name (sheet_of w name ++ [vals]), l)).
Proof.
  intros Ht. unfold appendRow, bind. rewrite getOrInsertSheet_run.
  unfold putSheet. cbn [fst snd]. rewrite Ht, overwrite_rows_append.
  fold (with_sheet (touch w name) name (sheet_of w name ++ [vals])).
  now rewrite with_sheet_touch.
Qed.

Lemma logErrorRow_run {L} (name : string) (obj : Props) (w : World) (l : L) :
  tidy (sheet_of w name) ->
  Batch.logErrorRow_ name obj (w, l) =
  (Return tt,
   (with_sheet w name (log_appended (sheet_of w name) (error_log_row obj)), l)).
Proof.
  intros Ht. unfold Batch.logErrorRow_, bind at 1.
  rewrite getOrInsertSheet_run. unfold log_appended.
  destruct (Nat.eqb_spec (getLastRow (sheet_of w name)) 0) as [E0 | Hne].
  - pose proof (tidy_empty _ Ht E0) as Hnil.
    unfold bind.
    rewrite (setValues_run name 1 [error_log_header] 5); try discriminate.
    2: { repeat constructor. }
    rewrite sheet_of_touch, Hnil, with_sheet_touch.
    cbn [overwrite_rows overwrite_block hd tl]. rewrite overwrite_cells_nil.
    rewrite appendRow_run.
    + now rewrite sheet_of_with_sheet, with_sheet_twice.
    + rewrite sheet_of_with_sheet. reflexivity.
  - unfold bind, ret. rewrite appendRow_run.
    + now rewrite sheet_of_touch, with_sheet_touch.
    + now rewrite sheet_of_touch.
Qed.

Lemma log_appended_tidy (sh : Sheet) (row : list JsVal) :
  blank_row row = false ->
  tidy (log_appended sh row) /\ getLastRow (log_appended sh row) <> O.
Proof.
  intros Hb. unfold tidy, log_appended.
  rewrite getLastRow_append by exact Hb.
  rewrite length_app. simpl. split; lia.
Qed.

(** C8. Writing the same rows to the same destination twice leaves what
    one write leaves, outcome and state alike, for the sink of the
    single-query reports and for the sink of the batch report; with at
    least one column, a write replaces the sheet by the header row followed
    by one row of cells per row.  The error log is the exception: on a
    sheet whose last row has content, each call appends one row, after the
    header row when the sheet was empty, so that two calls leave the row
    twice. *)
Theorem sink_overwrites_and_error_log_appends {L}
    (name : string) (rows : list Props) (cols : list string) (obj : Props)
    (w : World) (l : L) :
  (let once := writeRowsToSheet_ name rows cols (w, l) in
   writeRowsToSheet_ name rows cols (snd once) = once)
  /\ (let once := Batch.writeRowsToSheet_ name rows cols (w, l) in
      Batch.writeRowsToSheet_ name rows cols (snd once) = once)
  /\ (cols <> [] ->
      writeRowsToSheet_ name rows cols (w, l) =
        (Return tt,
         (with_sheet w name (map JStr cols :: data_cells single_cell rows cols), l))
      /\ Batch.writeRowsToSheet_ name rows cols (w, l) =
           (Return tt,
            (with_sheet w name (map JStr cols :: data_cells batch_cell rows cols), l)))
  /\ (tidy (sheet_of w name) -> blank_row (error_log_row obj) = false ->
      let row := error_log_row obj in
      let before := sheet_of w name in
      let first := if Nat.eqb (getLastRow before) 0 then [error_log_header] else before in
      Batch.logErrorRow_ name obj (w, l) =
        (Return tt, (with_sheet w name (first ++ [row]), l))
      /\ (Batch.logErrorRow_ name obj;; Batch.logErrorRow_ name obj) (w, l) =
           (Return tt, (with_sheet w name (first ++ [row; row]), l))).
Proof.
  repeat split.
  - destruct cols as [| c cols].
    + rewrite !writeRowsToSheet_no_columns. cbn [snd].
      now rewrite writeRowsToSheet_no_columns, with_sheet_twice.
    + rewrite !writeRowsToSheet_run by discriminate. cbn [snd].
      now rewrite writeRowsToSheet_run, with_sheet_twice by discriminate.
  - destruct cols as [| c cols].
    + rewrite !batch_writeRowsToSheet_no_columns. cbn [snd].
      now rewrite batch_writeRowsToSheet_no_columns, with_sheet_twice.
    + rewrite !batch_writeRowsToSheet_run by discriminate. cbn [snd].
      now rewrite batch_writeRowsToSheet_run, with_sheet_twice by discriminate.
  - now apply writeRowsToSheet_run.
  - now apply batch_writeRowsToSheet_run.
  - now apply logErrorRow_run.
  - rename H into Ht. rename H0 into Hb.
    unfold bind. rewrite (logErrorRow_run name obj w l Ht).
    fold (log_appended (sheet_of w name) (error_log_row obj)).
    destruct (log_appended_tidy (sheet_of w name) (error_log_row obj) Hb) as [Ht' Hne].
    rewrite logErrorRow_run by (now rewrite sheet_of_with_sheet).
    rewrite sheet_of_with_sheet, with_sheet_twice.
    unfold log_appended at 1.
    destruct (Nat.eqb_spec (getLastRow (log_appended (sheet_of w name) (error_log_row obj))) 0);
      [contradiction |].
    unfold log_appended. now rewrite <- app_assoc.
Qed.

Lemma sink_overwrites_and_error_log_appends_witness :
  let w := mkWorld [] (<["GMVMax_Errors" := [[JStr "old"]]]> ∅) in
  let obj := [("ts", JStr "2025-06-02 10:00:00"); ("message", JStr "HTTP 500")] in
  writeRowsToSheet_ "Data" [[("a", JInt 1)]; [("b", JNull)]] ["a"; "b"] (w, tt) =
    (Return tt,
     (with_sheet w "Data"
        [[JStr "a"; JStr "b"]; [JInt 1; JStr ""]; [JStr ""; JStr ""]], tt))
  /\ (Batch.logErrorRow_ "GMVMax_Errors" obj;; Batch.logErrorRow_ "GMVMax_Errors" obj) (w, tt) =
       (Return tt,
        (with_sheet w "GMVMax_Errors"
           [[JStr "old"]; error_log_row obj; error_log_row obj], tt)).
Proof.
  intros w obj.
  destruct (sink_overwrites_and_error_log_appends "Data"
              [[("a", JInt 1)]; [("b", JNull)]] ["a"; "b"] obj w tt)
    as (_ & _ & Hwrite & _).
  destruct (sink_overwrites_and_error_log_appends "GMVMax_Errors"
              [] [] obj w tt)
    as (_ & _ & _ & Hlog).
  split.
  - apply Hwrite. discriminate.
  - apply Hlog; reflexivity.
Defined.

(** ** Reading dates *)

Lemma fixed_digits_app (n : nat) (s suffix : string) (acc v : Z) (r : string) :
  fixed_digits n s acc = Some (v, r) ->
  fixed_digits n (s ++ suffix)%string acc = Some (v, (r ++ suffix)%string).
Proof.
  revert s acc. induction n as [| n IH]; intros s acc; simpl.
  - intros H. now inversion H.
  - destruct s as [| c s]; [discriminate |]. simpl.
    destruct (is_digit c); [apply IH | discriminate].
Qed.

Lemma strip_dash_app (r tail : string) :
  strip_prefix "-" (r ++ String "T" tail)%string =
  match strip_prefix "-" r with
  | Some r' => Some (r' ++ String "T" tail)%string
  | None => None
  end.
Proof.
  destruct r as [| c r]; [reflexivity |].
  change (String c r ++ String "T" tail)%string
    with (String c (r ++ String "T" tail)%string).
  cbn [strip_prefix].
  destruct (Ascii.eqb "-" c); reflexivity.
Qed.

(** An ISO date followed by a time part reads as that date and the time
    part. *)
Lemma scan_iso_date_app (s tail : string) (n : Z) :
  iso_day s = Some n ->
  scan_iso_date (s ++ String "T" tail)%string = Some (n, String "T" tail).
Proof.
  unfold iso_day, scan_iso_date.
  destruct (fixed_digits 4 s 0) as [[y r1] |] eqn:E1; [| discriminate].
  rewrite (fixed_digits_app _ _ _ _ _ _ E1), strip_dash_app.
  destruct (strip_prefix "-" r1) as [r1' |].
  - destruct (fixed_digits 2 r1' 0) as [[m r2] |] eqn:E2; [| discriminate].
    rewrite (fixed_digits_app _ _ _ _ _ _ E2).
    destruct ((1 <=? m) && (m <=? 12)); [| discriminate].
    rewrite strip_dash_app.
    destruct (strip_prefix "-" r2) as [r2' |].
    + destruct (fixed_digits 2 r2' 0) as [[d r3] |] eqn:E3; [| discriminate].
      rewrite (fixed_digits_app _ _ _ _ _ _ E3).
      destruct ((1 <=? d) && (d <=? 31)); [| discriminate].
      destruct r3; [| discriminate]. intros H. now inversion H.
    + destruct r2; [| discriminate]. intros H. now inversion H.
  - destruct r1; [| discriminate]. intros H. now inversion H.
Qed.

Lemma Date_parse_utc (zone : Zone) (s : string) (n : Z) :
  iso_day s = Some n ->
  Date_parse zone (s ++ "T00:00:00Z")%string = Num.ofZ (n * msDay).
Proof.
  intros H. unfold Date_parse. now rewrite (scan_iso_date_app s "00:00:00Z" n H).
Qed.

Lemma Date_parse_local (zone : Zone) (s : string) (n : Z) :
  iso_day s = Some n ->
  Date_parse zone (s ++ "T00:00:00")%string
  = Num.ofZ (n * msDay - local_offset zone (n * msDay)).
Proof.
  intros H. unfold Date_parse. now rewrite (scan_iso_date_app s "00:00:00" n H).
Qed.

Lemma dailyRangeDays_of_dates (s e : string) (a b : Z) :
  iso_day s = Some a -> iso_day e = Some b ->
  dailyRangeDays s e = Num.ofZ (b - a + 1).
Proof.
  intros Ha Hb. unfold dailyRangeDays.
  rewrite (Date_parse_utc UTC s a Ha), (Date_parse_utc UTC e b Hb).
  rewrite sub_ofZ.
  replace (b * msDay - a * msDay) with ((b - a) * msDay) by lia.
  rewrite div_ofZ_exact by (unfold msDay; lia).
  now rewrite floor_ofZ, add_ofZ.
Qed.

Lemma validateDailyRange_throws_iff (s e : string) :
  (exists err, validateDailyRange_ s e = Throw err)
  <-> Num.gtb (dailyRangeDays s e) (Num.ofZ 30) = true.
Proof.
  unfold validateDailyRange_.
  destruct (Num.gtb (dailyRangeDays s e) (Num.ofZ 30)); split.
  - reflexivity.
  - intros _. eexists. reflexivity.
  - intros [err H]. discriminate.
  - discriminate.
Qed.

(** ** What a computation leaves unchanged *)

Section Preservation.

Context {L : Type} (R : relation (World * L)) `{!PreOrder R}.

(** [c] takes every state to one related to it by [R], whatever its
    outcome. *)
Definition preserves {A} (c : M L A) : Prop := forall s, R s (snd (c s)).

Lemma preserves_ret {A} (a : A) : preserves (ret a).
Proof. intros s. reflexivity. Qed.

Lemma preserves_raise {A} (e : JsError) : preserves (@raise L A e).
Proof. intros s. reflexivity. Qed.

Lemma preserves_diverge {A} : preserves (@diverge L A).
Proof. intros s. reflexivity. Qed.

Lemma preserves_lift {A} (r : Result A) : preserves (lift r).
Proof. destruct r; [apply preserves_ret | apply preserves_raise]. Qed.

Lemma preserves_get_locals : preserves (@get_locals L).
Proof. intros s. reflexivity. Qed.

Lemma preserves_bind {A B} (c : M L A) (k : A -> M L B) :
  preserves c -> (forall a, preserves (k a)) -> preserves (bind c k).
Proof.
  intros Hc Hk s. unfold bind. specialize (Hc s).
  destruct (c s) as [[a | e |] s']; cbn [snd] in *; try exact Hc.
  etransitivity; [exact Hc | apply Hk].
Qed.

Lemma preserves_try_catch {A} (body : M L A) (handler : JsError -> M L A) :
  preserves body -> (forall e, preserves (handler e)) ->
  preserves (try_catch body handler).
Proof.
  intros Hb Hh s. unfold try_catch. specialize (Hb s).
  destruct (body s) as [[a | e |] s']; cbn [snd] in *; try exact Hb.
  etransitivity; [exact Hb | apply Hh].
Qed.

Lemma preserves_forEach {A} (xs : list A) (body : A -> M L unit) :
  (forall x, preserves (body x)) -> preserves (forEach xs body).
Proof.
  intros Hb. induction xs as [| x xs IH]; simpl.
  - apply preserves_ret.
  - apply preserves_bind; [apply Hb | intros _; exact IH].
Qed.

End Preservation.

(** The relations of interest between a state and a later one. *)
Definition same_world {L} : relation (World * L) := fun s s' => fst s' = fst s.
Definition same_sheets {L} : relation (World * L) :=
  fun s s' => sheets (fst s') = sheets (fst s).
Definition same_requests {L} : relation (World * L) :=
  fun s s' => requests (fst s') = requests (fst s).
Definition more_requests {L} : relation (World * L) :=
  fun s s' => exists more, requests (fst s') = requests (fst s) ++ more.

#[local] Instance same_world_preorder {L} : PreOrder (@same_world L).
Proof. split; unfold same_world; [intros s | intros a b c]; congruence. Qed.

#[local] Instance same_sheets_preorder {L} : PreOrder (@same_sheets L).
Proof. split; unfold same_sheets; [intros s | intros a b c]; congruence. Qed.

#[local] Instance same_requests_preorder {L} : PreOrder (@same_requests L).
Proof. split; unfold same_requests; [intros s | intros a b c]; congruence. Qed.

#[local] Instance more_requests_preorder {L} : PreOrder (@more_requests L).
Proof.
  split; unfold more_requests.
  - intros s. exists []. now rewrite app_nil_r.
  - intros a b c [m1 H1] [m2 H2]. exists (m1 ++ m2).
    now rewrite H2, H1, app_assoc.
Qed.

Lemma same_world_modify_locals {L} (f : L -> L) : preserves same_world (modify_locals f).
Proof. intros s. reflexivity. Qed.

Lemma same_world_sheets {L A} (c : M L A) :
  preserves same_world c -> preserves same_sheets c.
Proof. intros H s. unfold same_sheets. now rewrite (H s). Qed.

Lemma same_world_requests {L A} (c : M L A) :
  preserves same_world c -> preserves same_requests c.
Proof. intros H s. unfold same_requests. now rewrite (H s). Qed.

Lemma same_requests_more {L A} (c : M L A) :
  preserves same_requests c -> preserves more_requests c.
Proof. intros H s. exists []. rewrite app_nil_r. apply H. Qed.

Lemma fetch_same_sheets {L} (P : Platform) (req : Request) :
  preserves same_sheets (@UrlFetchApp_fetch P L req).
Proof.
  intros s. unfold UrlFetchApp_fetch, same_sheets.
  now destruct (server P (requests (fst s)) req).
Qed.

Lemma fetch_more_requests {L} (P : Platform) (req : Request) :
  preserves more_requests (@UrlFetchApp_fetch P L req).
Proof.
  intros s. unfold UrlFetchApp_fetch. exists [req].
  now destruct (server P (requests (fst s)) req).
Qed.

(** Solves [preserves R c] for code built from the monad's operations,
    given lemmas for its leaves in the hint database [preserve]. *)
Create HintDb preserve.

Ltac preserve :=
  repeat first
    [ match goal with |- PreOrder _ => typeclasses eauto end
    | apply preserves_ret
    | apply preserves_raise
    | apply preserves_diverge
    | apply preserves_lift
    | apply preserves_get_locals
    | apply same_world_modify_locals
    | solve [auto with preserve]
    | apply preserves_bind; [typeclasses eauto | | intros ?]
    | apply preserves_forEach; [typeclasses eauto | intros ?]
    | apply preserves_try_catch; [typeclasses eauto | | intros ?]
    | match goal with
      | |- preserves _ (if ?b then _ else _) => destruct b
      | |- preserves _ (match ?x with _ => _ end) => destruct x
      end ].

Lemma processPage_same_world (rp : Report) (cfg : Config) (l : Locals)
    (res : HttpResponse) :
  preserves same_world (processPage rp cfg l res).
Proof. unfold processPage. preserve. Qed.

Lemma batch_processPage_same_world (p : Batch.Pair) (l : Batch.Locals)
    (res : HttpResponse) :
  preserves same_world (Batch.processPage p l res).
Proof. unfold Batch.processPage. preserve. Qed.

#[local] Hint Resolve fetch_same_sheets fetch_more_requests
  processPage_same_world batch_processPage_same_world : preserve.
#[local] Hint Resolve same_world_sheets same_world_requests same_requests_more : preserve.

(** ** The pagination loop *)

(** The row a response item with own properties [ips] flattens to. *)
Definition row_of (lit : RowLiteral) (ent : Entity) (ips : Props) : Props :=
  map (fun f => (fst f,
                 field_value ent (js_or (get (JObj ips) "dimensions") (JObj []))
                   (js_or (get (JObj ips) "metrics") (JObj [])) (snd f))) lit.

(** A successful response for one page: status 200, envelope code 0, the
    records [items], [total_page] equal to [N], and [totals] as its
    [total_metrics] ([undefined] when there is none). *)
Definition page_response (N : Z) (items : list Props) (totals : JsVal)
    (res : HttpResponse) : Prop :=
  getResponseCode res = 200
  /\ exists bps dps pps,
       parsedContent res = Ok (JObj bps)
       /\ own bps "code" = Some (JInt 0)
       /\ own bps "data" = Some (JObj dps)
       /\ own dps "list" = Some (JArr (map JObj items))
       /\ own dps "page_info" = Some (JObj pps)
       /\ own pps "total_page" = Some (JInt N)
       /\ get (JObj bps) "total_metrics" = totals.

(** The page numbers [p], [p + 1], ..., [n] of them. *)
Fixpoint pages (p : Z) (n : nat) : list Z :=
  match n with
  | O => []
  | S n' => p :: pages (p + 1) n'
  end.

(** [totalMetrics] after a page whose [total_metrics] is [totals]. *)
Definition captured (cfg : Config) (totals cur : JsVal) : JsVal :=
  if enable_total_metrics cfg && truthy totals && negb (truthy cur)
  then totals else cur.

(** [totalsAgg] after a page whose [total_metrics] is [totals]. *)
Definition merged (totals : JsVal) (agg : Props) : Props :=
  if truthy totals then sumTotals_ agg totals else agg.

Lemma truthy_JInt (z : Z) : z <> 0 -> truthy (JInt z) = true.
Proof.
  intros H. simpl. unfold Num.Qsign. simpl.
  destruct (Z.eqb_spec (Z.sgn z) 0) as [E | _]; [| reflexivity].
  apply -> Z.sgn_null_iff in E. contradiction.
Qed.

Lemma forEach_push_rows (lit : RowLiteral) (ent : Entity) (items : list Props)
    (w : World) (l : Locals) :
  forEach (map JObj items)
    (fun item => let* row := lift (flattenItem lit ent item) in
                 modify_locals (push_row row)) (w, l)
  = (Return tt,
     (w, mkLocals (page l) (allRows l ++ map (row_of lit ent) items) (totalMetrics l))).
Proof.
  revert l. induction items as [| ips items IH]; intros l.
  - simpl. unfold ret. rewrite app_nil_r. now destruct l.
  - cbn [map forEach]. unfold bind at 1. rewrite flattenItem_object.
    cbn [lift]. unfold bind at 1, ret at 1. unfold modify_locals at 1.
    cbn [fst snd]. rewrite IH. unfold push_row. cbn [page allRows totalMetrics].
    now rewrite <- app_assoc.
Qed.

Lemma batch_forEach_push_rows (ent : Entity) (items : list Props)
    (w : World) (l : Batch.Locals) :
  forEach (map JObj items)
    (fun item =>
       let* row := lift (flattenItem row_LiveCampaignDailySince ent item) in
       modify_locals (Batch.push_row row)) (w, l)
  = (Return tt,
     (w, Batch.mkLocals (Batch.page l)
           (Batch.allRows l ++ map (row_of row_LiveCampaignDailySince ent) items)
           (Batch.totalsAgg l))).
Proof.
  revert l. induction items as [| ips items IH]; intros l.
  - simpl. unfold ret. rewrite app_nil_r. now destruct l.
  - cbn [map forEach]. unfold bind at 1. rewrite flattenItem_object.
    cbn [lift]. unfold bind at 1, ret at 1. unfold modify_locals at 1.
    cbn [fst snd]. rewrite IH. unfold Batch.push_row.
    cbn [Batch.page Batch.allRows Batch.totalsAgg].
    now rewrite <- app_assoc.
Qed.

Lemma get_own (ps : Props) (k : string) (v : JsVal) :
  own ps k = Some v -> get (JObj ps) k = v.
Proof. intros H. simpl. now rewrite H. Qed.

Lemma js_or_truthy (v d : JsVal) : truthy v = true -> js_or v d = v.
Proof. intros H. unfold js_or. now rewrite H. Qed.

Lemma processPage_page (rp : Report) (cfg : Config) (l : Locals) (res : HttpResponse)
    (N : Z) (items : list Props) (totals : JsVal) (w : World) :
  1 <= N -> page_response N items totals res ->
  processPage rp cfg l res (w, l) =
  (Return (N <=? page l),
   (w, mkLocals (page l)
         (allRows l ++ map (row_of (rp_row rp) (cfg_entity cfg)) items)
         (captured cfg totals (totalMetrics l)))).
Proof.
  intros HN (Hcode & bps & dps & pps & Hp & Hc & Hd & Hl & Hpi & Htp & Htot).
  apply get_own in Hc, Hd, Hl, Hpi, Htp.
  unfold processPage. rewrite Hcode, Hp. cbn [Z.eqb Pos.eqb negb lift].
  unfold bind at 1, ret at 1. cbn [member lift].
  unfold bind at 1, ret at 1. rewrite Hc.
  change (strict_neq_zero (JInt 0)) with false. cbv iota.
  rewrite Hd, (js_or_truthy (JObj dps)) by reflexivity.
  rewrite Hl, (js_or_truthy (JArr _)) by reflexivity.
  rewrite Hpi, (js_or_truthy (JObj pps)) by reflexivity.
  rewrite Htp, (js_or_truthy (JInt N)) by (apply truthy_JInt; lia).
  cbn [ToNumber JInt forEach_items lift]. rewrite geb_ofZ, Htot.
  unfold captured.
  destruct (enable_total_metrics cfg && truthy totals && negb (truthy (totalMetrics l))).
  - unfold bind at 1. unfold modify_locals at 1. cbn [fst snd].
    unfold bind at 1, ret at 1. unfold bind at 1.
    rewrite forEach_push_rows. reflexivity.
  - unfold bind at 1, ret at 1. unfold bind at 1, ret at 1. unfold bind at 1.
    rewrite forEach_push_rows. destruct l; reflexivity.
Qed.

Lemma batch_processPage_page (p : Batch.Pair) (l : Batch.Locals) (res : HttpResponse)
    (N : Z) (items : list Props) (totals : JsVal) (w : World) :
  1 <= N -> page_response N items totals res ->
  Batch.processPage p l res (w, l) =
  (Return (N <=? Batch.page l),
   (w, Batch.mkLocals (Batch.page l)
         (Batch.allRows l
            ++ map (row_of row_LiveCampaignDailySince (Batch.entity p)) items)
         (merged totals (Batch.totalsAgg l)))).
Proof.
  intros HN (Hcode & bps & dps & pps & Hp & Hc & Hd & Hl & Hpi & Htp & Htot).
  apply get_own in Hc, Hd, Hl, Hpi, Htp.
  unfold Batch.processPage. rewrite Hcode, Hp. cbn [Z.eqb Pos.eqb negb lift].
  unfold bind at 1, ret at 1. cbn [member lift].
  unfold bind at 1, ret at 1. rewrite Hc.
  change (strict_neq_zero (JInt 0)) with false. cbv iota.
  rewrite Hd, (js_or_truthy (JObj dps)) by reflexivity.
  rewrite Hl, (js_or_truthy (JArr _)) by reflexivity.
  rewrite Hpi, (js_or_truthy (JObj pps)) by reflexivity.
  rewrite Htp, (js_or_truthy (JInt N)) by (apply truthy_JInt; lia).
  cbn [ToNumber JInt forEach_items lift]. rewrite geb_ofZ, Htot.
  unfold merged.
  destruct (truthy totals).
  - unfold bind at 1. unfold modify_locals at 1. cbn [fst snd].
    unfold bind at 1, ret at 1. unfold bind at 1.
    rewrite batch_forEach_push_rows. reflexivity.
  - unfold bind at 1, ret at 1. unfold bind at 1, ret at 1. unfold bind at 1.
    rewrite batch_forEach_push_rows. destruct l; reflexivity.
Qed.

(** The world once [req] is issued. *)
Definition issued (w : World) (reqs : list Request) : World :=
  mkWorld (requests w ++ reqs) (sheets w).

Lemma issued_app (w : World) (a b : list Request) :
  issued (issued w a) b = issued w (a ++ b).
Proof. unfold issued. simpl. now rewrite app_assoc. Qed.

Lemma fetchPage_run (P : Platform) (rp : Report) (cfg : Config) (token : string)
    (w : World) (l : Locals) :
  fetchPage P rp cfg token (w, l) =
  match server P (requests w) (page_request rp cfg token (page l)) with
  | Ok res =>
      processPage rp cfg l res (issued w [page_request rp cfg token (page l)], l)
  | Throw e => (Raise e, (issued w [page_request rp cfg token (page l)], l))
  end.
Proof.
  unfold fetchPage, bind, get_locals, UrlFetchApp_fetch. cbn [fst snd].
  now destruct (server P (requests w) _).
Qed.

Lemma batch_fetchPage_run (P : Platform) (wd : string * string) (p : Batch.Pair)
    (token : string) (w : World) (l : Batch.Locals) :
  Batch.fetchPage P wd p token (w, l) =
  match server P (requests w) (Batch.page_request wd p token (Batch.page l)) with
  | Ok res =>
      Batch.processPage p l res
        (issued w [Batch.page_request wd p token (Batch.page l)], l)
  | Throw e =>
      (Raise e, (issued w [Batch.page_request wd p token (Batch.page l)], l))
  end.
Proof.
  unfold Batch.fetchPage, bind, get_locals, UrlFetchApp_fetch. cbn [fst snd].
  now destruct (server P (requests w) _).
Qed.

Section GoodPages.

Context (P : Platform) (N : Z) (items : Z -> list Props) (totals : Z -> JsVal).
Context (request : Z -> Request).

(** Every request for a page up to [N] is answered by a successful
    response for that page, whatever was requested before. *)
Definition serves_pages : Prop :=
  forall hist p, 1 <= p <= N ->
    exists res, server P hist (request p) = Ok res
                /\ page_response N (items p) (totals p) res.

End GoodPages.

Lemma fetchAllPages_pages (P : Platform) (rp : Report) (cfg : Config) (token : string)
    (N : Z) (items : Z -> list Props) (totals : Z -> JsVal) :
  serves_pages P N items totals (page_request rp cfg token) ->
  forall (k fuel : nat) (w : World) (l : Locals),
    1 <= page l -> page l + Z.of_nat k = N -> (k < fuel)%nat ->
    fetchAllPages P rp cfg fuel token (w, l) =
    (Return tt,
     (issued w (map (page_request rp cfg token) (pages (page l) (S k))),
      mkLocals N
        (allRows l
           ++ concat (map (fun p => map (row_of (rp_row rp) (cfg_entity cfg)) (items p))
                        (pages (page l) (S k))))
        (fold_left (fun cur p => captured cfg (totals p) cur)
           (pages (page l) (S k)) (totalMetrics l)))).
Proof.
  intros Hserve. induction k as [| k IH]; intros fuel w l Hp HN Hfuel;
    (destruct fuel as [| fuel]; [lia |]); cbn [fetchAllPages];
    unfold bind at 1; rewrite fetchPage_run;
    destruct (Hserve (requests w) (page l) ltac:(lia)) as (res & -> & Hres);
    rewrite (processPage_page rp cfg l res N _ _ _ ltac:(lia) Hres).
  - replace (N <=? page l) with true by (symmetry; apply Z.leb_le; lia).
    unfold ret. cbn [pages map concat fold_left].
    rewrite app_nil_r. repeat f_equal. lia.
  - replace (N <=? page l) with false by (symmetry; apply Z.leb_gt; lia).
    unfold bind at 1. unfold modify_locals at 1. cbn [fst snd].
    rewrite IH; unfold next_page; cbn [page allRows totalMetrics]; try lia.
    rewrite issued_app. cbn [pages map concat fold_left].
    now rewrite <- app_assoc.
Qed.

Lemma batch_fetchAllPages_pages (P : Platform) (wd : string * string)
    (p : Batch.Pair) (token : string)
    (N : Z) (items : Z -> list Props) (totals : Z -> JsVal) :
  serves_pages P N items totals (Batch.page_request wd p token) ->
  forall (k fuel : nat) (w : World) (l : Batch.Locals),
    1 <= Batch.page l -> Batch.page l + Z.of_nat k = N -> (k < fuel)%nat ->
    Batch.fetchAllPages P fuel wd p token (w, l) =
    (Return tt,
     (issued w (map (Batch.page_request wd p token) (pages (Batch.page l) (S k))),
      Batch.mkLocals N
        (Batch.allRows l
           ++ concat (map (fun q => map (row_of row_LiveCampaignDailySince
                                           (Batch.entity p)) (items q))
                        (pages (Batch.page l) (S k))))
        (fold_left (fun agg q => merged (totals q) agg)
           (pages (Batch.page l) (S k)) (Batch.totalsAgg l)))).
Proof.
  intros Hserve. induction k as [| k IH]; intros fuel w l Hp HN Hfuel;
    (destruct fuel as [| fuel]; [lia |]); cbn [Batch.fetchAllPages];
    unfold bind at 1; rewrite batch_fetchPage_run;
    destruct (Hserve (requests w) (Batch.page l) ltac:(lia)) as (res & -> & Hres);
    rewrite (batch_processPage_page p l res N _ _ _ ltac:(lia) Hres).
  - replace (N <=? Batch.page l) with true by (symmetry; apply Z.leb_le; lia).
    unfold ret. cbn [pages map concat fold_left].
    rewrite app_nil_r. repeat f_equal. lia.
  - replace (N <=? Batch.page l) with false by (symmetry; apply Z.leb_gt; lia).
    unfold bind at 1. unfold modify_locals at 1. cbn [fst snd].
    rewrite IH; unfold Batch.next_page;
      cbn [Batch.page Batch.allRows Batch.totalsAgg]; try lia.
    rewrite issued_app. cbn [pages map concat fold_left].
    now rewrite <- app_assoc.
Qed.

(** *** A sample server *)

Definition sample_item (id : string) (cost : Z) : Props :=
  [("dimensions", JObj [("campaign_id", JStr id); ("stat_time_day", JStr "2025-06-01")]);
   ("metrics", JObj [("campaign_name", JStr ("Campaign " ++ id)); ("cost", JInt cost)])].

(** Two records per page. *)
Definition sample_items (p : Z) : list Props :=
  [sample_item ("c" ++ Z_to_string p ++ "a") p;
   sample_item ("c" ++ Z_to_string p ++ "b") (10 * p)].

Definition sample_body (N : Z) (totals : JsVal) (p : Z) : JsVal :=
  JObj [("code", JInt 0);
        ("message", JStr "OK");
        ("data",
         JObj [("list", JArr (map JObj (sample_items p)));
               ("page_info", JObj [("page", JInt p); ("total_page", JInt N)])]);
        ("total_metrics", totals)].

(** The page a request asks for. *)
Definition requested_page (req : Request) : Z :=
  match own (req_params req) "page" with
  | Some (JNum (Num.Fin q)) => Qfloor q
  | _ => 0
  end.

(** A server with [N] pages for every query, each page with the same
    [total_metrics]. *)
Definition paged_server (N : Z) (totals : JsVal) (hist : list Request)
    (req : Request) : Result HttpResponse :=
  Ok (mkResponse 200 "{...}" (Ok (sample_body N totals (requested_page req)))).

Definition sample_properties (key : string) : option string :=
  if String.eqb key "TT_ACCESS_TOKEN" then Some "secret" else None.

Definition seven_hours : Z := 7 * 60 * 60 * 1000.

(** A platform in the Jakarta time zone, on 2025-06-01 at 10:00 local time. *)
Definition sample_platform (N : Z) (totals : JsVal) : Platform :=
  mkPlatform (paged_server N totals) sample_properties
    (fun _ => days_from_civil 2025 6 1 * msDay + 3 * 60 * 60 * 1000)
    (fixed_zone seven_hours) (fun _ => fixed_zone seven_hours).

Definition sample_config : Config :=
  mkConfig (mkEntity "7064472113809195009" "7493999781643847575" "")
    "2025-06-01" "2025-06-30" JUndefined true [] [] [].

Definition empty_world : World := mkWorld [] ∅.

Lemma sample_serves_pages (N : Z) (totals : JsVal) (request : Z -> Request) :
  (forall p, requested_page (request p) = p) ->
  serves_pages (sample_platform N totals) N sample_items (fun _ => totals) request.
Proof.
  intros Hreq hist p Hp. eexists. split; [reflexivity |].
  rewrite Hreq. split; [reflexivity |].
  do 3 eexists. repeat split; reflexivity.
Qed.

Lemma requested_page_single (rp : Report) (cfg : Config) (token : string) (p : Z) :
  requested_page (page_request rp cfg token p) = p.
Proof. unfold requested_page. simpl. apply Qfloor_Z. Qed.

Lemma requested_page_batch (wd : string * string) (pr : Batch.Pair) (token : string) (p : Z) :
  requested_page (Batch.page_request wd pr token p) = p.
Proof. unfold requested_page. simpl. apply Qfloor_Z. Qed.

Lemma length_pages (p : Z) (n : nat) : length (pages p n) = n.
Proof. revert p. induction n as [| n IH]; intros p; simpl; [| rewrite IH]; reflexivity. Qed.

(** C3. When every request for a page is answered by a successful response
    reporting the same [total_page] N >= 1, a turn of the loop ends it
    exactly when [page >= total_page]; the loop, started at page 1 with at
    least N turns of fuel, returns after exactly N requests, for the pages
    1..N in order, and [allRows] has grown by the rows of the pages in page
    order.  This holds for the loop of the single-query reports and for the
    loop of the batch report. *)
Theorem pagination_fetches_pages_in_order
    (P : Platform) (N : Z) (items : Z -> list Props) (totals : Z -> JsVal)
    (fuel : nat) (w : World) :
  1 <= N -> (Z.to_nat N <= fuel)%nat ->
  (forall rp cfg token l,
     serves_pages P N items totals (page_request rp cfg token) ->
     (forall res p, page_response N (items p) (totals p) res ->
        fst (processPage rp cfg l res (w, l)) = Return (N <=? page l))
     /\ (page l = 1 ->
         exists tm,
           fetchAllPages P rp cfg fuel token (w, l) =
           (Return tt,
            (issued w (map (page_request rp cfg token) (pages 1 (Z.to_nat N))),
             mkLocals N
               (allRows l
                  ++ concat (map (fun p => map (row_of (rp_row rp) (cfg_entity cfg))
                                             (items p))
                               (pages 1 (Z.to_nat N))))
               tm))))
  /\ (forall wd pr token l,
        serves_pages P N items totals (Batch.page_request wd pr token) ->
        (forall res p, page_response N (items p) (totals p) res ->
           fst (Batch.processPage pr l res (w, l)) = Return (N <=? Batch.page l))
        /\ (Batch.page l = 1 ->
            exists agg,
              Batch.fetchAllPages P fuel wd pr token (w, l) =
              (Return tt,
               (issued w (map (Batch.page_request wd pr token) (pages 1 (Z.to_nat N))),
                Batch.mkLocals N
                  (Batch.allRows l
                     ++ concat (map (fun p => map (row_of row_LiveCampaignDailySince
                                                     (Batch.entity pr)) (items p))
                                  (pages 1 (Z.to_nat N))))
                  agg))))
  /\ length (pages 1 (Z.to_nat N)) = Z.to_nat N
  /\ pages 1 3 = [1; 2; 3].
Proof.
  intros HN Hfuel.
  assert (HS : S (Z.to_nat (N - 1)) = Z.to_nat N) by lia.
  split; [| split; [| split]].
  - intros rp cfg token l Hserve. split.
    + intros res p Hres. now rewrite (processPage_page rp cfg l res N _ _ w HN Hres).
    + intros Hl. eexists.
      rewrite (fetchAllPages_pages P rp cfg token N items totals Hserve
                 (Z.to_nat (N - 1)) fuel w l) by lia.
      rewrite Hl, HS. reflexivity.
  - intros wd pr token l Hserve. split.
    + intros res p Hres.
      now rewrite (batch_processPage_page pr l res N _ _ w HN Hres).
    + intros Hl. eexists.
      rewrite (batch_fetchAllPages_pages P wd pr token N items totals Hserve
                 (Z.to_nat (N - 1)) fuel w l) by lia.
      rewrite Hl, HS. reflexivity.
  - apply length_pages.
  - reflexivity.
Qed.

(** Three pages of two rows each: three requests, six rows. *)
Lemma pagination_fetches_pages_in_order_witness :
  exists l',
    fetchAllPages (sample_platform 3 JNull) ProductCampaignDaily sample_config 3
      "secret" (empty_world, mkLocals 1 [] JNull)
    = (Return tt,
       (issued empty_world
          (map (page_request ProductCampaignDaily sample_config "secret") [1; 2; 3]),
        l'))
    /\ length (allRows l') = 6%nat
    /\ map (fun r => get (JObj r) "campaign_id") (allRows l') =
       map JStr ["c1a"; "c1b"; "c2a"; "c2b"; "c3a"; "c3b"].
Proof.
  destruct (pagination_fetches_pages_in_order (sample_platform 3 JNull) 3
              sample_items (fun _ => JNull) 3 empty_world ltac:(lia) ltac:(lia))
    as (Hsingle & _).
  destruct (Hsingle ProductCampaignDaily sample_config "secret" (mkLocals 1 [] JNull))
    as (_ & Hloop).
  - apply sample_serves_pages. intros p. apply requested_page_single.
  - destruct (Hloop eq_refl) as (tm & Hrun).
    eexists. split; [exact Hrun |]. split; reflexivity.
Defined.

(** ** Totals during pagination *)

Lemma captured_keeps_truthy (cfg : Config) (totals cur : JsVal) :
  truthy cur = true -> captured cfg totals cur = cur.
Proof. intros H. unfold captured. rewrite H. now rewrite andb_false_r. Qed.

Lemma fold_captured_keeps_truthy (cfg : Config) (totals : Z -> JsVal) (ps : list Z)
    (cur : JsVal) :
  truthy cur = true ->
  fold_left (fun cur p => captured cfg (totals p) cur) ps cur = cur.
Proof.
  intros H. induction ps as [| p ps IH]; simpl; [reflexivity |].
  now rewrite captured_keeps_truthy.
Qed.

(** In the single-query reports the first totals object wins: once the
    pages [before] have brought none, the totals of the page [p0] are what
    [totalMetrics] holds after any further pages. *)
Lemma single_query_first_totals_win (cfg : Config) (totals : Z -> JsVal)
    (before after : list Z) (p0 : Z) (cur : JsVal) :
  enable_total_metrics cfg = true -> truthy cur = false ->
  Forall (fun p => truthy (totals p) = false) before ->
  truthy (totals p0) = true ->
  fold_left (fun cur p => captured cfg (totals p) cur) (before ++ p0 :: after) cur
  = totals p0.
Proof.
  intros Hen Hcur Hbefore Hp0. rewrite fold_left_app. simpl.
  assert (E : fold_left (fun cur p => captured cfg (totals p) cur) before cur = cur).
  { clear Hp0. induction Hbefore as [| p ps Hp _ IH]; simpl; [reflexivity |].
    unfold captured at 2. rewrite Hp, andb_false_r. exact IH. }
  rewrite E. unfold captured at 2. rewrite Hen, Hp0, Hcur. simpl.
  now apply fold_captured_keeps_truthy.
Qed.

(** The totals every page of the sample two-page query carries. *)
Definition ten_of_cost : JsVal := JObj [("cost", JStr "10")].

(** C1 at the failing input: a query of two pages, each response carrying
    the totals {cost: "10"} of the whole query.  The single-query loop keeps
    the first object and ignores the second; the batch loop merges the
    totals of both pages, and its accumulated cost is 20. *)
Theorem batch_merges_totals_of_every_page :
  (exists w' l',
     fetchAllPages (sample_platform 2 ten_of_cost) ProductCampaignDaily
       sample_config 2 "secret" (empty_world, mkLocals 1 [] JNull)
     = (Return tt, (w', l'))
     /\ length (requests w') = 2%nat
     /\ totalMetrics l' = ten_of_cost)
  /\ (exists w' l',
        Batch.fetchAllPages (sample_platform 2 ten_of_cost) 2
          ("2025-06-01", "2025-06-30") ("A", "S") "secret"
          (empty_world, Batch.mkLocals 1 [] [])
        = (Return tt, (w', l'))
        /\ length (requests w') = 2%nat
        /\ Batch.totalsAgg l' = [("cost", JInt 20)]
        /\ Batch.totalsAgg l' <> sumTotals_ [] ten_of_cost).
Proof.
  split.
  - do 2 eexists. split; [vm_compute; reflexivity |]. split; reflexivity.
  - do 2 eexists. split; [vm_compute; reflexivity |].
    split; [reflexivity |]. split; [reflexivity | discriminate].
Qed.

(** ** Requests and sheets along a run *)

Lemma getOrInsertSheet_same_requests {L} (name : string) :
  preserves same_requests (@getOrInsertSheet L name).
Proof.
  intros s. unfold getOrInsertSheet, same_requests.
  now destruct (sheets (fst s) !! name).
Qed.

Lemma putSheet_same_requests {L} (name : string) (sh : Sheet) :
  preserves same_requests (@putSheet L name sh).
Proof. intros s. reflexivity. Qed.

Lemma modify_locals_same_sheets {L} (f : L -> L) :
  preserves same_sheets (modify_locals f).
Proof. intros s. reflexivity. Qed.

Lemma modify_locals_same_requests {L} (f : L -> L) :
  preserves same_requests (modify_locals f).
Proof. intros s. reflexivity. Qed.

Lemma modify_locals_more_requests {L} (f : L -> L) :
  preserves more_requests (modify_locals f).
Proof. intros s. exists []. now rewrite app_nil_r. Qed.

#[local] Hint Resolve getOrInsertSheet_same_requests putSheet_same_requests
  modify_locals_same_sheets modify_locals_same_requests modify_locals_more_requests
  : preserve.

Lemma setValues_same_requests {L} (name : string) (row numRows numColumns : nat)
    (values : list (list JsVal)) :
  preserves same_requests (@setValues L name row numRows numColumns values).
Proof. unfold setValues. preserve. Qed.

#[local] Hint Resolve setValues_same_requests : preserve.

Lemma writeRowsToSheet_same_requests {L} (name : string) (rows : list Props)
    (cols : list string) :
  preserves same_requests (@writeRowsToSheet_ L name rows cols).
Proof. unfold writeRowsToSheet_, clearContents. preserve. Qed.

Lemma writeTotalsSheet_same_requests {L} (name : string) (totals : JsVal) :
  preserves same_requests (@writeTotalsSheet_ L name totals).
Proof. unfold writeTotalsSheet_, clearContents. preserve. Qed.

#[local] Hint Resolve writeRowsToSheet_same_requests writeTotalsSheet_same_requests
  : preserve.

Lemma fetchPage_more_requests (P : Platform) (rp : Report) (cfg : Config)
    (token : string) :
  preserves more_requests (fetchPage P rp cfg token).
Proof. unfold fetchPage. preserve. Qed.

Lemma fetchPage_same_sheets (P : Platform) (rp : Report) (cfg : Config)
    (token : string) :
  preserves same_sheets (fetchPage P rp cfg token).
Proof. unfold fetchPage. preserve. Qed.

#[local] Hint Resolve fetchPage_more_requests fetchPage_same_sheets : preserve.

Lemma fetchAllPages_more_requests (P : Platform) (rp : Report) (cfg : Config)
    (token : string) (fuel : nat) :
  preserves more_requests (fetchAllPages P rp cfg fuel token).
Proof. induction fuel as [| fuel IH]; cbn [fetchAllPages]; preserve. Qed.

Lemma fetchAllPages_same_sheets (P : Platform) (rp : Report) (cfg : Config)
    (token : string) (fuel : nat) :
  preserves same_sheets (fetchAllPages P rp cfg fuel token).
Proof. induction fuel as [| fuel IH]; cbn [fetchAllPages]; preserve. Qed.

(** Whatever follows a computation starts from the state it left. *)
Lemma after_bind {L A B} (R : relation (World * L)) `{!PreOrder R}
    (c : M L A) (k : A -> M L B) (s : World * L) :
  (forall a, preserves R (k a)) -> R (snd (c s)) (snd (bind c k s)).
Proof.
  intros Hk. unfold bind. destruct (c s) as [[a | e |] s']; cbn [snd]; try reflexivity.
  apply Hk.
Qed.

(** The first turn of the loop issues the request for the current page,
    whatever happens next. *)
Lemma fetchAllPages_first_request (P : Platform) (rp : Report) (cfg : Config)
    (token : string) (fuel : nat) (w : World) (l : Locals) :
  exists more,
    requests (fst (snd (fetchAllPages P rp cfg (S fuel) token (w, l)))) =
    requests w ++ page_request rp cfg token (page l) :: more.
Proof.
  cbn [fetchAllPages].
  pose proof (after_bind more_requests (fetchPage P rp cfg token)
                (fun stop : bool =>
                   if stop then ret tt
                   else modify_locals next_page;; fetchAllPages P rp cfg fuel token)
                (w, l)) as [more Hmore].
  { intros stop. destruct stop; preserve. apply fetchAllPages_more_requests. }
  rewrite Hmore. rewrite fetchPage_run.
  destruct (server P (requests w) _) as [res | err].
  - rewrite (processPage_same_world rp cfg l res _). cbn [fst requests issued].
    exists more. now rewrite <- app_assoc.
  - cbn [fst snd requests issued]. exists more. now rewrite <- app_assoc.
Qed.

Lemma getAccessToken_run {L} (P : Platform) (token : string) (s : World * L) :
  scriptProperties P "TT_ACCESS_TOKEN" = Some token -> token <> ""%string ->
  getAccessToken_ P s = (Return token, s).
Proof.
  intros Hp Hne. unfold getAccessToken_, getProperty, bind, ret. rewrite Hp.
  cbn [truthy]. destruct (String.eqb_spec token ""); [contradiction | reflexivity].
Qed.

(** A report whose validation passes and whose token is set issues the
    request for page 1. *)
Lemma runReport_first_request (P : Platform) (rp : Report) (cfg : Config)
    (token : string) (fuel : nat) (st : World * Locals) :
  rp_validate rp cfg = Ok tt ->
  scriptProperties P "TT_ACCESS_TOKEN" = Some token -> token <> ""%string ->
  exists more,
    requests (fst (snd (runReport P rp cfg (S fuel) st))) =
    requests (fst st) ++ page_request rp cfg token 1 :: more.
Proof.
  intros Hv Hp Hne. unfold runReport. rewrite Hv. cbn [lift].
  unfold bind at 1, ret at 1. unfold bind at 1.
  rewrite (getAccessToken_run P token st Hp Hne).
  unfold bind at 1. unfold modify_locals at 1. cbn [fst snd].
  match goal with
  | |- context [bind (fetchAllPages P rp cfg (S fuel) token) ?k ?s] =>
      pose proof (after_bind more_requests (fetchAllPages P rp cfg (S fuel) token) k s)
        as [more Hmore]
  end.
  { intros _. preserve. }
  destruct (fetchAllPages_first_request P rp cfg token fuel (fst st) (mkLocals 1 [] JNull))
    as [more1 H1].
  rewrite Hmore, H1. cbn [page]. exists (more1 ++ more).
  now rewrite <- app_assoc.
Qed.

(** C10. The daily-range validation throws exactly when the day count it
    computes, floor((end - start) / day) + 1, exceeds 30.  For two calendar
    dates that count is the inclusive number of days from start to end; with
    the start after the end it is zero or negative, no error is raised, and
    the two daily reports that validate their range, given an access token,
    go on to issue the request for page 1 with the inverted range. *)
Theorem daily_range_validation_accepts_inverted_range (s e : string) :
  ((exists err, validateDailyRange_ s e = Throw err)
   <-> Num.gtb (dailyRangeDays s e) (Num.ofZ 30) = true)
  /\ forall a b, iso_day s = Some a -> iso_day e = Some b ->
       dailyRangeDays s e = Num.ofZ (b - a + 1)
       /\ ((exists err, validateDailyRange_ s e = Throw err) <-> 30 < b - a + 1)
       /\ (b < a ->
           b - a + 1 <= 0
           /\ validateDailyRange_ s e = Ok tt
           /\ forall P rp cfg token fuel st,
                In rp [ProductCampaignDaily; ProductProductDaily] ->
                start_date cfg = s -> end_date cfg = e ->
                scriptProperties P "TT_ACCESS_TOKEN" = Some token ->
                token <> ""%string ->
                exists more,
                  requests (fst (snd (runReport P rp cfg (S fuel) st))) =
                    requests (fst st) ++ page_request rp cfg token 1 :: more
                  /\ own (req_params (page_request rp cfg token 1)) "start_date"
                     = Some (JStr s)
                  /\ own (req_params (page_request rp cfg token 1)) "end_date"
                     = Some (JStr e)).
Proof.
  split; [apply validateDailyRange_throws_iff |].
  intros a b Ha Hb.
  pose proof (dailyRangeDays_of_dates s e a b Ha Hb) as Hdays.
  assert (Hiff : (exists err, validateDailyRange_ s e = Throw err) <-> 30 < b - a + 1).
  { rewrite validateDailyRange_throws_iff, Hdays, gtb_ofZ. apply Z.ltb_lt. }
  split; [exact Hdays | split; [exact Hiff |]].
  intros Hlt.
  assert (Hok : validateDailyRange_ s e = Ok tt).
  { unfold validateDailyRange_. rewrite Hdays, gtb_ofZ.
    now replace (30 <? b - a + 1) with false by (symmetry; apply Z.ltb_ge; lia). }
  split; [lia | split; [exact Hok |]].
  intros P rp cfg token fuel st Hrp Hs He Hp Hne.
  assert (Hv : rp_validate rp cfg = Ok tt).
  { destruct Hrp as [<- | [<- | []]]; cbn [rp_validate ProductCampaignDaily
      ProductProductDaily]; unfold validate_daily; now rewrite Hs, He. }
  destruct (runReport_first_request P rp cfg token fuel st Hv Hp Hne) as [more Hmore].
  exists more. split; [exact Hmore |].
  unfold page_request. cbn [req_params]. unfold request_params.
  split; cbn; now rewrite ?Hs, ?He.
Qed.

Lemma daily_range_validation_accepts_inverted_range_witness :
  validateDailyRange_ "2025-07-01" "2025-06-01" = Ok tt
  /\ exists more,
       requests (fst (snd (runProductGmvMaxCampaignDaily (sample_platform 1 JNull)
                             (mkConfig (mkEntity "1" "2" "") "2025-07-01" "2025-06-01"
                                JUndefined false [] [] [])
                             1 (empty_world, mkLocals 0 [] JNull)))) =
       page_request ProductCampaignDaily
         (mkConfig (mkEntity "1" "2" "") "2025-07-01" "2025-06-01"
            JUndefined false [] [] []) "secret" 1 :: more.
Proof.
  destruct (daily_range_validation_accepts_inverted_range "2025-07-01" "2025-06-01")
    as [_ H].
  destruct (H (days_from_civil 2025 7 1) (days_from_civil 2025 6 1) eq_refl eq_refl)
    as (_ & _ & Hinv).
  destruct (Hinv ltac:(vm_compute; reflexivity)) as (_ & Hok & Hrun).
  split; [exact Hok |].
  destruct (Hrun (sample_platform 1 JNull) ProductCampaignDaily
              (mkConfig (mkEntity "1" "2" "") "2025-07-01" "2025-06-01"
                 JUndefined false [] [] [])
              "secret" O (empty_world, mkLocals 0 [] JNull))
    as (more & Hmore & _).
  - simpl. tauto.
  - reflexivity.
  - reflexivity.
  - reflexivity.
  - discriminate.
  - exists more. exact Hmore.
Defined.

(** ** The batch driver *)

(** The rows gathered so far are kept. *)
Definition rows_grow : relation (World * Batch.Locals) :=
  fun s s' => exists more, Batch.allRows (snd s') = Batch.allRows (snd s) ++ more.

#[local] Instance rows_grow_preorder : PreOrder rows_grow.
Proof.
  split; unfold rows_grow.
  - intros s. exists []. now rewrite app_nil_r.
  - intros a b c [m1 H1] [m2 H2]. exists (m1 ++ m2).
    now rewrite H2, H1, app_assoc.
Qed.

Lemma fetch_rows_grow (P : Platform) (req : Request) :
  preserves rows_grow (UrlFetchApp_fetch P req).
Proof.
  intros s. unfold UrlFetchApp_fetch. exists []. rewrite app_nil_r.
  now destruct (server P (requests (fst s)) req).
Qed.

Lemma push_row_rows_grow (row : Props) :
  preserves rows_grow (modify_locals (Batch.push_row row)).
Proof. intros s. now exists [row]. Qed.

Lemma keep_rows_rows_grow (f : Batch.Locals -> Batch.Locals) :
  (forall l, Batch.allRows (f l) = Batch.allRows l) ->
  preserves rows_grow (modify_locals f).
Proof. intros H s. exists []. rewrite app_nil_r. simpl. apply H. Qed.

#[local] Hint Resolve fetch_rows_grow push_row_rows_grow : preserve.
#[local] Hint Extern 1 (preserves rows_grow (modify_locals _)) =>
  apply keep_rows_rows_grow; intros; reflexivity : preserve.

Lemma batch_fetchPage_same_sheets (P : Platform) (wd : string * string)
    (p : Batch.Pair) (token : string) :
  preserves same_sheets (Batch.fetchPage P wd p token).
Proof. unfold Batch.fetchPage. preserve. Qed.

Lemma batch_fetchPage_rows_grow (P : Platform) (wd : string * string)
    (p : Batch.Pair) (token : string) :
  preserves rows_grow (Batch.fetchPage P wd p token).
Proof. unfold Batch.fetchPage, Batch.processPage. preserve. Qed.

#[local] Hint Resolve batch_fetchPage_same_sheets batch_fetchPage_rows_grow : preserve.

Lemma batch_fetchAllPages_same_sheets (P : Platform) (wd : string * string)
    (p : Batch.Pair) (token : string) (fuel : nat) :
  preserves same_sheets (Batch.fetchAllPages P fuel wd p token).
Proof. induction fuel as [| fuel IH]; cbn [Batch.fetchAllPages]; preserve. Qed.

Lemma batch_fetchAllPages_rows_grow (P : Platform) (wd : string * string)
    (p : Batch.Pair) (token : string) (fuel : nat) :
  preserves rows_grow (Batch.fetchAllPages P fuel wd p token).
Proof. induction fuel as [| fuel IH]; cbn [Batch.fetchAllPages]; preserve. Qed.

(** An outcome that is not a thrown error. *)
Definition no_raise {A} (o : Outcome A) : Prop :=
  match o with
  | Raise _ => False
  | _ => True
  end.

Lemma logErrorRow_returns {L} (name : string) (obj : Props) (s : World * L) :
  fst (Batch.logErrorRow_ name obj s) = Return tt.
Proof.
  destruct s as [w l]. unfold Batch.logErrorRow_, bind at 1.
  rewrite getOrInsertSheet_run.
  assert (Happend : forall s' : World * L,
            fst (appendRow name
                   (map (fun k => js_or (get (JObj obj) k) (JStr ""))
                      ["ts"; "advertiser_id"; "store_id"; "window"; "message"]) s')
            = Return tt).
  { intros [w' l']. unfold appendRow, bind. now rewrite getOrInsertSheet_run. }
  destruct (Nat.eqb (getLastRow (sheet_of w name)) 0).
  - unfold bind.
    rewrite (setValues_run name 1 [error_log_header] 5); try discriminate.
    + apply Happend.
    + repeat constructor.
  - unfold bind, ret. apply Happend.
Qed.

Lemma fetchPair_run (P : Platform) (fuel : nat) (token : string)
    (wd : string * string) (p : Batch.Pair) (w : World) (l : Batch.Locals) :
  Batch.fetchPair P fuel token wd p (w, l) =
  match Batch.fetchAllPages P fuel wd p token (w, Batch.first_page l) with
  | (Raise err, s1) =>
      Batch.logErrorRow_ "GMVMax_Errors"
        (Batch.error_record
           (formatDate_ymd_hms (timeZone P Batch.TZ)
              (clock P (length (requests (fst s1))))) wd p err) s1
  | r => r
  end.
Proof.
  unfold Batch.fetchPair, bind at 1, modify_locals at 1, try_catch. cbn [fst snd].
  destruct (Batch.fetchAllPages P fuel wd p token (w, Batch.first_page l))
    as [[[] | err |] s1]; reflexivity.
Qed.

Lemma fetchPair_no_raise (P : Platform) (fuel : nat) (token : string)
    (wd : string * string) (p : Batch.Pair) (s : World * Batch.Locals) :
  no_raise (fst (Batch.fetchPair P fuel token wd p s)).
Proof.
  destruct s as [w l]. rewrite fetchPair_run.
  destruct (Batch.fetchAllPages P fuel wd p token (w, Batch.first_page l))
    as [[[] | err |] s1]; cbn [fst no_raise]; try exact I.
  now rewrite logErrorRow_returns.
Qed.

Lemma forEach_no_raise {L A} (xs : list A) (body : A -> M L unit) :
  (forall x s, no_raise (fst (body x s))) ->
  forall s, no_raise (fst (forEach xs body s)).
Proof.
  intros Hb. induction xs as [| x xs IH]; intros s; simpl; [exact I |].
  unfold bind. specialize (Hb x s).
  destruct (body x s) as [[[] | err |] s']; cbn [fst no_raise] in *;
    [apply IH | contradiction | exact I].
Qed.

Lemma js_or_string (x : string) : js_or (JStr x) (JStr "") = JStr x.
Proof.
  unfold js_or. cbn [truthy].
  destruct (String.eqb_spec x ""); [now subst | reflexivity].
Qed.

Lemma error_log_row_of_record (ts : string) (wd : string * string)
    (p : Batch.Pair) (err : JsError) :
  error_log_row (Batch.error_record ts wd p err) =
  [JStr ts; JStr (fst p); JStr (snd p);
   JStr (fst wd ++ ".." ++ snd wd)%string; JStr (Batch.error_text err)].
Proof.
  unfold error_log_row, Batch.error_record. cbn -[js_or].
  now rewrite !js_or_string.
Qed.

(** A server that answers every request of the advertiser [bad] with an
    HTTP 500, and serves the others one page. *)
Definition failing_server (bad : string) (hist : list Request) (req : Request) :
    Result HttpResponse :=
  match own (req_params req) "advertiser_id" with
  | Some (JStr a) =>
      if String.eqb a bad then
        Ok (mkResponse 500 "Internal Server Error"
              (Throw (SyntaxError "Unexpected token 'I'")))
      else paged_server 1 JNull hist req
  | _ => paged_server 1 JNull hist req
  end.

Definition failing_platform (bad : string) : Platform :=
  mkPlatform (failing_server bad) sample_properties
    (fun _ => days_from_civil 2025 6 1 * msDay + 3 * 60 * 60 * 1000)
    (fixed_zone seven_hours) (fun _ => fixed_zone seven_hours).

(** A whole run on 2025-06-01 with the advertisers A and B sharing one
    store, A failing: the run completes, the data sheet has the rows of B
    below the header, the error log has its header and one row for A. *)
Example batch_run_with_a_failing_advertiser :
  let r := Batch.runLiveGmvMaxCampaignDaily_SinceJune1_Simple (failing_platform "A")
             ["A"; "B"] ["S"] 5 (empty_world, Batch.mkLocals 0 [] []) in
  fst r = Return tt
  /\ sheet_of (fst (snd r)) "GMVMax_Errors" =
       [map JStr ["ts"; "advertiser_id"; "store_id"; "window"; "message"];
        map JStr ["2025-06-01 10:00:00"; "A"; "S"; "2025-06-01..2025-06-01";
                  "HTTP 500 – Internal Server Error"]]
  /\ map (take 4) (sheet_of (fst (snd r)) Batch.data_sheet) =
       [map JStr ["advertiser_id"; "store_id"; "stat_time_day"; "campaign_id"];
        map JStr ["B"; "S"; "2025-06-01"; "c1a"];
        map JStr ["B"; "S"; "2025-06-01"; "c1b"]]
  /\ length (requests (fst (snd r))) = 2%nat.
Proof. vm_compute. repeat split; reflexivity. Qed.

(** ** The calendar *)

(** [p] holds for the [n] integers from [z] on. *)
Fixpoint all_from (n : nat) (z : Z) (p : Z -> bool) : bool :=
  match n with
  | O => true
  | S n' => p z && all_from n' (z + 1) p
  end.

Lemma all_from_spec (n : nat) (z : Z) (p : Z -> bool) :
  all_from n z p = true -> forall i, z <= i < z + Z.of_nat n -> p i = true.
Proof.
  revert z. induction n as [| n IH]; intros z H i Hi; [lia |].
  simpl in H. apply andb_true_iff in H. destruct H as [Hz Hrest].
  destruct (Z.eq_dec i z) as [-> | Hne]; [exact Hz |].
  apply (IH (z + 1) Hrest). lia.
Qed.

(** One era of 400 years, day by day: the civil date of a day gives the
    day back, its month and day of the month are in range, and the year is
    400 from the day 146037 of the era on and below 400 before. *)
Definition era_day_ok (doe : Z) : bool :=
  let z := doe - 719468 in
  let '(y, m, d) := civil_from_days z in
  (days_from_civil y m d =? z)
  && (1 <=? m) && (m <=? 12) && (1 <=? d) && (d <=? 31)
  && (0 <=? y) && (if doe <? 146037 then y <=? 399 else y =? 400).

Lemma era_days_ok : all_from (Z.to_nat 146097) 0 era_day_ok = true.
Proof. vm_cast_no_check (@eq_refl bool true). Qed.

Lemma civil_from_days_shift (z k : Z) :
  civil_from_days (z + 146097 * k) =
  let '(y, m, d) := civil_from_days z in (y + 400 * k, m, d).
Proof.
  unfold civil_from_days.
  replace (z + 146097 * k + 719468) with (z + 719468 + k * 146097) by ring.
  rewrite Z.div_add by lia.
  replace (z + 719468 + k * 146097 - ((z + 719468) / 146097 + k) * 146097)
    with (z + 719468 - (z + 719468) / 146097 * 146097) by ring.
  set (doe := z + 719468 - (z + 719468) / 146097 * 146097).
  set (yoe := (doe - doe / 1460 + doe / 36524 - doe / 146096) / 365).
  cbv zeta.
  destruct ((if (5 * (doe - (365 * yoe + yoe / 4 - yoe / 100)) + 2) / 153 <? 10
             then (5 * (doe - (365 * yoe + yoe / 4 - yoe / 100)) + 2) / 153 + 3
             else (5 * (doe - (365 * yoe + yoe / 4 - yoe / 100)) + 2) / 153 - 9) <=? 2);
    f_equal; f_equal; ring.
Qed.

Lemma days_from_civil_shift (y m d k : Z) :
  days_from_civil (y + 400 * k) m d = days_from_civil y m d + 146097 * k.
Proof.
  unfold days_from_civil.
  replace (if m <=? 2 then y + 400 * k - 1 else y + 400 * k)
    with ((if m <=? 2 then y - 1 else y) + k * 400) by (destruct (m <=? 2); ring).
  rewrite Z.div_add by lia.
  set (y' := if m <=? 2 then y - 1 else y).
  replace (y' + k * 400 - (y' / 400 + k) * 400) with (y' - y' / 400 * 400) by ring.
  cbv zeta. ring.
Qed.

(** The civil date of any day gives the day back. *)
Lemma civil_round_trip (z : Z) :
  let '(y, m, d) := civil_from_days z in
  days_from_civil y m d = z /\ 1 <= m <= 12 /\ 1 <= d <= 31.
Proof.
  set (k := (z + 719468) / 146097).
  set (doe := (z + 719468) mod 146097).
  assert (Hdoe : 0 <= doe < 146097) by (apply Z.mod_pos_bound; lia).
  assert (Hz : z = doe - 719468 + 146097 * k).
  { subst doe k. pose proof (Z.div_mod (z + 719468) 146097). lia. }
  pose proof (all_from_spec _ _ _ era_days_ok doe ltac:(lia)) as Hok.
  unfold era_day_ok in Hok. clearbody k doe. subst z.
  rewrite civil_from_days_shift.
  destruct (civil_from_days (doe - 719468)) as [[y m] d].
  rewrite !andb_true_iff in Hok.
  destruct Hok as [[[[[[H1 H2] H3] H4] H5] H6] H7].
  rewrite days_from_civil_shift.
  apply Z.eqb_eq in H1. apply Z.leb_le in H2, H3, H4, H5. lia.
Qed.

Definition first_day : Z := days_from_civil 0 1 1.
Definition last_day : Z := days_from_civil 9999 12 31.

(** The days of the years 0 to 9999 have a year of four digits. *)
Lemma civil_year_range (z : Z) :
  first_day <= z <= last_day ->
  let '(y, m, d) := civil_from_days z in 0 <= y <= 9999.
Proof.
  intros Hr. change first_day with (-719528) in Hr. change last_day with 2932896 in Hr.
  set (k := (z + 719468) / 146097).
  set (doe := (z + 719468) mod 146097).
  assert (Hdoe : 0 <= doe < 146097) by (apply Z.mod_pos_bound; lia).
  assert (Hz : z = doe - 719468 + 146097 * k).
  { subst doe k. pose proof (Z.div_mod (z + 719468) 146097). lia. }
  pose proof (all_from_spec _ _ _ era_days_ok doe ltac:(lia)) as Hok.
  unfold era_day_ok in Hok. clearbody k doe. subst z.
  rewrite civil_from_days_shift.
  destruct (civil_from_days (doe - 719468)) as [[y m] d].
  rewrite !andb_true_iff in Hok.
  destruct Hok as [[[[[[H1 H2] H3] H4] H5] H6] H7].
  apply Z.leb_le in H6.
  destruct (Z.ltb_spec doe 146037); [apply Z.leb_le in H7 | apply Z.eqb_eq in H7]; lia.
Qed.

Lemma days_from_civil_bounds (y m d : Z) :
  0 <= y <= 9999 -> 1 <= m <= 12 -> 1 <= d <= 31 ->
  first_day <= days_from_civil y m d <= last_day.
Proof.
  intros Hy Hm Hd.
  change first_day with (-719528). change last_day with 2932896.
  unfold days_from_civil.
  destruct (Z.leb_spec m 2); destruct (Z.ltb_spec 2 m); try lia;
    cbv zeta; Z.div_mod_to_equations; lia.
Qed.

(** *** Printing and reading dates *)

Definition four_digits_ok (y : Z) : bool :=
  match fixed_digits 4 (pad_left 4 (Z_to_string y)) 0 with
  | Some (v, EmptyString) => v =? y
  | _ => false
  end.

Definition two_digits_ok (v : Z) : bool :=
  match fixed_digits 2 (pad_left 2 (Z_to_string v)) 0 with
  | Some (v', EmptyString) => v' =? v
  | _ => false
  end.

Lemma four_digits_all_ok : all_from (Z.to_nat 10000) 0 four_digits_ok = true.
Proof. vm_cast_no_check (@eq_refl bool true). Qed.

Lemma two_digits_all_ok : all_from (Z.to_nat 100) 0 two_digits_ok = true.
Proof. vm_cast_no_check (@eq_refl bool true). Qed.

Lemma read_four_digits (y : Z) (rest : string) :
  0 <= y <= 9999 ->
  fixed_digits 4 (pad_left 4 (Z_to_string y) ++ rest)%string 0 = Some (y, rest).
Proof.
  intros Hy.
  pose proof (all_from_spec _ _ _ four_digits_all_ok y ltac:(lia)) as Hok.
  unfold four_digits_ok in Hok.
  destruct (fixed_digits 4 (pad_left 4 (Z_to_string y)) 0) as [[v r] |] eqn:E;
    [| discriminate].
  destruct r; [| discriminate]. apply Z.eqb_eq in Hok. subst v.
  now rewrite (fixed_digits_app _ _ rest _ _ _ E).
Qed.

Lemma read_two_digits (v : Z) (rest : string) :
  0 <= v <= 99 ->
  fixed_digits 2 (pad_left 2 (Z_to_string v) ++ rest)%string 0 = Some (v, rest).
Proof.
  intros Hv.
  pose proof (all_from_spec _ _ _ two_digits_all_ok v ltac:(lia)) as Hok.
  unfold two_digits_ok in Hok.
  destruct (fixed_digits 2 (pad_left 2 (Z_to_string v)) 0) as [[v' r] |] eqn:E;
    [| discriminate].
  destruct r; [| discriminate]. apply Z.eqb_eq in Hok. subst v'.
  now rewrite (fixed_digits_app _ _ rest _ _ _ E).
Qed.

Lemma append_empty (s : string) : (s ++ "")%string = s.
Proof.
  induction s as [| c s IH]; [reflexivity |].
  change (String c (s ++ "")%string = String c s). now rewrite IH.
Qed.

(** A printed day of the years 0 to 9999 reads back as that day. *)
Lemma iso_day_format_day (n : Z) :
  first_day <= n <= last_day -> iso_day (format_day n) = Some n.
Proof.
  intros Hn. unfold format_day.
  pose proof (civil_round_trip n) as Hrt.
  pose proof (civil_year_range n Hn) as Hy.
  destruct (civil_from_days n) as [[y m] d].
  destruct Hrt as (Hback & Hm & Hd).
  unfold iso_day, scan_iso_date.
  set (dd := pad_left 2 (Z_to_string d)).
  set (mm := pad_left 2 (Z_to_string m)).
  rewrite (read_four_digits y ("-" ++ mm ++ "-" ++ dd)%string) by lia.
  change ("-" ++ mm ++ "-" ++ dd)%string with (String "-" (mm ++ "-" ++ dd)%string).
  cbn [strip_prefix]. change (Ascii.eqb "-" "-") with true. cbv iota.
  subst mm. rewrite (read_two_digits m ("-" ++ dd)%string) by lia.
  replace ((1 <=? m) && (m <=? 12)) with true
    by (symmetry; apply andb_true_iff; split; apply Z.leb_le; lia).
  change ("-" ++ dd)%string with (String "-" dd).
  cbn [strip_prefix]. change (Ascii.eqb "-" "-") with true. cbv iota.
  subst dd. rewrite <- (append_empty (pad_left 2 (Z_to_string d))).
  rewrite (read_two_digits d "") by lia.
  replace ((1 <=? d) && (d <=? 31)) with true
    by (symmetry; apply andb_true_iff; split; apply Z.leb_le; lia).
  now rewrite Hback.
Qed.

Lemma digit_val_range (c : ascii) : is_digit c = true -> 0 <= digit_val c <= 9.
Proof.
  unfold is_digit, digit_val. intros H. apply andb_true_iff in H.
  destruct H as [H1 H2]. apply Nat.leb_le in H1, H2. lia.
Qed.

Lemma fixed_digits_range (n : nat) (s : string) (acc v : Z) (r : string) :
  fixed_digits n s acc = Some (v, r) ->
  acc * 10 ^ Z.of_nat n <= v <= acc * 10 ^ Z.of_nat n + 10 ^ Z.of_nat n - 1.
Proof.
  revert s acc. induction n as [| n IH]; intros s acc H.
  - simpl in H. inversion H; subst. simpl. lia.
  - cbn [fixed_digits] in H. destruct s as [| c s]; [discriminate |].
    destruct (is_digit c) eqn:Ec; [| discriminate].
    apply IH in H. apply digit_val_range in Ec.
    rewrite Nat2Z.inj_succ, Z.pow_succ_r by lia.
    assert (0 < 10 ^ Z.of_nat n) by (apply Z.pow_pos_nonneg; lia).
    nia.
Qed.

(** A string that reads as a date reads as a day of the years 0 to 9999. *)
Lemma iso_day_range (s : string) (a : Z) :
  iso_day s = Some a -> first_day <= a <= last_day.
Proof.
  unfold iso_day, scan_iso_date.
  destruct (fixed_digits 4 s 0) as [[y r1] |] eqn:E1; [| discriminate].
  apply fixed_digits_range in E1. change (10 ^ Z.of_nat 4) with 10000 in E1.
  destruct (strip_prefix "-" r1) as [r1' |].
  - destruct (fixed_digits 2 r1' 0) as [[m r2] |] eqn:E2; [| discriminate].
    destruct ((1 <=? m) && (m <=? 12)) eqn:Em; [| discriminate].
    apply andb_true_iff in Em. destruct Em as [Hm1 Hm2].
    apply Z.leb_le in Hm1, Hm2.
    destruct (strip_prefix "-" r2) as [r2' |].
    + destruct (fixed_digits 2 r2' 0) as [[d r3] |] eqn:E3; [| discriminate].
      destruct ((1 <=? d) && (d <=? 31)) eqn:Ed; [| discriminate].
      apply andb_true_iff in Ed. destruct Ed as [Hd1 Hd2].
      apply Z.leb_le in Hd1, Hd2.
      destruct r3; [| discriminate]. intros H. inversion H; subst.
      apply days_from_civil_bounds; lia.
    + destruct r2; [| discriminate]. intros H. inversion H; subst.
      apply days_from_civil_bounds; lia.
  - destruct r1; [| discriminate]. intros H. inversion H; subst.
    apply days_from_civil_bounds; lia.
Qed.

(** ** The window planner *)

Lemma windows_loop_step (fmt : Z -> string) (endT curStart : Z) :
  windows_loop fmt endT curStart =
  if Z_le_dec curStart endT then
    (fmt curStart, fmt (Z.min endT (curStart + 29 * msDay)))
      :: windows_loop fmt endT (Z.min endT (curStart + 29 * msDay) + msDay)
  else [].
Proof.
  rewrite windows_loop_equation_1.
  destruct (Z_le_dec curStart endT); reflexivity.
Qed.

(** Windows of days that go from [a] to [b]: each starts the day after the
    one before ends and spans at most 30 days. *)
Inductive Tiling : Z -> Z -> list (Z * Z) -> Prop :=
| Tiling_done (a b : Z) : a = b + 1 -> Tiling a b []
| Tiling_step (a b q : Z) (ws : list (Z * Z)) :
    a <= q -> q <= a + 29 -> q <= b -> Tiling (q + 1) b ws ->
    Tiling a b ((a, q) :: ws).

Lemma Tiling_bounds (a b : Z) (ws : list (Z * Z)) :
  Tiling a b ws ->
  a <= b + 1
  /\ Forall (fun w => a <= fst w /\ fst w <= snd w /\ snd w <= b
                      /\ snd w - fst w + 1 <= 30) ws.
Proof.
  induction 1 as [a b -> | a b q ws H1 H2 H3 HT [IH1 IH2]].
  - split; [lia | constructor].
  - split; [lia |]. constructor; [simpl; lia |].
    eapply Forall_impl; [exact IH2 |]. simpl. intros w Hw. lia.
Qed.

Lemma Tiling_covers (a b : Z) (ws : list (Z * Z)) :
  Tiling a b ws ->
  forall d, a <= d <= b <-> exists w, In w ws /\ fst w <= d <= snd w.
Proof.
  induction 1 as [a b -> | a b q ws H1 H2 H3 HT IH]; intros d.
  - split; [lia | intros (w & [] & _)].
  - split.
    + intros Hd. destruct (Z_le_dec d q) as [Hle | Hgt].
      * exists (a, q). split; [now left | simpl; lia].
      * destruct (proj1 (IH d) ltac:(lia)) as (w & Hin & Hw).
        exists w. split; [now right | exact Hw].
    + intros (w & [<- | Hin] & Hw).
      * simpl in Hw. lia.
      * pose proof (proj2 (IH d) (ex_intro _ w (conj Hin Hw))). lia.
Qed.

Lemma Tiling_contiguous (a b : Z) (ws : list (Z * Z)) :
  Tiling a b ws ->
  forall (i : nat) (w1 w2 : Z * Z),
    ws !! i = Some w1 -> ws !! S i = Some w2 -> fst w2 = snd w1 + 1.
Proof.
  induction 1 as [a b -> | a b q ws H1 H2 H3 HT IH]; intros i w1 w2 Hi Hj.
  - discriminate.
  - destruct i as [| i].
    + simpl in Hi. inversion Hi; subst. simpl in Hj.
      inversion HT; subst; [discriminate |]. simpl in Hj. now inversion Hj.
    + simpl in Hi, Hj. now apply (IH i).
Qed.

Lemma Tiling_ordered (a b : Z) (ws : list (Z * Z)) :
  Tiling a b ws ->
  forall (i j : nat) (wi wj : Z * Z),
    ws !! i = Some wi -> ws !! j = Some wj -> (i < j)%nat -> snd wi < fst wj.
Proof.
  induction 1 as [a b -> | a b q ws H1 H2 H3 HT IH]; intros i j wi wj Hi Hj Hij.
  - discriminate.
  - destruct j as [| j]; [lia |]. simpl in Hj.
    destruct i as [| i].
    + simpl in Hi. inversion Hi; subst. simpl.
      apply Tiling_bounds in HT. destruct HT as [_ HT].
      rewrite List.Forall_forall in HT.
      assert (Hin : In wj ws) by (apply list_elem_of_In; eapply list_elem_of_lookup_2; eauto).
      specialize (HT wj Hin). lia.
    + simpl in Hi. apply (IH i j); [assumption | assumption | lia].
Qed.

Lemma Tiling_ends (a b : Z) (ws : list (Z * Z)) :
  Tiling a b ws -> a <= b ->
  fst <$> head ws = Some a /\ snd <$> last ws = Some b.
Proof.
  induction 1 as [a b -> | a b q ws H1 H2 H3 HT IH]; intros Hab; [lia |].
  split; [reflexivity |].
  inversion HT as [? ? Hq | a' ? q' ws' ? ? ? HT']; subst.
  - simpl. f_equal. lia.
  - destruct IH as [_ IH]; [lia |]. exact IH.
Qed.

Lemma Tiling_single_day (a : Z) (ws : list (Z * Z)) :
  Tiling a a ws -> ws = [(a, a)].
Proof.
  intros H. inversion H as [? ? Ha | ? ? q ws' H1 H2 H3 HT]; subst; [lia |].
  assert (q = a) by lia. subst q.
  inversion HT as [| ? ? q' ? H1' H2' H3']; subst; [reflexivity | lia].
Qed.

(** The midnight of day [x] in a zone [scriptOffset] east of UTC, printed
    in a zone at most a day further east, neither with daylight saving, is
    the day [x]. *)
Lemma formatDate_of_midnight (scriptOffset tzOffset x : Z) :
  0 <= tzOffset - scriptOffset < msDay ->
  formatDate_ymd (fixed_zone tzOffset) (x * msDay - scriptOffset) = format_day x.
Proof.
  intros H. unfold formatDate_ymd, fixed_zone, utc_offset. f_equal.
  replace (x * msDay - scriptOffset + tzOffset)
    with (tzOffset - scriptOffset + x * msDay) by ring.
  rewrite Z.div_add by (unfold msDay; lia).
  rewrite Z.div_small by exact H. reflexivity.
Qed.

(** The planner on two dates, in zones without daylight saving. *)
Lemma buildDailyWindows_fixed
    (scriptOffset tzOffset : Z) (startDateStr endDateStr : string) (a b : Z) :
  iso_day startDateStr = Some a -> iso_day endDateStr = Some b ->
  buildDailyWindows_ (fixed_zone scriptOffset) (fixed_zone tzOffset)
    startDateStr endDateStr
  = windows_loop (formatDate_ymd (fixed_zone tzOffset))
      (b * msDay - scriptOffset) (a * msDay - scriptOffset).
Proof.
  intros Ha Hb. unfold buildDailyWindows_.
  rewrite (Date_parse_local _ _ _ Ha), (Date_parse_local _ _ _ Hb).
  unfold Num.ofZ. now rewrite !Qfloor_Z.
Qed.

Lemma windows_loop_tiling (fmt : Z -> string) (offset : Z) (n : nat) :
  forall a b, (Z.to_nat (b + 1 - a) <= n)%nat -> a <= b + 1 ->
    exists ws,
      windows_loop fmt (b * msDay - offset) (a * msDay - offset) =
      map (fun w => (fmt (fst w * msDay - offset), fmt (snd w * msDay - offset))) ws
      /\ Tiling a b ws.
Proof.
  induction n as [| n IH]; intros a b Hn Hab; rewrite windows_loop_step;
    (destruct (Z_le_dec (a * msDay - offset) (b * msDay - offset)) as [Hle | Hgt];
     [assert (a <= b) by (unfold msDay in Hle; lia)
     | assert (b < a) by (unfold msDay in Hgt; lia)]);
    try lia;
    try (exists []; split; [reflexivity | constructor; lia]).
  set (q := Z.min b (a + 29)).
  assert (Hq : Z.min (b * msDay - offset) (a * msDay - offset + 29 * msDay)
               = q * msDay - offset).
  { subst q. unfold msDay. lia. }
  rewrite Hq.
  replace (q * msDay - offset + msDay) with ((q + 1) * msDay - offset) by ring.
  destruct (IH (q + 1) b) as (ws & Hws & HT); [subst q; lia | subst q; lia |].
  exists ((a, q) :: ws). split.
  - simpl. now rewrite Hws.
  - constructor; try (subst q; lia). exact HT.
Qed.

(** C2. The planner reads the two dates as midnights of the script's time
    zone, steps through them by days of 24 hours and prints the bounds in
    the zone it is given, so the windows are those of the range only where
    the two zones agree on the day and no clock changes in between.  Read in
    Tokyo and printed in Jakarta, the single day 2025-06-01 gives the window
    2025-05-31..2025-05-31, and the range from the start date of the batch
    report to 2025-07-05 gives 2025-05-31..2025-06-29 and
    2025-06-30..2025-07-04.  In New York, where the clocks go forward on
    2025-03-09, the range 2025-02-20..2025-03-22 gives the one window
    2025-02-20..2025-03-21, which leaves the last day out, printed in New
    York or in Jakarta; and the range 2025-10-29..2026-03-31, across the two
    changes of the winter, has the window 2026-02-25..2026-03-27, which
    spans 31 days by the count of the range validation. *)
Theorem windows_miss_the_range_across_zones :
  buildDailyWindows_ Asia_Tokyo Asia_Jakarta "2025-06-01" "2025-06-01"
    = [("2025-05-31", "2025-05-31")]
  /\ buildDailyWindows_ Asia_Tokyo Asia_Jakarta Batch.START_FIXED "2025-07-05"
    = [("2025-05-31", "2025-06-29"); ("2025-06-30", "2025-07-04")]
  /\ buildDailyWindows_ America_New_York America_New_York "2025-02-20" "2025-03-22"
    = [("2025-02-20", "2025-03-21")]
  /\ buildDailyWindows_ America_New_York Asia_Jakarta "2025-02-20" "2025-03-22"
    = [("2025-02-20", "2025-03-21")]
  /\ buildDailyWindows_ America_New_York America_New_York "2025-10-29" "2026-03-31"
    = [("2025-10-29", "2025-11-26"); ("2025-11-27", "2025-12-26");
       ("2025-12-27", "2026-01-25"); ("2026-01-26", "2026-02-24");
       ("2026-02-25", "2026-03-27"); ("2026-03-28", "2026-03-31")]
  /\ dailyRangeDays "2026-02-25" "2026-03-27" = Num.ofZ 31.
Proof. repeat split; vm_compute; reflexivity. Qed.

(** * Further properties of the code *)

(** ** Pairing advertisers with stores *)

Lemma map_fst_combine {A B} (l : list A) (l' : list B) :
  length l = length l' -> map fst (combine l l') = l /\ map snd (combine l l') = l'.
Proof.
  revert l'. induction l as [| x l IH]; intros [| y l'] H; try discriminate.
  - split; reflexivity.
  - simpl in *. destruct (IH l') as [H1 H2]; [lia |]. now rewrite H1, H2.
Qed.

(** X1. The pairs follow the advertisers one for one, in order.  A single store
    goes with every advertiser; otherwise the stores go with the
    advertisers by position; and the pairing throws exactly when there is
    not one store and the two lists differ in length. *)
Theorem pairs_follow_the_advertisers (ADVERTISER_IDS STORE_IDS : list string) :
  (forall pairs, Batch.make_pairs ADVERTISER_IDS STORE_IDS = Ok pairs ->
     map fst pairs = ADVERTISER_IDS
     /\ (forall store, STORE_IDS = [store] ->
           map snd pairs = map (fun _ => store) ADVERTISER_IDS)
     /\ (length STORE_IDS <> 1%nat -> map snd pairs = STORE_IDS))
  /\ ((exists err, Batch.make_pairs ADVERTISER_IDS STORE_IDS = Throw err)
      <-> length STORE_IDS <> 1%nat /\ length ADVERTISER_IDS <> length STORE_IDS).
Proof.
  unfold Batch.make_pairs.
  destruct (Nat.eqb_spec (length STORE_IDS) 1) as [H1 | H1].
  - split.
    + intros pairs H. inversion H; subst. rewrite !map_map. simpl.
      split; [apply map_id | split; [| contradiction]].
      intros store ->. reflexivity.
    + split; [intros [err H]; discriminate | intros [H _]; contradiction].
  - destruct (Nat.eqb_spec (length ADVERTISER_IDS) (length STORE_IDS)) as [H2 | H2].
    + split.
      * intros pairs H. inversion H; subst.
        destruct (map_fst_combine ADVERTISER_IDS STORE_IDS H2) as [Hf Hs].
        split; [exact Hf | split; [| intros _; exact Hs]].
        intros store ->. simpl in H1. contradiction.
      * split; [intros [err H]; discriminate | intros [_ H]; contradiction].
    + split; [intros pairs H; discriminate |].
      split; [intros _; split; assumption | intros _; eexists; reflexivity].
Qed.

Lemma pairs_follow_the_advertisers_witness :
  Batch.make_pairs ["a1"; "a2"] ["s"] = Ok [("a1", "s"); ("a2", "s")]
  /\ map fst [("a1", "s"); ("a2", "s")] = ["a1"; "a2"].
Proof.
  split; [reflexivity |].
  destruct (pairs_follow_the_advertisers ["a1"; "a2"] ["s"]) as [H _].
  apply (H [("a1", "s"); ("a2", "s")]). reflexivity.
Defined.

(** ** The ROI recomputation leaves the summed fields alone *)

Lemma recomputeRoi_cases (t : Props) :
  recomputeRoi t = t \/ exists v, recomputeRoi t = set t "roi" v.
Proof.
  unfold recomputeRoi. cbv zeta.
  destruct (Num.isFinite (num_ (get (JObj t) "cost"))
            && Num.gtb (num_ (get (JObj t) "cost")) Num.zero
            && Num.isFinite (num_ (get (JObj t) "gross_revenue"))) eqn:E1.
  - apply andb_true_iff in E1. destruct E1 as [E1 Hg].
    apply andb_true_iff in E1. destruct E1 as [Hc Hpos].
    rewrite Hc, (positive_is_not_zero _ Hpos). cbn [negb orb andb].
    right. eexists. reflexivity.
  - match goal with
    | |- context [if ?c then _ else _] => destruct c
    end; [right; eexists; reflexivity | now left].
Qed.

(** X2. The recomputation never changes a field other than [roi], and leaves
    the totals as they are when the summed cost is a finite negative
    number, or when the cost is zero or not finite and the net cost is not
    a finite positive number. *)
Theorem recomputeRoi_changes_only_roi (t : Props) :
  let cost := num_ (get (JObj t) "cost") in
  let netCost := num_ (get (JObj t) "net_cost") in
  (forall k, k <> "roi"%string -> own (recomputeRoi t) k = own t k)
  /\ (Num.isFinite cost = true -> Num.ltb cost Num.zero = true -> recomputeRoi t = t)
  /\ (Num.isFinite cost = false \/ Num.eqb cost Num.zero = true ->
      Num.isFinite netCost && Num.gtb netCost Num.zero = false ->
      recomputeRoi t = t).
Proof.
  intros cost netCost. split; [| split].
  - intros k Hk. destruct (recomputeRoi_cases t) as [-> | [v ->]]; [reflexivity |].
    apply own_set_ne. congruence.
  - intros Hfin Hneg. unfold recomputeRoi. cbv zeta. fold cost.
    assert (Hgt : Num.gtb cost Num.zero = false).
    { destruct cost as [| | | q]; try discriminate. simpl in *.
      apply negb_true_iff in Hneg. apply negb_false_iff.
      unfold Qle_bool in *. simpl in *. apply Z.leb_gt in Hneg. apply Z.leb_le. lia. }
    assert (Hz : Num.eqb cost Num.zero = false).
    { destruct cost as [| | | q]; try discriminate. simpl in *.
      destruct (Qeq_bool q (inject_Z 0)) eqn:E; [| reflexivity].
      apply Qeq_bool_iff in E. apply negb_true_iff in Hneg.
      assert (Qle_bool (inject_Z 0) q = true)
        by (apply Qle_bool_iff; rewrite E; apply Qle_refl).
      congruence. }
    rewrite Hfin, Hgt, Hz. reflexivity.
  - intros Hc Hn. unfold recomputeRoi. cbv zeta. fold cost.
    assert (E : Num.isFinite cost && Num.gtb cost Num.zero = false).
    { destruct Hc as [Hc | Hc].
      - now rewrite Hc.
      - destruct (Num.gtb cost Num.zero) eqn:G.
        + apply positive_is_not_zero in G. congruence.
        + apply andb_false_r. }
    rewrite E. cbn [andb]. fold netCost.
    rewrite <- andb_assoc, <- andb_assoc.
    rewrite (andb_assoc (Num.isFinite netCost)), Hn.
    now rewrite andb_false_r.
Qed.

Lemma recomputeRoi_changes_only_roi_witness :
  recomputeRoi [("cost", JInt (-5)); ("gross_revenue", JInt 10); ("roi", JInt 7)]
  = [("cost", JInt (-5)); ("gross_revenue", JInt 10); ("roi", JInt 7)].
Proof.
  destruct (recomputeRoi_changes_only_roi
              [("cost", JInt (-5)); ("gross_revenue", JInt 10); ("roi", JInt 7)])
    as (_ & Hneg & _).
  apply Hneg; reflexivity.
Defined.

(** ** The keys of the totals accumulator *)

Lemma has_In (ps : Props) (k : string) :
  inherited k = false -> (has ps k = true <-> In k (map fst ps)).
Proof.
  intros Hk. unfold has. destruct (own ps k) eqn:E.
  - split; [intros _ | reflexivity].
    destruct (in_dec string_dec k (map fst ps)) as [Hi | Hn]; [exact Hi |].
    apply own_None_not_In in Hn. congruence.
  - rewrite Hk. split; [discriminate |].
    intros Hi. apply own_None_not_In in E. contradiction.
Qed.

Lemma keys_set (ps : Props) (k : string) (v : JsVal) :
  map fst (set ps k v) =
  match own ps k with Some _ => map fst ps | None => map fst ps ++ [k] end.
Proof.
  induction ps as [| [k' v'] ps IH]; simpl; [reflexivity |].
  destruct (String.eqb_spec k' k) as [-> | Hne]; simpl; [reflexivity |].
  rewrite IH. now destruct (own ps k).
Qed.

Lemma keys_sumTotals_key (add : JsVal) (out : Props) (k : string) :
  inherited k = false ->
  map fst (sumTotals_key add out k) =
  if has out k then map fst out else map fst out ++ [k].
Proof.
  intros Hk. pose proof (inherited_not_proto k Hk) as Hp.
  apply String.eqb_neq in Hp.
  unfold sumTotals_key, put, has. rewrite Hk.
  destruct (Num.isFinite _).
  - destruct (own out k) eqn:E; [| rewrite Hp]; rewrite keys_set; now rewrite E.
  - destruct (own out k) eqn:E; cbn [negb]; [reflexivity |].
    now rewrite keys_set, E.
Qed.

Lemma keys_fold_sumTotals (add : JsVal) (keys : list string) :
  List.NoDup keys ->
  Forall (fun k => inherited k = false) keys ->
  forall out,
    map fst (fold_left (sumTotals_key add) keys out) =
    map fst out ++ List.filter (fun k => negb (has out k)) keys.
Proof.
  induction 1 as [| k keys Hnotin Hnd IH]; intros Hinh out; simpl.
  - now rewrite app_nil_r.
  - inversion Hinh as [| ? ? Hk Hinh']; subst.
    rewrite (IH Hinh'), (keys_sumTotals_key _ _ _ Hk).
    assert (Hfilter : List.filter (fun k0 => negb (has (sumTotals_key add out k) k0)) keys
                      = List.filter (fun k0 => negb (has out k0)) keys).
    { apply filter_ext_in. intros k0 Hk0. unfold has.
      rewrite sumTotals_key_other; [reflexivity |].
      intros ->. contradiction. }
    rewrite Hfilter. destruct (has out k); cbn [negb]; [reflexivity |].
    now rewrite <- app_assoc.
Qed.

(** X3. Merging an object none of whose keys is an array index (which the
    language enumerates first, unlike the list of properties here) or a name
    that every object inherits, such as [constructor], into an accumulator
    without a key [__proto__], keeps the accumulator's keys in place and
    appends the new keys of the merged object in its own order, so that an
    accumulator with distinct keys keeps distinct keys; and merging nothing
    (a falsy value, an empty object, a number) returns the accumulator as
    it is. *)
Theorem sumTotals_keeps_keys_in_order (agg fs : Props) :
  List.NoDup (map fst fs) ->
  Forall (fun k => index_of_key k = None) (map fst fs) ->
  Forall (fun k => inherited k = false) (map fst fs) ->
  own agg "__proto__" = None ->
  map fst (sumTotals_ agg (JObj fs)) =
    map fst agg ++ List.filter (fun k => negb (has agg k)) (map fst fs)
  /\ (List.NoDup (map fst agg) -> List.NoDup (map fst (sumTotals_ agg (JObj fs))))
  /\ (forall k, In k (map fst fs) -> has (sumTotals_ agg (JObj fs)) k = true)
  /\ (forall add, truthy add = false \/ add = JObj [] \/ (exists n, add = JNum n) ->
        sumTotals_ agg add = agg).
Proof.
  intros Hnd _ Hinh Hproto.
  pose proof (Object_assign_without_proto agg Hproto) as Hcopy.
  assert (Hkeys : map fst (sumTotals_ agg (JObj fs)) =
                  map fst agg ++ List.filter (fun k => negb (has agg k)) (map fst fs)).
  { unfold sumTotals_. simpl. rewrite Hcopy. now apply keys_fold_sumTotals. }
  rewrite List.Forall_forall in Hinh.
  split; [exact Hkeys | split; [| split]].
  - intros Hagg. rewrite Hkeys.
    apply List.NoDup_app; [exact Hagg | now apply List.NoDup_filter |].
    intros k Hk Hin. apply filter_In in Hin. destruct Hin as [Hfs Hneg].
    apply negb_true_iff in Hneg. apply (has_In _ _ (Hinh k Hfs)) in Hk. congruence.
  - intros k Hk. apply (has_In _ _ (Hinh k Hk)). rewrite Hkeys. apply in_or_app.
    destruct (has agg k) eqn:E.
    + left. now apply (has_In _ _ (Hinh k Hk)).
    + right. apply filter_In. split; [exact Hk | now rewrite E].
  - intros add [Hf | [-> | [n ->]]].
    + unfold sumTotals_. now rewrite (js_or_falsy _ _ Hf), Hcopy.
    + unfold sumTotals_. cbn. exact Hcopy.
    + unfold sumTotals_, js_or. destruct (truthy (JNum n)); cbn; exact Hcopy.
Qed.

Lemma sumTotals_keeps_keys_in_order_witness :
  map fst (sumTotals_ [("cost", JInt 1); ("currency", JStr "USD")]
             (JObj [("orders", JStr "2"); ("cost", JStr "3")]))
  = ["cost"; "currency"; "orders"].
Proof.
  destruct (sumTotals_keeps_keys_in_order [("cost", JInt 1); ("currency", JStr "USD")]
              [("orders", JStr "2"); ("cost", JStr "3")]) as [H _].
  - repeat constructor; simpl; intuition discriminate.
  - repeat constructor.
  - repeat constructor.
  - reflexivity.
  - exact H.
Defined.

(** X25. Merging a totals object into the accumulator, key by key, for an
    accumulator without a key [__proto__]: every value of the new object is
    read as a number with [num_] (strings through [parseFloat]).  Under a
    key other than [__proto__], a value that reads as a finite number is
    added to what the accumulator holds under that key, a missing entry
    counting as zero.  Under a key that is not a name every object inherits,
    a value that does not read as a number is carried through unchanged
    only when the key is not yet in the accumulator; otherwise the
    accumulator's entry stays (first writer wins).  Under an inherited name
    such a value is never carried.  Keys the new object does not have are
    untouched.  Merging {cost: "10", orders: "2"} then
    {cost: "5", orders: "3"} gives {cost: 15, orders: 5}. *)
Theorem sumTotals_merges_key_by_key (agg fs : Props) :
  List.NoDup (map fst fs) ->
  own agg "__proto__" = None ->
  (forall k v, own fs k = Some v -> Num.isFinite (num_ v) = true ->
     k <> "__proto__"%string ->
     own (sumTotals_ agg (JObj fs)) k =
       Some (JNum (Num.add (or_zero (num_ (default JUndefined (own agg k)))) (num_ v))))
  /\ (forall k v, own fs k = Some v -> Num.isFinite (num_ v) = true ->
        k <> "__proto__"%string -> own agg k = None ->
        own (sumTotals_ agg (JObj fs)) k = Some (JNum (Num.add Num.zero (num_ v))))
  /\ (forall k v, own fs k = Some v -> Num.isFinite (num_ v) = false ->
        inherited k = false ->
        own (sumTotals_ agg (JObj fs)) k =
          match own agg k with
          | Some old => Some old
          | None => Some v
          end)
  /\ (forall k v, own fs k = Some v -> Num.isFinite (num_ v) = false ->
        inherited k = true ->
        own (sumTotals_ agg (JObj fs)) k = own agg k)
  /\ (forall k, own fs k = None -> own (sumTotals_ agg (JObj fs)) k = own agg k)
  /\ sumTotals_ (sumTotals_ [] (JObj [("cost", JStr "10"); ("orders", JStr "2")]))
       (JObj [("cost", JStr "5"); ("orders", JStr "3")])
     = [("cost", JInt 15); ("orders", JInt 5)].
Proof.
  intros Hnd Hproto.
  pose proof (Object_assign_without_proto agg Hproto) as Hcopy.
  assert (Hmerge : forall k v, own fs k = Some v ->
            own (sumTotals_ agg (JObj fs)) k = merged_value (JObj fs) (own agg k) k).
  { intros k v Hk. rewrite (sumTotals_own agg fs k Hnd), Hk. now rewrite Hcopy. }
  repeat split.
  - intros k v Hk Hfin Hne. rewrite (Hmerge k v Hk). unfold merged_value.
    apply String.eqb_neq in Hne.
    simpl. rewrite Hk. simpl. rewrite Hfin, Hne. now destruct (own agg k).
  - intros k v Hk Hfin Hne Hnone. rewrite (Hmerge k v Hk). unfold merged_value.
    apply String.eqb_neq in Hne.
    simpl. rewrite Hk, Hnone. simpl. now rewrite Hfin, Hne.
  - intros k v Hk Hfin Hinh. rewrite (Hmerge k v Hk). unfold merged_value.
    simpl. rewrite Hk. simpl. now rewrite Hfin, Hinh.
  - intros k v Hk Hfin Hinh. rewrite (Hmerge k v Hk). unfold merged_value.
    simpl. rewrite Hk. simpl. rewrite Hfin, Hinh. now destruct (own agg k).
  - intros k Hk. rewrite (sumTotals_own agg fs k Hnd), Hk. now rewrite Hcopy.
Qed.

Lemma sumTotals_merges_key_by_key_witness :
  own (sumTotals_ [("cost", JInt 10)] (JObj [("cost", JStr "5"); ("currency", JStr "EUR")]))
    "cost"
  = Some (JInt 15).
Proof.
  pose proof (sumTotals_merges_key_by_key [("cost", JInt 10)]
                [("cost", JStr "5"); ("currency", JStr "EUR")]) as H.
  destruct H as [H _].
  - repeat constructor; simpl; intuition discriminate.
  - reflexivity.
  - apply (H "cost" (JStr "5")); [reflexivity | reflexivity | discriminate].
Defined.

(** ** The totals sheet *)

Lemma values_of_distinct_keys (fs : Props) :
  List.NoDup (map fst fs) ->
  map (fun k => get (JObj fs) k) (map fst fs) = map snd fs.
Proof.
  induction fs as [| [k v] fs IH]; intros Hnd; [reflexivity |].
  inversion Hnd as [| ? ? Hnotin Hnd']; subst.
  cbn [map fst snd get own]. rewrite String.eqb_refl. cbn [default]. f_equal.
  rewrite <- (IH Hnd'). rewrite !map_map. apply map_ext_in.
  intros [k' v'] Hin. cbn [fst get own].
  destruct (String.eqb_spec k k') as [-> | _]; [| reflexivity].
  exfalso. apply Hnotin. apply in_map_iff. now exists (k', v').
Qed.

(** X4. The totals sheet of an object with at least one key is replaced by two
    rows, the keys over their values, whatever the sheet held; nothing else
    changes.  For an object with no key the sheet is cleared and the first
    range, of zero columns, makes the call throw. *)
Theorem totals_sheet_is_keys_over_values {L} (name : string) (fs : Props)
    (w : World) (l : L) :
  List.NoDup (map fst fs) ->
  (fs <> [] ->
     writeTotalsSheet_ name (JObj fs) (w, l) =
     (Return tt, (with_sheet w name [map JStr (map fst fs); map snd fs], l)))
  /\ (fs = [] ->
     writeTotalsSheet_ name (JObj fs) (w, l) =
     (Raise (Error "The number of columns in the range must be at least 1."),
      (with_sheet w name [], l))).
Proof.
  intros Hnd. split.
  - intros Hne. unfold writeTotalsSheet_, clearContents.
    rewrite getOrInsertSheet_then_put. cbn [Object_keys].
    rewrite (values_of_distinct_keys fs Hnd).
    assert (Hlen : length (map fst fs) <> O).
    { destruct fs; [contradiction | discriminate]. }
    unfold bind at 1.
    rewrite (setValues_run name 1 [map JStr (map fst fs)] (length (map fst fs)));
      try (discriminate || assumption).
    2: { constructor; [apply length_map | constructor]. }
    rewrite (setValues_run name 2 [map snd fs] (length (map fst fs)));
      try (discriminate || assumption).
    2: { constructor; [now rewrite !length_map | constructor]. }
    rewrite !sheet_of_with_sheet, !with_sheet_twice.
    cbn [overwrite_rows overwrite_block hd tl]. now rewrite !overwrite_cells_nil.
  - intros ->. unfold writeTotalsSheet_, clearContents.
    rewrite getOrInsertSheet_then_put. reflexivity.
Qed.

Lemma totals_sheet_is_keys_over_values_witness :
  writeTotalsSheet_ "Totals" (JObj [("cost", JStr "12.5"); ("orders", JInt 3)])
    (mkWorld [] (<["Totals" := [[JStr "old"; JStr "old"; JStr "old"]]]> ∅), tt) =
  (Return tt,
   (mkWorld [] (<["Totals" := [[JStr "cost"; JStr "orders"]; [JStr "12.5"; JInt 3]]]>
                  (<["Totals" := [[JStr "old"; JStr "old"; JStr "old"]]]> ∅)), tt)).
Proof.
  destruct (totals_sheet_is_keys_over_values (L := unit) "Totals"
              [("cost", JStr "12.5"); ("orders", JInt 3)]
              (mkWorld [] (<["Totals" := [[JStr "old"; JStr "old"; JStr "old"]]]> ∅)) tt)
    as [H _].
  - repeat constructor; simpl; intuition discriminate.
  - apply H. discriminate.
Defined.

(** ** The error log over several calls *)

Lemma log_appended_rows (rows : list (list JsVal)) :
  Forall (fun r => blank_row r = false) rows -> rows <> [] ->
  forall sh,
    fold_left log_appended rows sh =
    (if Nat.eqb (getLastRow sh) 0 then [error_log_header] else sh) ++ rows.
Proof.
  induction 1 as [| r rows Hr Hrows IH]; intros Hne sh; [contradiction |].
  cbn [fold_left]. destruct rows as [| r' rows'].
  - reflexivity.
  - rewrite IH by discriminate.
    destruct (log_appended_tidy sh r Hr) as [_ Hlast].
    apply Nat.eqb_neq in Hlast. rewrite Hlast.
    unfold log_appended. now rewrite <- app_assoc.
Qed.

Lemma forEach_logErrorRow_run {L} (name : string) (objs : list Props) (l : L) :
  Forall (fun o => blank_row (error_log_row o) = false) objs -> objs <> [] ->
  forall w,
    tidy (sheet_of w name) ->
    forEach objs (Batch.logErrorRow_ name) (w, l) =
    (Return tt,
     (with_sheet w name
        (fold_left log_appended (map error_log_row objs) (sheet_of w name)), l)).
Proof.
  induction 1 as [| o objs Ho Hobjs IH]; intros Hne w Ht; [contradiction |].
  cbn [forEach]. unfold bind at 1. rewrite (logErrorRow_run name o w l Ht).
  destruct objs as [| o' objs'].
  - reflexivity.
  - rewrite IH; [| discriminate |].
    + now rewrite sheet_of_with_sheet, with_sheet_twice.
    + rewrite sheet_of_with_sheet. now apply log_appended_tidy.
Qed.

(** X5. Logging a list of records one after the other, each with at least one
    of the five fields truthy, on a sheet whose last row has content: the
    header is written once, only when the sheet has no content, and the
    rows follow what the sheet held, one per record, in the order of the
    calls.  Every call returns. *)
Theorem error_log_keeps_call_order {L} (name : string) (objs : list Props)
    (w : World) (l : L) :
  tidy (sheet_of w name) ->
  Forall (fun o => blank_row (error_log_row o) = false) objs ->
  objs <> [] ->
  forEach objs (Batch.logErrorRow_ name) (w, l) =
  (Return tt,
   (with_sheet w name
      ((if Nat.eqb (getLastRow (sheet_of w name)) 0
        then [error_log_header] else sheet_of w name)
       ++ map error_log_row objs), l)).
Proof.
  intros Ht Hall Hne.
  rewrite (forEach_logErrorRow_run name objs l Hall Hne w Ht).
  rewrite log_appended_rows; [reflexivity | | ].
  - apply List.Forall_map. exact Hall.
  - destruct objs; [contradiction | discriminate].
Qed.

Lemma error_log_keeps_call_order_witness :
  forEach [[("ts", JStr "t1"); ("message", JStr "first")];
           [("ts", JStr "t2"); ("advertiser_id", JStr "A")]]
    (Batch.logErrorRow_ "GMVMax_Errors") (mkWorld [] ∅, tt) =
  (Return tt,
   (with_sheet (mkWorld [] ∅) "GMVMax_Errors"
      [map JStr ["ts"; "advertiser_id"; "store_id"; "window"; "message"];
       map JStr ["t1"; ""; ""; ""; "first"];
       map JStr ["t2"; "A"; ""; ""; ""]], tt)).
Proof.
  rewrite (error_log_keeps_call_order (L := unit) "GMVMax_Errors"
             [[("ts", JStr "t1"); ("message", JStr "first")];
              [("ts", JStr "t2"); ("advertiser_id", JStr "A")]] (mkWorld [] ∅) tt).
  - reflexivity.
  - reflexivity.
  - repeat constructor.
  - discriminate.
Defined.

(** ** A single-query run from start to end *)

(** What the two sinks leave, as a function of what the loop gathered. *)
Definition written (rp : Report) (w : World) (rows : list Props) : World :=
  with_sheet w (rp_sheet rp)
    (map JStr (rp_columns rp) :: data_cells single_cell rows (rp_columns rp)).

Definition totals_table (totals : JsVal) : Sheet :=
  [map JStr (Object_keys totals); map (fun k => get totals k) (Object_keys totals)].

Lemma writeTotalsSheet_run {L} (name : string) (totals : JsVal) (w : World) (l : L) :
  writeTotalsSheet_ name totals (w, l) =
  if Nat.eqb (length (Object_keys totals)) 0
  then (Raise (Error "The number of columns in the range must be at least 1."),
        (with_sheet w name [], l))
  else (Return tt, (with_sheet w name (totals_table totals), l)).
Proof.
  unfold writeTotalsSheet_, clearContents. rewrite getOrInsertSheet_then_put.
  destruct (Nat.eqb_spec (length (Object_keys totals)) 0) as [E | Hne].
  - unfold bind, setValues. rewrite E. reflexivity.
  - unfold bind at 1.
    rewrite (setValues_run name 1 [map JStr (Object_keys totals)]
               (length (Object_keys totals))); try (discriminate || assumption).
    2: { constructor; [apply length_map | constructor]. }
    rewrite (setValues_run name 2 [map (fun k => get totals k) (Object_keys totals)]
               (length (Object_keys totals))); try (discriminate || assumption).
    2: { constructor; [apply length_map | constructor]. }
    rewrite !sheet_of_with_sheet, !with_sheet_twice.
    cbn [overwrite_rows overwrite_block hd tl]. now rewrite !overwrite_cells_nil.
Qed.

(** The run once the range is valid and the token is there. *)
Lemma runReport_run (P : Platform) (rp : Report) (cfg : Config) (token : string)
    (fuel : nat) (w : World) (l : Locals) :
  rp_validate rp cfg = Ok tt ->
  scriptProperties P "TT_ACCESS_TOKEN" = Some token -> token <> ""%string ->
  rp_columns rp <> [] ->
  runReport P rp cfg fuel (w, l) =
  match fetchAllPages P rp cfg fuel token (w, mkLocals 1 [] JNull) with
  | (Return _, (w1, l1)) =>
      if enable_total_metrics cfg && truthy (totalMetrics l1)
      then writeTotalsSheet_ (rp_totals_sheet rp) (totalMetrics l1)
             (written rp w1 (allRows l1), l1)
      else (Return tt, (written rp w1 (allRows l1), l1))
  | (Raise e, s1) => (Raise e, s1)
  | (Diverge, s1) => (Diverge, s1)
  end.
Proof.
  intros Hv Hp Hne Hc. unfold runReport. rewrite Hv. cbn [lift].
  unfold bind at 1, ret at 1. unfold bind at 1.
  rewrite (getAccessToken_run P token (w, l) Hp Hne).
  unfold bind at 1. unfold modify_locals at 1. cbn [fst snd].
  unfold bind at 1.
  destruct (fetchAllPages P rp cfg fuel token (w, mkLocals 1 [] JNull))
    as [[[] | e |] [w1 l1]]; try reflexivity.
  unfold bind at 1, get_locals at 1. cbn [snd].
  unfold bind at 1. rewrite (writeRowsToSheet_run _ _ _ w1 l1 Hc).
  unfold written. now destruct (enable_total_metrics cfg && truthy (totalMetrics l1)).
Qed.

Lemma single_query_reports_have_columns (rp : Report) :
  In rp single_query_reports -> rp_columns rp <> [].
Proof.
  intros [<- | [<- | [<- | [<- | [<- | []]]]]]; discriminate.
Qed.

(** X6. A run whose range is refused, or whose token is missing or empty, throws
    before anything else happens: no request is sent and no sheet is touched.
    The two hourly reports refuse every range whose start and end differ. *)
Theorem run_refused_before_any_effect (P : Platform) (rp : Report) (cfg : Config)
    (fuel : nat) (s : World * Locals) :
  (forall e, rp_validate rp cfg = Throw e -> runReport P rp cfg fuel s = (Raise e, s))
  /\ (rp_validate rp cfg = Ok tt ->
      scriptProperties P "TT_ACCESS_TOKEN" = None
        \/ scriptProperties P "TT_ACCESS_TOKEN" = Some ""%string ->
      runReport P rp cfg fuel s =
      (Raise (Error "Missing TT_ACCESS_TOKEN in Script Properties."), s))
  /\ (start_date cfg <> end_date cfg ->
      (rp = ProductCampaignHourly ->
       runReport P rp cfg fuel s =
       (Raise (Error "Hourly breakdown requires start_date == end_date (one calendar day)."),
        s))
      /\ (rp = LiveCampaignHourly ->
          runReport P rp cfg fuel s =
          (Raise (Error "Hourly breakdown requires start_date == end_date (one day)."),
           s))).
Proof.
  assert (Hthrow : forall e, rp_validate rp cfg = Throw e ->
                     runReport P rp cfg fuel s = (Raise e, s)).
  { intros e Hv. unfold runReport. now rewrite Hv. }
  split; [exact Hthrow | split].
  - intros Hv Htok. unfold runReport. rewrite Hv. cbn [lift].
    unfold bind at 1, ret at 1. unfold bind at 1.
    unfold getAccessToken_, getProperty, bind, ret.
    now destruct Htok as [-> | ->].
  - intros Hne. apply String.eqb_neq in Hne.
    split; intros ->; apply Hthrow; cbn [rp_validate ProductCampaignHourly LiveCampaignHourly];
      unfold validateHourlyRange_; now rewrite Hne.
Qed.

Lemma run_refused_before_any_effect_witness :
  runReport (sample_platform 1 JUndefined) ProductCampaignHourly
    (mkConfig (mkEntity "A" "S" "") "2025-06-01" "2025-06-02" JUndefined false [] [] [])
    5 (empty_world, mkLocals 1 [] JNull) =
  (Raise (Error "Hourly breakdown requires start_date == end_date (one calendar day)."),
   (empty_world, mkLocals 1 [] JNull)).
Proof.
  apply (run_refused_before_any_effect (sample_platform 1 JUndefined)
           ProductCampaignHourly
           (mkConfig (mkEntity "A" "S" "") "2025-06-01" "2025-06-02" JUndefined false [] [] [])
           5 (empty_world, mkLocals 1 [] JNull)).
  - discriminate.
  - reflexivity.
Defined.

(** The three ways a run can start. *)
Lemma run_refused_cases (P : Platform) (rp : Report) (cfg : Config)
    (fuel : nat) (s : World * Locals) :
  (exists e, runReport P rp cfg fuel s = (Raise e, s))
  \/ runReport P rp cfg fuel s =
       (Raise (Error "Missing TT_ACCESS_TOKEN in Script Properties."), s)
  \/ exists token,
       rp_validate rp cfg = Ok tt
       /\ scriptProperties P "TT_ACCESS_TOKEN" = Some token /\ token <> ""%string.
Proof.
  destruct (rp_validate rp cfg) as [[] | e] eqn:Hv.
  - destruct (scriptProperties P "TT_ACCESS_TOKEN") as [token |] eqn:Hp.
    + destruct (String.eqb_spec token "") as [-> | Hne].
      * right. left. unfold runReport. rewrite Hv. cbn [lift].
        unfold bind at 1, ret at 1. unfold bind at 1.
        unfold getAccessToken_, getProperty, bind, ret. now rewrite Hp.
      * right. right. now exists token.
    + right. left. unfold runReport. rewrite Hv. cbn [lift].
      unfold bind at 1, ret at 1. unfold bind at 1.
      unfold getAccessToken_, getProperty, bind, ret. now rewrite Hp.
  - left. exists e. unfold runReport. now rewrite Hv.
Qed.

Lemma fetchAllPages_keeps_sheets (P : Platform) (rp : Report) (cfg : Config)
    (token : string) (fuel : nat) (s : World * Locals) :
  sheets (fst (snd (fetchAllPages P rp cfg fuel token s))) = sheets (fst s).
Proof. apply (fetchAllPages_same_sheets P rp cfg token fuel s). Qed.

(** X7. A run of one of the five single-query reports that does not return has
    written nothing: every sheet is as it was.  The one exception is a run
    that gathered a truthy [total_metrics] without any key: the data sheet is
    written, the totals sheet is cleared, and the range of zero columns
    throws. *)
Theorem failed_run_writes_no_data (P : Platform) (rp : Report) (cfg : Config)
    (fuel : nat) (w : World) (l : Locals) :
  In rp single_query_reports ->
  fst (runReport P rp cfg fuel (w, l)) <> Return tt ->
  sheets (fst (snd (runReport P rp cfg fuel (w, l)))) = sheets w
  \/ (fst (runReport P rp cfg fuel (w, l)) =
        Raise (Error "The number of columns in the range must be at least 1.")
      /\ enable_total_metrics cfg = true
      /\ exists rows,
           sheets (fst (snd (runReport P rp cfg fuel (w, l)))) =
           <[rp_totals_sheet rp := []]>
             (<[rp_sheet rp := map JStr (rp_columns rp)
                                 :: data_cells single_cell rows (rp_columns rp)]>
                (sheets w))).
Proof.
  intros Hin Hfail.
  pose proof (single_query_reports_have_columns rp Hin) as Hc.
  destruct (run_refused_cases P rp cfg fuel (w, l)) as [[e He] | [He | [token [Hv [Hp Hne]]]]].
  - left. now rewrite He.
  - left. now rewrite He.
  - rewrite (runReport_run P rp cfg token fuel w l Hv Hp Hne Hc) in *.
    pose proof (fetchAllPages_keeps_sheets P rp cfg token fuel (w, mkLocals 1 [] JNull))
      as Hsheets. cbn [fst] in Hsheets.
    destruct (fetchAllPages P rp cfg fuel token (w, mkLocals 1 [] JNull))
      as [[[] | e |] [w1 l1]]; cbn [fst snd] in *; try (left; exact Hsheets).
    destruct (enable_total_metrics cfg) eqn:Hen; cbn [andb] in *;
      [| contradiction].
    destruct (truthy (totalMetrics l1)); [| contradiction].
    rewrite writeTotalsSheet_run in *.
    destruct (Nat.eqb (length (Object_keys (totalMetrics l1))) 0);
      cbn [fst snd] in *; [| contradiction].
    right. split; [reflexivity | split; [reflexivity |]].
    exists (allRows l1). unfold written, with_sheet. cbn [sheets]. now rewrite Hsheets.
Qed.

Lemma failed_run_writes_no_data_witness :
  let r := runReport (sample_platform 1 (JObj [])) ProductCampaignDaily sample_config 2
             (empty_world, mkLocals 1 [] JNull) in
  sheets (fst (snd r)) = sheets empty_world
  \/ (fst r = Raise (Error "The number of columns in the range must be at least 1.")
      /\ enable_total_metrics sample_config = true
      /\ exists rows,
           sheets (fst (snd r)) =
           <[rp_totals_sheet ProductCampaignDaily := []]>
             (<[rp_sheet ProductCampaignDaily :=
                  map JStr (rp_columns ProductCampaignDaily)
                    :: data_cells single_cell rows (rp_columns ProductCampaignDaily)]>
                (sheets empty_world))).
Proof.
  apply (failed_run_writes_no_data (sample_platform 1 (JObj [])) ProductCampaignDaily
           sample_config 2 empty_world (mkLocals 1 [] JNull)).
  - left. reflexivity.
  - vm_compute. discriminate.
Defined.

(** The exception happens: a server that sends an empty [total_metrics]
    object makes the run throw after the data sheet is written. *)
Example run_with_keyless_totals :
  let r := runReport (sample_platform 1 (JObj [])) ProductCampaignDaily sample_config 2
             (empty_world, mkLocals 1 [] JNull) in
  fst r = Raise (Error "The number of columns in the range must be at least 1.")
  /\ length (sheet_of (fst (snd r)) "GMVMax_Product_Campaign_Daily") = 3%nat
  /\ sheets (fst (snd r)) !! "GMVMax_Product_Campaign_Daily_Totals" = Some [].
Proof. vm_compute. repeat split; reflexivity. Qed.

(** X8. A run of one of the five single-query reports whose range is valid and
    whose token is set, against a server that answers every page request
    with a successful response of [N] pages: the run sends the requests for
    the pages 1..N in order and nothing else, and replaces the data sheet by
    the header row followed by one row per record, in page order.  When
    totals are not enabled or none was truthy, that is all and the run
    returns; when a truthy [total_metrics] with at least one key was
    captured, the totals sheet is replaced by its keys over its values and
    the run returns; when the captured [total_metrics] is truthy and has no
    key, the totals sheet is emptied and the run throws on the range of
    zero columns. *)
Theorem run_writes_every_page (P : Platform) (rp : Report) (cfg : Config)
    (token : string) (N : Z) (items : Z -> list Props) (totals : Z -> JsVal)
    (fuel : nat) (w : World) (l : Locals) :
  In rp single_query_reports ->
  rp_validate rp cfg = Ok tt ->
  scriptProperties P "TT_ACCESS_TOKEN" = Some token -> token <> ""%string ->
  1 <= N -> (Z.to_nat N <= fuel)%nat ->
  serves_pages P N items totals (page_request rp cfg token) ->
  let numbers := pages 1 (Z.to_nat N) in
  let rows := concat (map (fun p => map (row_of (rp_row rp) (cfg_entity cfg)) (items p))
                        numbers) in
  let tm := fold_left (fun cur p => captured cfg (totals p) cur) numbers JNull in
  let w2 := with_sheet (issued w (map (page_request rp cfg token) numbers)) (rp_sheet rp)
              (map JStr (rp_columns rp)
                 :: data_cells single_cell rows (rp_columns rp)) in
  (enable_total_metrics cfg && truthy tm = false ->
     runReport P rp cfg fuel (w, l) = (Return tt, (w2, mkLocals N rows tm)))
  /\ (enable_total_metrics cfg && truthy tm = true -> Object_keys tm <> [] ->
      runReport P rp cfg fuel (w, l) =
      (Return tt,
       (with_sheet w2 (rp_totals_sheet rp)
          [map JStr (Object_keys tm); map (fun k => get tm k) (Object_keys tm)],
        mkLocals N rows tm)))
  /\ (enable_total_metrics cfg && truthy tm = true -> Object_keys tm = [] ->
      runReport P rp cfg fuel (w, l) =
      (Raise (Error "The number of columns in the range must be at least 1."),
       (with_sheet w2 (rp_totals_sheet rp) [], mkLocals N rows tm))).
Proof.
  intros Hin Hv Hp Hne HN Hfuel Hserve numbers rows tm w2.
  pose proof (single_query_reports_have_columns rp Hin) as Hc.
  assert (HS : S (Z.to_nat (N - 1)) = Z.to_nat N) by lia.
  pose proof (fetchAllPages_pages P rp cfg token N items totals Hserve
                (Z.to_nat (N - 1)) fuel w (mkLocals 1 [] JNull)) as Hloop.
  cbn [page allRows totalMetrics] in Hloop. rewrite HS in Hloop.
  specialize (Hloop ltac:(lia) ltac:(lia) ltac:(lia)).
  cbn [app] in Hloop. fold numbers rows tm in Hloop.
  rewrite (runReport_run P rp cfg token fuel w l Hv Hp Hne Hc), Hloop.
  cbn [allRows totalMetrics]. fold (written rp (issued w (map (page_request rp cfg token) numbers)) rows) in w2.
  split; [| split].
  - intros ->. reflexivity.
  - intros -> Hkeys. rewrite writeTotalsSheet_run.
    destruct (Nat.eqb_spec (length (Object_keys tm)) 0) as [E | _]; [| reflexivity].
    destruct (Object_keys tm); [contradiction | discriminate].
  - intros -> Hkeys. rewrite writeTotalsSheet_run. now rewrite Hkeys.
Qed.

Lemma run_writes_every_page_witness :
  runReport (sample_platform 2 (JObj [("cost", JStr "33")])) ProductCampaignDaily
    sample_config 2 (empty_world, mkLocals 1 [] JNull) =
  (Return tt,
   (with_sheet
      (with_sheet
         (issued empty_world
            (map (page_request ProductCampaignDaily sample_config "secret") [1; 2]))
         "GMVMax_Product_Campaign_Daily"
         (map JStr (rp_columns ProductCampaignDaily)
            :: data_cells single_cell
                 (map (row_of row_ProductCampaignDaily (cfg_entity sample_config))
                    (sample_items 1 ++ sample_items 2))
                 (rp_columns ProductCampaignDaily)))
      "GMVMax_Product_Campaign_Daily_Totals" [[JStr "cost"]; [JStr "33"]],
    mkLocals 2
      (map (row_of row_ProductCampaignDaily (cfg_entity sample_config))
         (sample_items 1 ++ sample_items 2))
      (JObj [("cost", JStr "33")]))).
Proof.
  destruct (run_writes_every_page (sample_platform 2 (JObj [("cost", JStr "33")]))
              ProductCampaignDaily sample_config "secret" 2 sample_items
              (fun _ => JObj [("cost", JStr "33")]) 2 empty_world (mkLocals 1 [] JNull))
    as (_ & H & _).
  - left. reflexivity.
  - reflexivity.
  - reflexivity.
  - discriminate.
  - lia.
  - simpl. lia.
  - apply sample_serves_pages. intros p. apply requested_page_single.
  - apply H; [reflexivity | discriminate].
Defined.

(** ** The end of the pagination loop *)

(** A successful response with the records [items], whose [data.page_info]
    is [pageInfo] and whose [total_metrics] is [totals] ([undefined] when
    absent). *)
Definition page_body (items : list Props) (totals pageInfo : JsVal)
    (res : HttpResponse) : Prop :=
  getResponseCode res = 200
  /\ exists bps dps,
       parsedContent res = Ok (JObj bps)
       /\ own bps "code" = Some (JInt 0)
       /\ own bps "data" = Some (JObj dps)
       /\ own dps "list" = Some (JArr (map JObj items))
       /\ get (JObj dps) "page_info" = pageInfo
       /\ get (JObj bps) "total_metrics" = totals.

(** The [total_page] the loop reads in [pageInfo]. *)
Definition total_page_of (pageInfo : JsVal) : JsVal :=
  get (js_or pageInfo (JObj [])) "total_page".

(** The test [page >= totalPage]. *)
Definition is_last_page (pageInfo : JsVal) (p : Z) : bool :=
  Num.geb (Num.ofZ p) (ToNumber (js_or (total_page_of pageInfo) (JInt 1))).

Lemma processPage_body (rp : Report) (cfg : Config) (l : Locals) (res : HttpResponse)
    (items : list Props) (totals pageInfo : JsVal) (w : World) :
  page_body items totals pageInfo res ->
  processPage rp cfg l res (w, l) =
  (Return (is_last_page pageInfo (page l)),
   (w, mkLocals (page l)
         (allRows l ++ map (row_of (rp_row rp) (cfg_entity cfg)) items)
         (captured cfg totals (totalMetrics l)))).
Proof.
  intros (Hcode & bps & dps & Hp & Hc & Hd & Hl & Hpi & Htot).
  apply get_own in Hc, Hd, Hl.
  unfold processPage. rewrite Hcode, Hp. cbn [Z.eqb Pos.eqb negb lift].
  unfold bind at 1, ret at 1. cbn [member lift].
  unfold bind at 1, ret at 1. rewrite Hc.
  change (strict_neq_zero (JInt 0)) with false. cbv iota.
  rewrite Hd, (js_or_truthy (JObj dps)) by reflexivity.
  rewrite Hl, (js_or_truthy (JArr _)) by reflexivity.
  rewrite Hpi, Htot. cbn [forEach_items lift].
  fold (total_page_of pageInfo). fold (is_last_page pageInfo (page l)).
  unfold captured.
  destruct (enable_total_metrics cfg && truthy totals && negb (truthy (totalMetrics l))).
  - unfold bind at 1. unfold modify_locals at 1. cbn [fst snd].
    unfold bind at 1, ret at 1. unfold bind at 1.
    rewrite forEach_push_rows. reflexivity.
  - unfold bind at 1, ret at 1. unfold bind at 1, ret at 1. unfold bind at 1.
    rewrite forEach_push_rows. destruct l; reflexivity.
Qed.

Lemma batch_processPage_body (p : Batch.Pair) (l : Batch.Locals) (res : HttpResponse)
    (items : list Props) (totals pageInfo : JsVal) (w : World) :
  page_body items totals pageInfo res ->
  Batch.processPage p l res (w, l) =
  (Return (is_last_page pageInfo (Batch.page l)),
   (w, Batch.mkLocals (Batch.page l)
         (Batch.allRows l
            ++ map (row_of row_LiveCampaignDailySince (Batch.entity p)) items)
         (merged totals (Batch.totalsAgg l)))).
Proof.
  intros (Hcode & bps & dps & Hp & Hc & Hd & Hl & Hpi & Htot).
  apply get_own in Hc, Hd, Hl.
  unfold Batch.processPage. rewrite Hcode, Hp. cbn [Z.eqb Pos.eqb negb lift].
  unfold bind at 1, ret at 1. cbn [member lift].
  unfold bind at 1, ret at 1. rewrite Hc.
  change (strict_neq_zero (JInt 0)) with false. cbv iota.
  rewrite Hd, (js_or_truthy (JObj dps)) by reflexivity.
  rewrite Hl, (js_or_truthy (JArr _)) by reflexivity.
  rewrite Hpi, Htot. cbn [forEach_items lift].
  fold (total_page_of pageInfo). fold (is_last_page pageInfo (Batch.page l)).
  unfold merged.
  destruct (truthy totals).
  - unfold bind at 1. unfold modify_locals at 1. cbn [fst snd].
    unfold bind at 1, ret at 1. unfold bind at 1.
    rewrite batch_forEach_push_rows. reflexivity.
  - unfold bind at 1, ret at 1. unfold bind at 1, ret at 1. unfold bind at 1.
    rewrite batch_forEach_push_rows. destruct l; reflexivity.
Qed.

Lemma is_last_page_default (pageInfo : JsVal) (p : Z) :
  truthy (total_page_of pageInfo) = false -> is_last_page pageInfo p = (1 <=? p).
Proof.
  intros Hf. unfold is_last_page. rewrite (js_or_falsy _ _ Hf).
  cbn [ToNumber JInt]. apply geb_ofZ.
Qed.

Lemma is_last_page_never (pageInfo : JsVal) (p : Z) :
  truthy (total_page_of pageInfo) = true ->
  ToNumber (total_page_of pageInfo) = Num.NaN ->
  is_last_page pageInfo p = false.
Proof.
  intros Ht Hn. unfold is_last_page. rewrite (js_or_truthy _ _ Ht), Hn. reflexivity.
Qed.

(** A server that answers every request of a query with a successful
    response carrying the same [page_info]. *)
Definition serves_page_info (P : Platform) (items : Z -> list Props)
    (totals : Z -> JsVal) (pageInfo : JsVal) (request : Z -> Request) : Prop :=
  forall hist p,
    exists res, server P hist (request p) = Ok res
                /\ page_body (items p) (totals p) pageInfo res.

Lemma fetchAllPages_never_ends (P : Platform) (rp : Report) (cfg : Config)
    (token : string) (items : Z -> list Props) (totals : Z -> JsVal)
    (pageInfo : JsVal) :
  serves_page_info P items totals pageInfo (page_request rp cfg token) ->
  truthy (total_page_of pageInfo) = true ->
  ToNumber (total_page_of pageInfo) = Num.NaN ->
  forall (fuel : nat) (w : World) (l : Locals),
    fst (fetchAllPages P rp cfg fuel token (w, l)) = Diverge
    /\ requests (fst (snd (fetchAllPages P rp cfg fuel token (w, l)))) =
       requests w ++ map (page_request rp cfg token) (pages (page l) fuel).
Proof.
  intros Hserve Ht Hn. induction fuel as [| fuel IH]; intros w l.
  - cbn. now rewrite app_nil_r.
  - destruct (Hserve (requests w) (page l)) as [res [Hres1 Hres]].
    assert (Hstep : fetchAllPages P rp cfg (S fuel) token (w, l) =
                    fetchAllPages P rp cfg fuel token
                      (issued w [page_request rp cfg token (page l)],
                       next_page
                         (mkLocals (page l)
                            (allRows l ++ map (row_of (rp_row rp) (cfg_entity cfg))
                                            (items (page l)))
                            (captured cfg (totals (page l)) (totalMetrics l))))).
    { cbn [fetchAllPages]. unfold bind at 1. rewrite fetchPage_run, Hres1.
      rewrite (processPage_body rp cfg l res _ _ _ _ Hres).
      now rewrite (is_last_page_never pageInfo (page l) Ht Hn). }
    rewrite Hstep.
    match goal with
    | |- context [fetchAllPages P rp cfg fuel token (?w', ?l')] =>
        destruct (IH w' l') as [IH1 IH2]
    end.
    split; [exact IH1 |]. rewrite IH2. cbn [issued requests next_page page pages map].
    now rewrite <- app_assoc.
Qed.

Lemma batch_fetchAllPages_never_ends (P : Platform) (wd : string * string)
    (pr : Batch.Pair) (token : string) (items : Z -> list Props) (totals : Z -> JsVal)
    (pageInfo : JsVal) :
  serves_page_info P items totals pageInfo (Batch.page_request wd pr token) ->
  truthy (total_page_of pageInfo) = true ->
  ToNumber (total_page_of pageInfo) = Num.NaN ->
  forall (fuel : nat) (w : World) (l : Batch.Locals),
    fst (Batch.fetchAllPages P fuel wd pr token (w, l)) = Diverge
    /\ requests (fst (snd (Batch.fetchAllPages P fuel wd pr token (w, l)))) =
       requests w ++ map (Batch.page_request wd pr token) (pages (Batch.page l) fuel).
Proof.
  intros Hserve Ht Hn. induction fuel as [| fuel IH]; intros w l.
  - cbn. now rewrite app_nil_r.
  - destruct (Hserve (requests w) (Batch.page l)) as [res [Hres1 Hres]].
    assert (Hstep : Batch.fetchAllPages P (S fuel) wd pr token (w, l) =
                    Batch.fetchAllPages P fuel wd pr token
                      (issued w [Batch.page_request wd pr token (Batch.page l)],
                       Batch.next_page
                         (Batch.mkLocals (Batch.page l)
                            (Batch.allRows l
                               ++ map (row_of row_LiveCampaignDailySince (Batch.entity pr))
                                    (items (Batch.page l)))
                            (merged (totals (Batch.page l)) (Batch.totalsAgg l))))).
    { cbn [Batch.fetchAllPages]. unfold bind at 1. rewrite batch_fetchPage_run, Hres1.
      rewrite (batch_processPage_body pr l res _ _ _ _ Hres).
      now rewrite (is_last_page_never pageInfo (Batch.page l) Ht Hn). }
    rewrite Hstep.
    match goal with
    | |- context [Batch.fetchAllPages P fuel wd pr token (?w', ?l')] =>
        destruct (IH w' l') as [IH1 IH2]
    end.
    split; [exact IH1 |]. rewrite IH2.
    cbn [issued requests Batch.next_page Batch.page pages map].
    now rewrite <- app_assoc.
Qed.

(** X9. When the responses carry no [total_page], or a falsy one, the loops take
    it to be 1: started at page 1 they return after a single request, with
    the records of that page. *)
Theorem loop_takes_missing_total_page_as_one (P : Platform) (items : Z -> list Props)
    (totals : Z -> JsVal) (pageInfo : JsVal) (fuel : nat) (w : World) :
  truthy (total_page_of pageInfo) = false ->
  (forall rp cfg token l,
     serves_page_info P items totals pageInfo (page_request rp cfg token) ->
     page l = 1 ->
     fetchAllPages P rp cfg (S fuel) token (w, l) =
     (Return tt,
      (issued w [page_request rp cfg token 1],
       mkLocals 1 (allRows l ++ map (row_of (rp_row rp) (cfg_entity cfg)) (items 1))
         (captured cfg (totals 1) (totalMetrics l)))))
  /\ (forall wd pr token l,
        serves_page_info P items totals pageInfo (Batch.page_request wd pr token) ->
        Batch.page l = 1 ->
        Batch.fetchAllPages P (S fuel) wd pr token (w, l) =
        (Return tt,
         (issued w [Batch.page_request wd pr token 1],
          Batch.mkLocals 1
            (Batch.allRows l
               ++ map (row_of row_LiveCampaignDailySince (Batch.entity pr)) (items 1))
            (merged (totals 1) (Batch.totalsAgg l))))).
Proof.
  intros Hf. split.
  - intros rp cfg token l Hserve Hpage.
    cbn [fetchAllPages]. unfold bind at 1. rewrite fetchPage_run.
    destruct (Hserve (requests w) (page l)) as [res [-> Hres]].
    rewrite (processPage_body rp cfg l res _ _ _ _ Hres).
    rewrite (is_last_page_default pageInfo (page l) Hf), Hpage. reflexivity.
  - intros wd pr token l Hserve Hpage.
    cbn [Batch.fetchAllPages]. unfold bind at 1. rewrite batch_fetchPage_run.
    destruct (Hserve (requests w) (Batch.page l)) as [res [-> Hres]].
    rewrite (batch_processPage_body pr l res _ _ _ _ Hres).
    rewrite (is_last_page_default pageInfo (Batch.page l) Hf), Hpage. reflexivity.
Qed.

(** X10. When the responses carry a truthy [total_page] that is not a number (its
    [Number] is [NaN]), the test [page >= totalPage] is never true: whatever
    the number of turns allowed, the loops have not returned and have sent
    one request per turn, for the pages in order. *)
Theorem loop_never_ends_on_a_non_numeric_total_page (P : Platform)
    (items : Z -> list Props) (totals : Z -> JsVal) (pageInfo : JsVal)
    (fuel : nat) (w : World) :
  truthy (total_page_of pageInfo) = true ->
  ToNumber (total_page_of pageInfo) = Num.NaN ->
  (forall rp cfg token l,
     serves_page_info P items totals pageInfo (page_request rp cfg token) ->
     fst (fetchAllPages P rp cfg fuel token (w, l)) = Diverge
     /\ requests (fst (snd (fetchAllPages P rp cfg fuel token (w, l)))) =
        requests w ++ map (page_request rp cfg token) (pages (page l) fuel))
  /\ (forall wd pr token l,
        serves_page_info P items totals pageInfo (Batch.page_request wd pr token) ->
        fst (Batch.fetchAllPages P fuel wd pr token (w, l)) = Diverge
        /\ requests (fst (snd (Batch.fetchAllPages P fuel wd pr token (w, l)))) =
           requests w
             ++ map (Batch.page_request wd pr token) (pages (Batch.page l) fuel)).
Proof.
  intros Ht Hn. split.
  - intros rp cfg token l Hserve.
    apply (fetchAllPages_never_ends P rp cfg token items totals pageInfo Hserve Ht Hn).
  - intros wd pr token l Hserve.
    apply (batch_fetchAllPages_never_ends P wd pr token items totals pageInfo
             Hserve Ht Hn).
Qed.

(** A server whose responses carry the properties [info] beside the list. *)
Definition info_server (info : Props) (hist : list Request) (req : Request) :
    Result HttpResponse :=
  Ok (mkResponse 200 "{...}"
        (Ok (JObj [("code", JInt 0);
                   ("data",
                    JObj (("list", JArr (map JObj (sample_items (requested_page req))))
                            :: info))]))).

Definition info_platform (info : Props) : Platform :=
  mkPlatform (info_server info) sample_properties (fun _ => 0) UTC (fun _ => UTC).

Lemma info_server_serves (info : Props) (request : Z -> Request) :
  (forall p, requested_page (request p) = p) ->
  serves_page_info (info_platform info) sample_items (fun _ => JUndefined)
    (default JUndefined (own info "page_info")) request.
Proof.
  intros Hreq hist p. eexists. split; [reflexivity |].
  rewrite Hreq. split; [reflexivity |].
  do 2 eexists. repeat split; reflexivity.
Qed.

Lemma loop_takes_missing_total_page_as_one_witness :
  fetchAllPages (info_platform []) ProductCampaignDaily sample_config 1 "secret"
    (empty_world, mkLocals 1 [] JNull) =
  (Return tt,
   (issued empty_world [page_request ProductCampaignDaily sample_config "secret" 1],
    mkLocals 1
      (map (row_of row_ProductCampaignDaily (cfg_entity sample_config)) (sample_items 1))
      JNull)).
Proof.
  apply (loop_takes_missing_total_page_as_one (info_platform []) sample_items
           (fun _ => JUndefined) JUndefined 0 empty_world).
  - reflexivity.
  - apply (info_server_serves []). intros p. apply requested_page_single.
  - reflexivity.
Defined.

Lemma loop_never_ends_on_a_non_numeric_total_page_witness :
  fst (fetchAllPages
         (info_platform [("page_info", JObj [("total_page", JStr "many")])])
         ProductCampaignDaily sample_config 3 "secret"
         (empty_world, mkLocals 1 [] JNull)) = Diverge
  /\ requests (fst (snd (fetchAllPages
         (info_platform [("page_info", JObj [("total_page", JStr "many")])])
         ProductCampaignDaily sample_config 3 "secret"
         (empty_world, mkLocals 1 [] JNull)))) =
     map (page_request ProductCampaignDaily sample_config "secret") [1; 2; 3].
Proof.
  apply (loop_never_ends_on_a_non_numeric_total_page
           (info_platform [("page_info", JObj [("total_page", JStr "many")])])
           sample_items (fun _ => JUndefined) (JObj [("total_page", JStr "many")])
           3 empty_world).
  - reflexivity.
  - vm_compute. reflexivity.
  - apply (info_server_serves [("page_info", JObj [("total_page", JStr "many")])]).
    intros p. apply requested_page_single.
Defined.

(** ** The first response of a run *)

(** X11. A run whose range is valid and whose token is set sends the request for
    page 1; when that request fails, the run throws at once, having sent
    this one request and written nothing.  It fails when the fetch itself
    throws, when the status is not 200 (the message carries the status and
    the text), when the text is not JSON, and when the [code] of the body is
    anything but the number 0: a missing code or the string "0" count as
    errors (the message carries the code and the message of the body). *)
Theorem run_throws_on_a_failed_first_response (P : Platform) (rp : Report)
    (cfg : Config) (token : string) (fuel : nat) (w : World) (l : Locals) :
  rp_validate rp cfg = Ok tt ->
  scriptProperties P "TT_ACCESS_TOKEN" = Some token -> token <> ""%string ->
  let first := page_request rp cfg token 1 in
  let after e := (Raise e, (issued w [first], mkLocals 1 [] JNull)) in
  (forall e, server P (requests w) first = Throw e ->
     runReport P rp cfg (S fuel) (w, l) = after e)
  /\ (forall res, server P (requests w) first = Ok res ->
      (getResponseCode res <> 200 ->
       runReport P rp cfg (S fuel) (w, l) =
       after (Error (rp_http_error rp (getResponseCode res) (getContentText res))))
      /\ (forall e, getResponseCode res = 200 -> parsedContent res = Throw e ->
          runReport P rp cfg (S fuel) (w, l) = after e)
      /\ (forall bps, getResponseCode res = 200 -> parsedContent res = Ok (JObj bps) ->
          (forall n, own bps "code" = Some (JNum n) -> Num.eqb n Num.zero = false) ->
          runReport P rp cfg (S fuel) (w, l) =
          after (Error (rp_api_error rp (get (JObj bps) "code")
                          (get (JObj bps) "message"))))).
Proof.
  intros Hv Hp Hne first after.
  assert (Hrun : runReport P rp cfg (S fuel) (w, l) =
                 match fetchAllPages P rp cfg (S fuel) token (w, mkLocals 1 [] JNull) with
                 | (Raise e, s1) => (Raise e, s1)
                 | (Diverge, s1) => (Diverge, s1)
                 | (Return _, s1) =>
                     (let* l1 := get_locals in
                      writeRowsToSheet_ (rp_sheet rp) (allRows l1) (rp_columns rp);;
                      if enable_total_metrics cfg && truthy (totalMetrics l1)
                      then writeTotalsSheet_ (rp_totals_sheet rp) (totalMetrics l1)
                      else ret tt) s1
                 end).
  { unfold runReport. rewrite Hv. cbn [lift].
    unfold bind at 1, ret at 1. unfold bind at 1.
    rewrite (getAccessToken_run P token (w, l) Hp Hne).
    unfold bind at 1. unfold modify_locals at 1. cbn [fst snd].
    unfold bind at 1.
    now destruct (fetchAllPages P rp cfg (S fuel) token (w, mkLocals 1 [] JNull))
      as [[[] | e |] s1]. }
  assert (Hloop : forall e s1,
            fetchPage P rp cfg token (w, mkLocals 1 [] JNull) = (Raise e, s1) ->
            runReport P rp cfg (S fuel) (w, l) = (Raise e, s1)).
  { intros e s1 Hf. rewrite Hrun. cbn [fetchAllPages]. unfold bind at 1.
    now rewrite Hf. }
  split.
  - intros e Hs. apply Hloop. rewrite fetchPage_run. cbn [page].
    fold first. now rewrite Hs.
  - intros res Hs.
    assert (Hpage : forall e,
              processPage rp cfg (mkLocals 1 [] JNull) res
                (issued w [first], mkLocals 1 [] JNull)
              = (Raise e, (issued w [first], mkLocals 1 [] JNull)) ->
              runReport P rp cfg (S fuel) (w, l) = after e).
    { intros e Hpp. apply Hloop. rewrite fetchPage_run. cbn [page].
      fold first. now rewrite Hs. }
    split; [| split].
    + intros Hcode. apply Hpage. unfold processPage.
      destruct (Z.eqb_spec (getResponseCode res) 200) as [E | _]; [contradiction |].
      reflexivity.
    + intros e Hcode Hparse. apply Hpage. unfold processPage.
      rewrite Hcode, Hparse. reflexivity.
    + intros bps Hcode Hparse Hnum. apply Hpage. unfold processPage.
      rewrite Hcode, Hparse. cbn [Z.eqb Pos.eqb negb lift].
      unfold bind at 1, ret at 1. cbn [member lift].
      unfold bind at 1, ret at 1.
      assert (Hstrict : strict_neq_zero (get (JObj bps) "code") = true).
      { cbn [get]. destruct (own bps "code") as [v |] eqn:E; cbn [default];
          [| reflexivity].
        destruct v as [| | | n | | |]; try reflexivity.
        change (negb (Num.eqb n Num.zero) = true). now rewrite (Hnum n eq_refl). }
      now rewrite Hstrict.
Qed.

(** A server that answers with the envelope code [code] and no data. *)
Definition coded_server (code : JsVal) (hist : list Request) (req : Request) :
    Result HttpResponse :=
  Ok (mkResponse 200 "{...}" (Ok (JObj [("code", code); ("message", JStr "bad")]))).

Lemma run_throws_on_a_failed_first_response_witness :
  runReport
    (mkPlatform (coded_server (JStr "0")) sample_properties (fun _ => 0) UTC (fun _ => UTC))
    ProductCampaignDaily sample_config 1 (empty_world, mkLocals 1 [] JNull) =
  (Raise (Error "API returned code 0 message: bad"),
   (issued empty_world [page_request ProductCampaignDaily sample_config "secret" 1],
    mkLocals 1 [] JNull)).
Proof.
  destruct (run_throws_on_a_failed_first_response
              (mkPlatform (coded_server (JStr "0")) sample_properties
                 (fun _ => 0) UTC (fun _ => UTC))
              ProductCampaignDaily sample_config "secret" 0 empty_world
              (mkLocals 1 [] JNull)) as [_ H].
  - reflexivity.
  - reflexivity.
  - discriminate.
  - destruct (H _ eq_refl) as (_ & _ & H3).
    apply (H3 [("code", JStr "0"); ("message", JStr "bad")]).
    + reflexivity.
    + reflexivity.
    + intros n Hn. discriminate Hn.
Defined.

(** ** The number and the width of the windows *)

(** The window number [i] of the range of days [a]..[b]. *)
Definition window_at (a b : Z) (i : nat) : Z * Z :=
  (a + 30 * Z.of_nat i, Z.min b (a + 30 * Z.of_nat i + 29)).

Lemma windows_loop_empty (fmt : Z -> string) (offset a b : Z) :
  b < a -> windows_loop fmt (b * msDay - offset) (a * msDay - offset) = [].
Proof.
  intros H. rewrite windows_loop_step.
  destruct (Z_le_dec (a * msDay - offset) (b * msDay - offset)) as [Hle | _];
    [| reflexivity].
  unfold msDay in Hle. lia.
Qed.

Lemma windows_loop_closed (fmt : Z -> string) (offset b : Z) (k : nat) :
  forall a, a <= b -> Z.to_nat ((b - a) / 30) = k ->
    windows_loop fmt (b * msDay - offset) (a * msDay - offset) =
    map (fun i => (fmt (fst (window_at a b i) * msDay - offset),
                   fmt (snd (window_at a b i) * msDay - offset)))
      (seq 0 (S k)).
Proof.
  induction k as [| k IH]; intros a Hab Hk; rewrite windows_loop_step;
    (destruct (Z_le_dec (a * msDay - offset) (b * msDay - offset)) as [_ | Hgt];
     [| unfold msDay in Hgt; lia]).
  - assert (Hb : b <= a + 29) by (Z.div_mod_to_equations; lia).
    assert (Hq : Z.min (b * msDay - offset) (a * msDay - offset + 29 * msDay)
                 = b * msDay - offset) by (unfold msDay; lia).
    rewrite Hq.
    replace (b * msDay - offset + msDay) with ((b + 1) * msDay - offset) by ring.
    rewrite windows_loop_empty by lia.
    cbn [seq map window_at fst snd]. rewrite Z.mul_0_r, Z.add_0_r.
    now rewrite (Z.min_l b (a + 29)) by lia.
  - assert (Hb : a + 30 <= b) by (Z.div_mod_to_equations; lia).
    assert (Hq : Z.min (b * msDay - offset) (a * msDay - offset + 29 * msDay)
                 = (a + 29) * msDay - offset) by (unfold msDay; lia).
    rewrite Hq.
    replace ((a + 29) * msDay - offset + msDay) with ((a + 30) * msDay - offset) by ring.
    rewrite (IH (a + 30)); [| lia |].
    2: { replace (b - (a + 30)) with (b - a + (-1) * 30) by ring.
         rewrite Z.div_add by lia. lia. }
    change (seq 0 (S (S k))) with (0%nat :: seq 1 (S k)).
    rewrite <- seq_shift. rewrite (map_cons _ 0%nat). rewrite map_map. f_equal.
    + cbn [window_at fst snd]. rewrite Z.mul_0_r, Z.add_0_r.
      now rewrite (Z.min_r b (a + 29)) by lia.
    + apply map_ext. intros i. unfold window_at. cbn [fst snd].
      now replace (a + 30 + 30 * Z.of_nat i) with (a + 30 * Z.of_nat (S i)) by lia.
Qed.

(** X12. In zones without daylight saving, for two calendar dates the planner
    returns no window when the start is after the end.  With start <= end,
    read in the script's zone and printed in a zone at most a day further
    east, it returns [(b - a) / 30 + 1] windows for a range of days
    [a]..[b]: window [i] starts [30 * i] days after the start date and ends
    29 days later, or at the end date for the last one.  So every window
    but the last spans exactly 30 days. *)
Theorem windows_are_cut_every_thirty_days
    (scriptOffset tzOffset : Z) (startDateStr endDateStr : string) (a b : Z) :
  iso_day startDateStr = Some a -> iso_day endDateStr = Some b ->
  let windows := buildDailyWindows_ (fixed_zone scriptOffset) (fixed_zone tzOffset)
                   startDateStr endDateStr in
  (b < a -> windows = [])
  /\ (0 <= tzOffset - scriptOffset < msDay -> a <= b ->
      windows =
      map (fun i => (format_day (fst (window_at a b i)),
                     format_day (snd (window_at a b i))))
        (seq 0 (Z.to_nat ((b - a) / 30 + 1)))
      /\ forall i, (S i < Z.to_nat ((b - a) / 30 + 1))%nat ->
           snd (window_at a b i) = fst (window_at a b i) + 29
           /\ fst (window_at a b (S i)) = snd (window_at a b i) + 1).
Proof.
  intros Ha Hb windows. subst windows.
  rewrite (buildDailyWindows_fixed scriptOffset tzOffset _ _ a b Ha Hb).
  split.
  - intros Hlt. now apply windows_loop_empty.
  - intros Hzone Hab. split.
    + rewrite (windows_loop_closed _ _ b (Z.to_nat ((b - a) / 30)) a Hab eq_refl).
      assert (Hdiv : 0 <= (b - a) / 30) by (apply Z.div_pos; lia).
      replace (Z.to_nat ((b - a) / 30 + 1)) with (S (Z.to_nat ((b - a) / 30))) by lia.
      apply map_ext. intros i.
      now rewrite !(formatDate_of_midnight scriptOffset tzOffset _ Hzone).
    + intros i Hi. unfold window_at. cbn [fst snd].
      assert (Hdiv : Z.of_nat i + 1 < (b - a) / 30 + 1) by lia.
      assert (30 * (Z.of_nat i + 1) <= b - a) by (Z.div_mod_to_equations; lia).
      lia.
Qed.

Lemma windows_are_cut_every_thirty_days_witness :
  buildDailyWindows_ (fixed_zone seven_hours) (fixed_zone seven_hours)
    "2025-06-01" "2025-08-15" =
  [("2025-06-01", "2025-06-30"); ("2025-07-01", "2025-07-30");
   ("2025-07-31", "2025-08-15")]
  /\ buildDailyWindows_ (fixed_zone seven_hours) (fixed_zone seven_hours)
       "2025-08-15" "2025-06-01" = [].
Proof.
  split.
  - destruct (windows_are_cut_every_thirty_days seven_hours seven_hours
                "2025-06-01" "2025-08-15"
                (days_from_civil 2025 6 1) (days_from_civil 2025 8 15))
      as [_ H]; [reflexivity | reflexivity |].
    destruct H as [H _]; [unfold seven_hours, msDay; lia | vm_compute; discriminate |].
    rewrite H. reflexivity.
  - destruct (windows_are_cut_every_thirty_days seven_hours seven_hours
                "2025-08-15" "2025-06-01"
                (days_from_civil 2025 8 15) (days_from_civil 2025 6 1))
      as [H _]; [reflexivity | reflexivity |].
    apply H. vm_compute. reflexivity.
Defined.

(** ** The batch run from start to end *)

(** The windows of a run that starts in the world [w]: from the fixed start
    date to today in the report's zone. *)
Definition batch_windows (P : Platform) (w : World) : list (string * string) :=
  buildDailyWindows_ (scriptZone P) (timeZone P Batch.TZ) Batch.START_FIXED
    (formatDate_ymd (timeZone P Batch.TZ) (clock P (length (requests w)))).

(** What the two sinks of the batch run leave. *)
Definition batch_written (w : World) (l : Batch.Locals) : World :=
  let w2 := with_sheet w Batch.data_sheet
              (map JStr (live_campaign_columns "stat_time_day")
                 :: data_cells batch_cell (Batch.allRows l)
                      (live_campaign_columns "stat_time_day")) in
  match recomputeRoi (Batch.totalsAgg l) with
  | [] => w2
  | totals => with_sheet w2 Batch.totals_sheet [map JStr (map fst totals);
                                                  map (fun k => get (JObj totals) k)
                                                    (map fst totals)]
  end.

Lemma batch_run_run (P : Platform) (ADVERTISER_IDS STORE_IDS : list string)
    (pairs : list Batch.Pair) (token : string) (fuel : nat) (w : World)
    (l : Batch.Locals) :
  scriptProperties P "TT_ACCESS_TOKEN" = Some token -> token <> ""%string ->
  Batch.make_pairs ADVERTISER_IDS STORE_IDS = Ok pairs ->
  Batch.runLiveGmvMaxCampaignDaily_SinceJune1_Simple P ADVERTISER_IDS STORE_IDS fuel (w, l) =
  match forEach (batch_windows P w)
          (fun wd => forEach pairs (Batch.fetchPair P fuel token wd))
          (w, Batch.mkLocals 1 [] []) with
  | (Return _, (w1, l1)) =>
      (Return tt,
       (batch_written w1 l1, Batch.set_totals recomputeRoi l1))
  | (Raise e, s1) => (Raise e, s1)
  | (Diverge, s1) => (Diverge, s1)
  end.
Proof.
  intros Hp Hne Hpairs. unfold Batch.runLiveGmvMaxCampaignDaily_SinceJune1_Simple.
  unfold bind at 1, getProperty at 1, ret at 1. rewrite Hp.
  assert (Ht : truthy (JStr token) = true).
  { cbn [truthy]. now destruct (String.eqb_spec token ""). }
  rewrite Ht. cbn [negb ToString].
  unfold bind at 1, Date_now at 1. cbn [fst].
  fold (batch_windows P w). rewrite Hpairs. cbn [lift].
  unfold bind at 1, ret at 1.
  unfold bind at 1, modify_locals at 1. cbn [fst snd].
  unfold bind at 1.
  destruct (forEach (batch_windows P w)
              (fun wd => forEach pairs (Batch.fetchPair P fuel token wd))
              (w, Batch.mkLocals 1 [] [])) as [[[] | e |] [w1 l1]]; try reflexivity.
  unfold bind at 1, modify_locals at 1. cbn [fst snd].
  unfold bind at 1, get_locals at 1. cbn [snd].
  unfold bind at 1.
  rewrite batch_writeRowsToSheet_run by discriminate.
  unfold batch_written. cbn [Batch.set_totals Batch.allRows Batch.totalsAgg Object_keys].
  destruct (recomputeRoi (Batch.totalsAgg l1)) as [| kv totals] eqn:E.
  - reflexivity.
  - cbn [length map Nat.eqb negb]. rewrite writeTotalsSheet_run.
    reflexivity.
Qed.

(** *** An error in one combination *)

(** The combinations of a window and a pair, in the order the two nested
    loops visit them. *)
Definition combinations (windows : list (string * string)) (pairs : list Batch.Pair) :
    list ((string * string) * Batch.Pair) :=
  flat_map (fun wd => map (fun p => (wd, p)) pairs) windows.

Lemma forEach_app {L A} (xs ys : list A) (body : A -> M L unit) (s : World * L) :
  forEach (xs ++ ys) body s =
  match forEach xs body s with
  | (Return _, s') => forEach ys body s'
  | r => r
  end.
Proof.
  revert s. induction xs as [| x xs IH]; intros s; [reflexivity |].
  cbn [app forEach]. unfold bind.
  destruct (body x s) as [[[] | e |] s']; [apply IH | reflexivity | reflexivity].
Qed.

Lemma forEach_map {L A B} (f : A -> B) (xs : list A) (body : B -> M L unit)
    (s : World * L) :
  forEach (map f xs) body s = forEach xs (fun x => body (f x)) s.
Proof.
  revert s. induction xs as [| x xs IH]; intros s; [reflexivity |].
  cbn [map forEach]. unfold bind.
  destruct (body (f x) s) as [[[] | e |] s']; [apply IH | reflexivity | reflexivity].
Qed.

Lemma forEach_combinations {L} (windows : list (string * string))
    (pairs : list Batch.Pair) (body : string * string -> Batch.Pair -> M L unit)
    (s : World * L) :
  forEach windows (fun wd => forEach pairs (body wd)) s =
  forEach (combinations windows pairs) (fun c => body (fst c) (snd c)) s.
Proof.
  revert s. induction windows as [| wd windows IH]; intros s; [reflexivity |].
  cbn [combinations flat_map forEach]. fold (combinations windows pairs).
  rewrite forEach_app, forEach_map. cbn [fst snd]. unfold bind.
  change (fun x : Batch.Pair => body wd x) with (body wd).
  destruct (forEach pairs (body wd) s) as [[[] | e |] s'];
    [apply IH | reflexivity | reflexivity].
Qed.

(** The error log keeps its rows, and its last row has content. *)
Definition log_grows : relation (World * Batch.Locals) :=
  fun s s' =>
    tidy (sheet_of (fst s) "GMVMax_Errors") ->
    tidy (sheet_of (fst s') "GMVMax_Errors")
    /\ exists more,
         sheet_of (fst s') "GMVMax_Errors" = sheet_of (fst s) "GMVMax_Errors" ++ more.

#[local] Instance log_grows_preorder : PreOrder log_grows.
Proof.
  split; unfold log_grows.
  - intros s Ht. split; [exact Ht |]. exists []. now rewrite app_nil_r.
  - intros a b c Hab Hbc Ht.
    destruct (Hab Ht) as [Ht1 [m1 H1]]. destruct (Hbc Ht1) as [Ht2 [m2 H2]].
    split; [exact Ht2 |]. exists (m1 ++ m2). now rewrite H2, H1, app_assoc.
Qed.

Lemma error_row_has_content (ts : string) (wd : string * string) (p : Batch.Pair)
    (e : JsError) :
  blank_row [JStr ts; JStr (fst p); JStr (snd p);
             JStr (fst wd ++ ".." ++ snd wd)%string; JStr (Batch.error_text e)] = false.
Proof.
  cbn [blank_row forallb blank_cell].
  assert (H : String.eqb (fst wd ++ ".." ++ snd wd)%string "" = false).
  { destruct (fst wd); reflexivity. }
  rewrite H. now rewrite !andb_false_r.
Qed.

Lemma log_appended_grows (sh : Sheet) (row : list JsVal) :
  tidy sh -> exists more, log_appended sh row = sh ++ more.
Proof.
  intros Ht. unfold log_appended.
  destruct (Nat.eqb_spec (getLastRow sh) 0) as [E | _].
  - rewrite (tidy_empty sh Ht E). now exists [error_log_header; row].
  - now exists [row].
Qed.

(** The state after the [catch] block of a combination whose fetch threw. *)
Lemma fetchPair_caught (P : Platform) (fuel : nat) (token : string)
    (wd : string * string) (p : Batch.Pair) (s0 s1 : World * Batch.Locals)
    (e : JsError) :
  tidy (sheet_of (fst s0) "GMVMax_Errors") ->
  Batch.fetchAllPages P fuel wd p token (fst s0, Batch.first_page (snd s0))
    = (Raise e, s1) ->
  Batch.fetchPair P fuel token wd p s0 =
  (Return tt,
   (with_sheet (fst s1) "GMVMax_Errors"
      (log_appended (sheet_of (fst s0) "GMVMax_Errors")
         [JStr (formatDate_ymd_hms (timeZone P Batch.TZ)
                  (clock P (length (requests (fst s1)))));
          JStr (fst p); JStr (snd p);
          JStr (fst wd ++ ".." ++ snd wd)%string; JStr (Batch.error_text e)]),
    snd s1)).
Proof.
  intros Htidy Hfail. destruct s0 as [w0 l0]. cbn [fst snd] in *.
  assert (Hsheet1 : sheet_of (fst s1) "GMVMax_Errors" = sheet_of w0 "GMVMax_Errors").
  { pose proof (batch_fetchAllPages_same_sheets P wd p token fuel
                  (w0, Batch.first_page l0)) as H.
    rewrite Hfail in H. unfold same_sheets in H. cbn [fst snd] in H.
    unfold sheet_of. now rewrite H. }
  rewrite fetchPair_run, Hfail. destruct s1 as [w1 l1].
  rewrite logErrorRow_run by (cbn [fst] in Hsheet1; now rewrite Hsheet1).
  rewrite error_log_row_of_record. cbn [fst snd] in *. now rewrite Hsheet1.
Qed.

Lemma fetchPair_log_grows (P : Platform) (fuel : nat) (token : string)
    (wd : string * string) (p : Batch.Pair) :
  preserves log_grows (Batch.fetchPair P fuel token wd p).
Proof.
  intros [w l] Htidy. cbn [fst] in Htidy.
  pose proof (batch_fetchAllPages_same_sheets P wd p token fuel
                (w, Batch.first_page l)) as Hsame.
  unfold same_sheets in Hsame. cbn [fst snd] in Hsame.
  destruct (Batch.fetchAllPages P fuel wd p token (w, Batch.first_page l))
    as [[[] | e |] s1] eqn:Hfetch.
  - rewrite fetchPair_run, Hfetch. cbn [fst snd] in *. unfold sheet_of.
    rewrite Hsame. split; [exact Htidy |]. exists []. now rewrite app_nil_r.
  - rewrite (fetchPair_caught P fuel token wd p (w, l) s1 e Htidy Hfetch).
    cbn [fst snd]. rewrite sheet_of_with_sheet. split.
    + apply log_appended_tidy, error_row_has_content.
    + now apply log_appended_grows.
  - rewrite fetchPair_run, Hfetch. cbn [fst snd] in *. unfold sheet_of.
    rewrite Hsame. split; [exact Htidy |]. exists []. now rewrite app_nil_r.
Qed.

Lemma logErrorRow_keeps_locals {L} (name : string) (obj : Props) (s : World * L) :
  snd (snd (Batch.logErrorRow_ name obj s)) = snd s.
Proof.
  destruct s as [w l]. unfold Batch.logErrorRow_, bind at 1.
  rewrite getOrInsertSheet_run.
  assert (Happend : forall s' : World * L,
            snd (snd (appendRow name
                        (map (fun k => js_or (get (JObj obj) k) (JStr ""))
                           ["ts"; "advertiser_id"; "store_id"; "window"; "message"]) s'))
            = snd s').
  { intros [w' l']. unfold appendRow, bind. now rewrite getOrInsertSheet_run. }
  destruct (Nat.eqb (getLastRow (sheet_of w name)) 0).
  - unfold bind.
    rewrite (setValues_run name 1 [error_log_header] 5); try discriminate.
    + now rewrite Happend.
    + repeat constructor.
  - unfold bind, ret. now rewrite Happend.
Qed.

Lemma fetchPair_rows_grow (P : Platform) (fuel : nat) (token : string)
    (wd : string * string) (p : Batch.Pair) :
  preserves rows_grow (Batch.fetchPair P fuel token wd p).
Proof.
  intros [w l].
  pose proof (batch_fetchAllPages_rows_grow P wd p token fuel
                (w, Batch.first_page l)) as [more Hmore].
  cbn [fst snd Batch.first_page Batch.allRows] in Hmore.
  rewrite fetchPair_run. exists more. cbn [snd].
  destruct (Batch.fetchAllPages P fuel wd p token (w, Batch.first_page l))
    as [[[] | e |] s1]; cbn [snd] in *; try exact Hmore.
  now rewrite logErrorRow_keeps_locals.
Qed.

Lemma sheets_of_batch_written (w : World) (l : Batch.Locals) :
  sheet_of (batch_written w l) "GMVMax_Errors" = sheet_of w "GMVMax_Errors"
  /\ sheet_of (batch_written w l) Batch.data_sheet =
     map JStr (live_campaign_columns "stat_time_day")
       :: data_cells batch_cell (Batch.allRows l) (live_campaign_columns "stat_time_day").
Proof.
  unfold batch_written, sheet_of, with_sheet.
  destruct (recomputeRoi (Batch.totalsAgg l)); cbn [sheets]; split;
    repeat first [ rewrite lookup_insert_eq | rewrite lookup_insert_ne by discriminate ];
    reflexivity.
Qed.

(** C6. In the batch driver, the run goes through the combinations of a
    window and a pair in order.  When the fetch of one of them throws, the
    error is caught: one row is appended to the error log, with the time,
    the advertiser and store ids of the pair, the window bounds and the
    error message, and the run goes on with the combinations after it
    instead of throwing.  When those return, the run returns, the row is in
    the error log it leaves, and the data sheet it writes holds the rows
    gathered before and after the failure.  In particular, when the one
    combination left is served its pages, the run returns with the rows of
    that combination at the end of the data sheet and the error log ending
    in the row of the failed one. *)
Theorem batch_run_logs_error_and_continues
    (P : Platform) (ADVERTISER_IDS STORE_IDS : list string) (pairs : list Batch.Pair)
    (token : string) (fuel : nat) (w : World) (l : Batch.Locals)
    (before after : list ((string * string) * Batch.Pair))
    (wd : string * string) (pA : Batch.Pair) (e : JsError)
    (s0 s1 : World * Batch.Locals) :
  scriptProperties P "TT_ACCESS_TOKEN" = Some token -> token <> ""%string ->
  Batch.make_pairs ADVERTISER_IDS STORE_IDS = Ok pairs ->
  combinations (batch_windows P w) pairs = before ++ (wd, pA) :: after ->
  tidy (sheet_of w "GMVMax_Errors") ->
  let step := fun c => Batch.fetchPair P fuel token (fst c) (snd c) in
  forEach before step (w, Batch.mkLocals 1 [] []) = (Return tt, s0) ->
  Batch.fetchAllPages P fuel wd pA token (fst s0, Batch.first_page (snd s0))
    = (Raise e, s1) ->
  let ts := formatDate_ymd_hms (timeZone P Batch.TZ)
              (clock P (length (requests (fst s1)))) in
  let row := [JStr ts; JStr (fst pA); JStr (snd pA);
              JStr (fst wd ++ ".." ++ snd wd)%string; JStr (Batch.error_text e)] in
  let log := log_appended (sheet_of (fst s0) "GMVMax_Errors") row in
  let s2 := (with_sheet (fst s1) "GMVMax_Errors" log, snd s1) in
  let rest := forEach after step s2 in
  let run := Batch.runLiveGmvMaxCampaignDaily_SinceJune1_Simple P
               ADVERTISER_IDS STORE_IDS fuel (w, l) in
  let columns := live_campaign_columns "stat_time_day" in
  step (wd, pA) s0 = (Return tt, s2)
  /\ no_raise (fst run)
  /\ (fst rest = Return tt ->
      fst run = Return tt
      /\ (exists earlier later,
            sheet_of (fst s0) "GMVMax_Errors" = sheet_of w "GMVMax_Errors" ++ earlier
            /\ sheet_of (fst (snd run)) "GMVMax_Errors" = log ++ later)
      /\ (exists rowsA later,
            sheet_of (fst (snd run)) Batch.data_sheet =
            map JStr columns
              :: data_cells batch_cell (Batch.allRows (snd s0) ++ rowsA ++ later) columns))
  /\ (fst rest = Diverge -> fst run = Diverge)
  /\ forall wdB pB N items totals,
       after = [(wdB, pB)] -> 1 <= N -> (Z.to_nat N <= fuel)%nat ->
       serves_pages P N items totals (Batch.page_request wdB pB token) ->
       fst run = Return tt
       /\ sheet_of (fst (snd run)) "GMVMax_Errors" = log
       /\ sheet_of (fst (snd run)) Batch.data_sheet =
          map JStr columns
            :: data_cells batch_cell
                 (Batch.allRows (snd s1)
                    ++ concat (map (fun q => map (row_of row_LiveCampaignDailySince
                                                    (Batch.entity pB)) (items q))
                                 (pages 1 (Z.to_nat N))))
                 columns.
Proof.
  intros Hp Hne Hpairs Hcomb Htidy step Hbefore Hfail ts row log s2 rest run columns.
  assert (Hstep_log : forall c, preserves log_grows (step c)).
  { intros c. apply fetchPair_log_grows. }
  assert (Hstep_rows : forall c, preserves rows_grow (step c)).
  { intros c. apply fetchPair_rows_grow. }
  (* the state before the failing combination *)
  pose proof (preserves_forEach log_grows before step Hstep_log
                (w, Batch.mkLocals 1 [] [])) as Hlog0.
  rewrite Hbefore in Hlog0. cbn [snd] in Hlog0.
  destruct (Hlog0 Htidy) as [Htidy0 [earlier Hearlier]]. cbn [fst] in Hearlier.
  assert (HpairA : step (wd, pA) s0 = (Return tt, s2)).
  { subst step. cbn [fst snd].
    exact (fetchPair_caught P fuel token wd pA s0 s1 e Htidy0 Hfail). }
  (* the two loops are the loop over the combinations *)
  assert (Hloops : forEach (batch_windows P w)
                     (fun wd' => forEach pairs (Batch.fetchPair P fuel token wd'))
                     (w, Batch.mkLocals 1 [] []) = rest).
  { rewrite (forEach_combinations (batch_windows P w) pairs
               (fun wd' p => Batch.fetchPair P fuel token wd' p)).
    fold step. rewrite Hcomb, forEach_app, Hbefore.
    cbn [forEach]. unfold bind at 1. now rewrite HpairA. }
  assert (Hrun : run = match rest with
                       | (Return _, (w1, l1)) =>
                           (Return tt, (batch_written w1 l1,
                                        Batch.set_totals recomputeRoi l1))
                       | (Raise e', s') => (Raise e', s')
                       | (Diverge, s') => (Diverge, s')
                       end).
  { subst run.
    rewrite (batch_run_run P ADVERTISER_IDS STORE_IDS pairs token fuel w l Hp Hne Hpairs).
    now rewrite Hloops. }
  assert (Hno : no_raise (fst rest)).
  { subst rest. apply forEach_no_raise. intros c s. apply fetchPair_no_raise. }
  assert (Htidy2 : tidy (sheet_of (fst s2) "GMVMax_Errors")).
  { subst s2. cbn [fst]. rewrite sheet_of_with_sheet.
    apply log_appended_tidy, error_row_has_content. }
  assert (HrowsA : exists rowsA,
            Batch.allRows (snd s2) = Batch.allRows (snd s0) ++ rowsA).
  { pose proof (batch_fetchAllPages_rows_grow P wd pA token fuel
                  (fst s0, Batch.first_page (snd s0))) as [rowsA H].
    rewrite Hfail in H. exists rowsA. exact H. }
  split; [exact HpairA | split; [| split; [| split]]].
  - rewrite Hrun. destruct rest as [[[] | e' |] [w1 l1]]; cbn [fst no_raise] in *;
      [exact I | contradiction | exact I].
  - intros Hret.
    pose proof (preserves_forEach log_grows after step Hstep_log s2) as Hlog.
    pose proof (preserves_forEach rows_grow after step Hstep_rows s2) as [later Hlater].
    fold rest in Hlog, Hlater.
    destruct (Hlog Htidy2) as [_ [more Hmore]].
    rewrite Hrun. destruct rest as [[[] | e' |] [w1 l1]]; try discriminate.
    cbn [fst snd] in *.
    destruct (sheets_of_batch_written w1 l1) as [Herr Hdata].
    split; [reflexivity | split].
    + exists earlier, more. split; [exact Hearlier |].
      rewrite Herr, Hmore. subst s2. cbn [fst]. now rewrite sheet_of_with_sheet.
    + destruct HrowsA as [rowsA HrowsA]. exists rowsA, later.
      rewrite Hdata, Hlater, HrowsA. now rewrite <- app_assoc.
  - intros Hdiv. rewrite Hrun.
    destruct rest as [[[] | e' |] [w1 l1]]; try discriminate. reflexivity.
  - intros wdB pB N items totals Hafter HN Hfuel Hserve.
    assert (Hrest : rest =
              (Return tt,
               (issued (fst s2)
                  (map (Batch.page_request wdB pB token) (pages 1 (Z.to_nat N))),
                Batch.mkLocals N
                  (Batch.allRows (snd s1)
                     ++ concat (map (fun q => map (row_of row_LiveCampaignDailySince
                                                     (Batch.entity pB)) (items q))
                                  (pages 1 (Z.to_nat N))))
                  (fold_left (fun agg q => merged (totals q) agg)
                     (pages 1 (Z.to_nat N)) (Batch.totalsAgg (snd s1)))))).
    { subst rest. rewrite Hafter. cbn [forEach]. unfold bind at 1.
      subst step. cbn [fst snd]. destruct s2 as [w2 l2] eqn:Es2.
      rewrite fetchPair_run.
      rewrite (batch_fetchAllPages_pages P wdB pB token N items totals Hserve
                 (Z.to_nat (N - 1)) fuel w2 (Batch.first_page l2))
        by (cbn [Batch.page Batch.first_page]; lia).
      replace (S (Z.to_nat (N - 1))) with (Z.to_nat N) by lia.
      cbn [Batch.page Batch.first_page Batch.allRows Batch.totalsAgg].
      unfold ret. subst s2. injection Es2 as <- <-. reflexivity. }
    rewrite Hrun, Hrest. cbn [fst snd].
    match goal with
    | |- context [batch_written ?w1 ?l1] =>
        destruct (sheets_of_batch_written w1 l1) as [Herr Hdata]
    end.
    split; [reflexivity | split].
    + rewrite Herr. subst s2. unfold issued, sheet_of, with_sheet. cbn [sheets fst].
      now rewrite lookup_insert_eq.
    + exact Hdata.
Qed.

Lemma batch_run_logs_error_and_continues_witness :
  let run := Batch.runLiveGmvMaxCampaignDaily_SinceJune1_Simple (failing_platform "A")
               ["A"; "B"] ["S"] 5 (empty_world, Batch.mkLocals 0 [] []) in
  fst run = Return tt
  /\ sheet_of (fst (snd run)) "GMVMax_Errors" =
       [error_log_header;
        map JStr ["2025-06-01 10:00:00"; "A"; "S"; "2025-06-01..2025-06-01";
                  "HTTP 500 – Internal Server Error"]]
  /\ sheet_of (fst (snd run)) Batch.data_sheet =
       map JStr (live_campaign_columns "stat_time_day")
         :: data_cells batch_cell
              (map (row_of row_LiveCampaignDailySince (Batch.entity ("B", "S")))
                 (sample_items 1))
              (live_campaign_columns "stat_time_day").
Proof.
  intros run.
  destruct (batch_run_logs_error_and_continues (failing_platform "A")
              ["A"; "B"] ["S"] [("A", "S"); ("B", "S")] "secret" 5 empty_world
              (Batch.mkLocals 0 [] [])
              [] [(("2025-06-01", "2025-06-01"), ("B", "S"))]
              ("2025-06-01", "2025-06-01") ("A", "S")
              (Error "HTTP 500 – Internal Server Error")
              (empty_world, Batch.mkLocals 1 [] [])
              (issued empty_world
                 [Batch.page_request ("2025-06-01", "2025-06-01") ("A", "S") "secret" 1],
               Batch.mkLocals 1 [] []))
    as (_ & _ & _ & _ & H).
  - reflexivity.
  - discriminate.
  - reflexivity.
  - vm_compute. reflexivity.
  - reflexivity.
  - reflexivity.
  - vm_compute. reflexivity.
  - destruct (H ("2025-06-01", "2025-06-01") ("B", "S") 1 sample_items (fun _ => JNull))
      as (Hret & Herr & Hdata).
    + reflexivity.
    + lia.
    + simpl. lia.
    + intros hist p Hp. assert (p = 1) as -> by lia.
      eexists. split; [reflexivity |]. split; [reflexivity |].
      do 3 eexists. repeat split; reflexivity.
    + split; [exact Hret | split; [exact Herr | exact Hdata]].
Defined.

(** X13. The batch run checks the token first and the two lists second; when
    either check fails it throws before any request and before any sheet is
    touched. *)
Theorem batch_run_refused_before_any_effect (P : Platform)
    (ADVERTISER_IDS STORE_IDS : list string) (fuel : nat) (s : World * Batch.Locals) :
  (scriptProperties P "TT_ACCESS_TOKEN" = None
     \/ scriptProperties P "TT_ACCESS_TOKEN" = Some ""%string ->
   Batch.runLiveGmvMaxCampaignDaily_SinceJune1_Simple P ADVERTISER_IDS STORE_IDS fuel s =
   (Raise (Error "Missing TT_ACCESS_TOKEN in Script Properties (or hardcode ACCESS_TOKEN)."),
    s))
  /\ (forall token,
        scriptProperties P "TT_ACCESS_TOKEN" = Some token -> token <> ""%string ->
        length STORE_IDS <> 1%nat -> length ADVERTISER_IDS <> length STORE_IDS ->
        Batch.runLiveGmvMaxCampaignDaily_SinceJune1_Simple P ADVERTISER_IDS STORE_IDS fuel s =
        (Raise (Error "List mismatch: provide one store for all advertisers OR equal counts."),
         s)).
Proof.
  split.
  - intros Htok. unfold Batch.runLiveGmvMaxCampaignDaily_SinceJune1_Simple.
    unfold bind at 1, getProperty at 1, ret at 1.
    now destruct Htok as [-> | ->].
  - intros token Hp Hne H1 H2.
    unfold Batch.runLiveGmvMaxCampaignDaily_SinceJune1_Simple.
    unfold bind at 1, getProperty at 1, ret at 1. rewrite Hp.
    assert (Ht : truthy (JStr token) = true).
    { cbn [truthy]. now destruct (String.eqb_spec token ""). }
    rewrite Ht. cbn [negb ToString].
    unfold bind at 1, Date_now at 1. cbn [fst].
    unfold Batch.make_pairs.
    apply Nat.eqb_neq in H1, H2. rewrite H1, H2. reflexivity.
Qed.

Lemma batch_run_refused_before_any_effect_witness :
  Batch.runLiveGmvMaxCampaignDaily_SinceJune1_Simple (sample_platform 1 JNull)
    ["A"; "B"; "C"] ["S"; "T"] 5 (empty_world, Batch.mkLocals 0 [] []) =
  (Raise (Error "List mismatch: provide one store for all advertisers OR equal counts."),
   (empty_world, Batch.mkLocals 0 [] [])).
Proof.
  apply (batch_run_refused_before_any_effect (sample_platform 1 JNull)
           ["A"; "B"; "C"] ["S"; "T"] 5 (empty_world, Batch.mkLocals 0 [] []))
    with (token := "secret"%string).
  - reflexivity.
  - discriminate.
  - discriminate.
  - discriminate.
Defined.

(** X14. Once the token is set and the lists pair up, the batch run never
    throws, whatever the server answers.  When the loops over windows and
    pairs return, the run returns: the data sheet is replaced by the header
    row followed by one row per gathered record, the ROI of the totals is
    recomputed, and the totals sheet is replaced by the keys of the totals
    over their values when there is at least one key and left alone when
    there is none. *)
Theorem batch_run_ends_by_writing (P : Platform)
    (ADVERTISER_IDS STORE_IDS : list string) (pairs : list Batch.Pair)
    (token : string) (fuel : nat) (w : World) (l : Batch.Locals) :
  scriptProperties P "TT_ACCESS_TOKEN" = Some token -> token <> ""%string ->
  Batch.make_pairs ADVERTISER_IDS STORE_IDS = Ok pairs ->
  let run := Batch.runLiveGmvMaxCampaignDaily_SinceJune1_Simple P
               ADVERTISER_IDS STORE_IDS fuel (w, l) in
  let loops := forEach (batch_windows P w)
                 (fun wd => forEach pairs (Batch.fetchPair P fuel token wd))
                 (w, Batch.mkLocals 1 [] []) in
  no_raise (fst run)
  /\ (fst loops = Return tt ->
      run = (Return tt,
             (batch_written (fst (snd loops)) (snd (snd loops)),
              Batch.set_totals recomputeRoi (snd (snd loops)))))
  /\ (fst loops = Diverge -> run = (Diverge, snd loops)).
Proof.
  intros Hp Hne Hpairs run loops. subst run.
  rewrite (batch_run_run P ADVERTISER_IDS STORE_IDS pairs token fuel w l Hp Hne Hpairs).
  pose proof (forEach_no_raise (batch_windows P w)
                (fun wd => forEach pairs (Batch.fetchPair P fuel token wd))
                (fun wd s => forEach_no_raise pairs (Batch.fetchPair P fuel token wd)
                               (fun p s' => fetchPair_no_raise P fuel token wd p s') s)
                (w, Batch.mkLocals 1 [] [])) as Hno.
  fold loops in Hno |- *.
  destruct loops as [[[] | e |] [w1 l1]]; cbn [fst snd no_raise] in *.
  - split; [exact I | split; [reflexivity | discriminate]].
  - contradiction.
  - split; [exact I | split; [discriminate | reflexivity]].
Qed.

Lemma batch_run_ends_by_writing_witness :
  no_raise (fst (Batch.runLiveGmvMaxCampaignDaily_SinceJune1_Simple
                   (failing_platform "A") ["A"; "B"] ["S"] 5
                   (empty_world, Batch.mkLocals 0 [] []))).
Proof.
  apply (batch_run_ends_by_writing (failing_platform "A") ["A"; "B"] ["S"]
           [("A", "S"); ("B", "S")] "secret" 5 empty_world (Batch.mkLocals 0 [] [])).
  - reflexivity.
  - discriminate.
  - reflexivity.
Defined.

(** ** The order of a batch run *)

Section BatchOrder.

Variable P : Platform.
Variable token : string.
Variable N : string * string -> Batch.Pair -> Z.
Variable items : string * string -> Batch.Pair -> Z -> list Props.
Variable totals : string * string -> Batch.Pair -> Z -> JsVal.

(** What the fetch of one window and one pair sends and gathers. *)
Definition pair_pages (wd : string * string) (pr : Batch.Pair) : list Z :=
  pages 1 (Z.to_nat (N wd pr)).

Definition pair_requests (wd : string * string) (pr : Batch.Pair) : list Request :=
  map (Batch.page_request wd pr token) (pair_pages wd pr).

Definition pair_rows (wd : string * string) (pr : Batch.Pair) : list Props :=
  concat (map (fun q => map (row_of row_LiveCampaignDailySince (Batch.entity pr))
                          (items wd pr q)) (pair_pages wd pr)).

Definition pair_totals (wd : string * string) (agg : Props) (pr : Batch.Pair) : Props :=
  fold_left (fun agg q => merged (totals wd pr q) agg) (pair_pages wd pr) agg.

(** The same for a window, over the pairs in order. *)
Definition window_requests (pairs : list Batch.Pair) (wd : string * string) :
    list Request :=
  concat (map (pair_requests wd) pairs).

Definition window_rows (pairs : list Batch.Pair) (wd : string * string) : list Props :=
  concat (map (pair_rows wd) pairs).

Definition window_totals (pairs : list Batch.Pair) (agg : Props)
    (wd : string * string) : Props :=
  fold_left (pair_totals wd) pairs agg.

Hypothesis pages_at_least_one : forall wd pr, 1 <= N wd pr.
Hypothesis every_query_served :
  forall wd pr,
    serves_pages P (N wd pr) (items wd pr) (totals wd pr)
      (Batch.page_request wd pr token).

Lemma fetchPair_pages (fuel : nat) (wd : string * string) (pr : Batch.Pair)
    (w : World) (l : Batch.Locals) :
  (Z.to_nat (N wd pr) <= fuel)%nat ->
  Batch.fetchPair P fuel token wd pr (w, l) =
  (Return tt,
   (issued w (pair_requests wd pr),
    Batch.mkLocals (N wd pr) (Batch.allRows l ++ pair_rows wd pr)
      (pair_totals wd (Batch.totalsAgg l) pr))).
Proof.
  intros Hfuel. rewrite fetchPair_run.
  pose proof (pages_at_least_one wd pr) as HN.
  assert (HS : S (Z.to_nat (N wd pr - 1)) = Z.to_nat (N wd pr)) by lia.
  pose proof (batch_fetchAllPages_pages P wd pr token (N wd pr) (items wd pr)
                (totals wd pr) (every_query_served wd pr)
                (Z.to_nat (N wd pr - 1)) fuel w (Batch.first_page l)) as Hloop.
  cbn [Batch.first_page Batch.page Batch.allRows Batch.totalsAgg] in Hloop.
  rewrite HS in Hloop. rewrite Hloop by lia. reflexivity.
Qed.

Lemma forEach_pairs_pages (fuel : nat) (wd : string * string) (pairs : list Batch.Pair) :
  Forall (fun pr => (Z.to_nat (N wd pr) <= fuel)%nat) pairs ->
  forall (w : World) (l : Batch.Locals),
    exists pg,
      forEach pairs (Batch.fetchPair P fuel token wd) (w, l) =
      (Return tt,
       (issued w (window_requests pairs wd),
        Batch.mkLocals pg (Batch.allRows l ++ window_rows pairs wd)
          (window_totals pairs (Batch.totalsAgg l) wd))).
Proof.
  induction 1 as [| pr pairs Hpr _ IH]; intros w l.
  - exists (Batch.page l). cbn. unfold ret, issued. rewrite !app_nil_r.
    now destruct w, l.
  - cbn [forEach]. unfold bind at 1. rewrite (fetchPair_pages fuel wd pr w l Hpr).
    destruct (IH (issued w (pair_requests wd pr))
                (Batch.mkLocals (N wd pr) (Batch.allRows l ++ pair_rows wd pr)
                   (pair_totals wd (Batch.totalsAgg l) pr))) as [pg ->].
    exists pg. unfold window_requests, window_rows, window_totals.
    cbn [map concat fold_left Batch.allRows Batch.totalsAgg].
    now rewrite issued_app, <- app_assoc.
Qed.

Lemma forEach_windows_pages (fuel : nat) (pairs : list Batch.Pair)
    (windows : list (string * string)) :
  Forall (fun wd => Forall (fun pr => (Z.to_nat (N wd pr) <= fuel)%nat) pairs) windows ->
  forall (w : World) (l : Batch.Locals),
    exists pg,
      forEach windows (fun wd => forEach pairs (Batch.fetchPair P fuel token wd)) (w, l) =
      (Return tt,
       (issued w (concat (map (window_requests pairs) windows)),
        Batch.mkLocals pg
          (Batch.allRows l ++ concat (map (window_rows pairs) windows))
          (fold_left (window_totals pairs) windows (Batch.totalsAgg l)))).
Proof.
  induction 1 as [| wd windows Hwd _ IH]; intros w l.
  - exists (Batch.page l). cbn. unfold ret, issued. rewrite !app_nil_r.
    now destruct w, l.
  - cbn [forEach]. unfold bind at 1.
    destruct (forEach_pairs_pages fuel wd pairs Hwd w l) as [pg1 ->].
    destruct (IH (issued w (window_requests pairs wd))
                (Batch.mkLocals pg1 (Batch.allRows l ++ window_rows pairs wd)
                   (window_totals pairs (Batch.totalsAgg l) wd))) as [pg ->].
    exists pg. cbn [map concat fold_left Batch.allRows Batch.totalsAgg].
    now rewrite issued_app, <- app_assoc.
Qed.

End BatchOrder.

(** X15. A batch run whose token is set and whose lists pair up, against a
    server that answers every query with successful pages: the run goes
    through the windows in order and, within a window, through the pairs in
    order.  The requests, the rows of the data sheet and the merging of the
    totals all follow that order, and nothing is logged as an error. *)
Theorem batch_run_goes_window_by_window (P : Platform)
    (ADVERTISER_IDS STORE_IDS : list string) (pairs : list Batch.Pair)
    (token : string) (fuel : nat) (w : World) (l : Batch.Locals)
    (N : string * string -> Batch.Pair -> Z)
    (items : string * string -> Batch.Pair -> Z -> list Props)
    (totals : string * string -> Batch.Pair -> Z -> JsVal) :
  scriptProperties P "TT_ACCESS_TOKEN" = Some token -> token <> ""%string ->
  Batch.make_pairs ADVERTISER_IDS STORE_IDS = Ok pairs ->
  (forall wd pr, 1 <= N wd pr /\ (Z.to_nat (N wd pr) <= fuel)%nat) ->
  (forall wd pr,
     serves_pages P (N wd pr) (items wd pr) (totals wd pr)
       (Batch.page_request wd pr token)) ->
  let windows := batch_windows P w in
  exists pg,
    let gathered :=
      Batch.mkLocals pg
        (concat (map (window_rows N items pairs) windows))
        (fold_left (window_totals N totals pairs) windows []) in
    Batch.runLiveGmvMaxCampaignDaily_SinceJune1_Simple P ADVERTISER_IDS STORE_IDS fuel (w, l) =
    (Return tt,
     (batch_written (issued w (concat (map (window_requests token N pairs) windows)))
        gathered,
      Batch.set_totals recomputeRoi gathered)).
Proof.
  intros Hp Hne Hpairs HN Hserve windows.
  destruct (forEach_windows_pages P token N items totals
              (fun wd pr => proj1 (HN wd pr)) Hserve fuel pairs windows)
    with (w := w) (l := Batch.mkLocals 1 [] []) as [pg Hloops].
  { apply List.Forall_forall. intros wd _. apply List.Forall_forall. intros pr _.
    apply HN. }
  exists pg. cbn zeta.
  rewrite (batch_run_run P ADVERTISER_IDS STORE_IDS pairs token fuel w l Hp Hne Hpairs).
  fold windows. rewrite Hloops. reflexivity.
Qed.

Lemma batch_run_goes_window_by_window_witness :
  let P := sample_platform 1 (JObj [("cost", JStr "5"); ("gross_revenue", JStr "10")]) in
  let N := fun (_ : string * string) (_ : Batch.Pair) => 1 in
  let items := fun (_ : string * string) (_ : Batch.Pair) => sample_items in
  let totals := fun (_ : string * string) (_ : Batch.Pair) (_ : Z) =>
                  JObj [("cost", JStr "5"); ("gross_revenue", JStr "10")] in
  let pairs := [("A", "S"); ("B", "S")] in
  exists pg,
    let gathered :=
      Batch.mkLocals pg
        (concat (map (window_rows N items pairs) (batch_windows P empty_world)))
        (fold_left (window_totals N totals pairs) (batch_windows P empty_world) []) in
    Batch.runLiveGmvMaxCampaignDaily_SinceJune1_Simple P ["A"; "B"] ["S"] 5
      (empty_world, Batch.mkLocals 0 [] []) =
    (Return tt,
     (batch_written
        (issued empty_world
           (concat (map (window_requests "secret" N pairs) (batch_windows P empty_world))))
        gathered,
      Batch.set_totals recomputeRoi gathered)).
Proof.
  intros P N items totals pairs.
  apply (batch_run_goes_window_by_window P ["A"; "B"] ["S"] pairs "secret" 5
           empty_world (Batch.mkLocals 0 [] []) N items totals).
  - reflexivity.
  - discriminate.
  - reflexivity.
  - intros wd pr. subst N. simpl. lia.
  - intros wd pr. apply sample_serves_pages. intros p. apply requested_page_batch.
Defined.

(** The same run, computed: two requests, A before B, four rows, and the
    totals of the two slices added up with the ROI recomputed. *)
Example batch_run_on_one_window :
  let r := Batch.runLiveGmvMaxCampaignDaily_SinceJune1_Simple
             (sample_platform 1 (JObj [("cost", JStr "5"); ("gross_revenue", JStr "10")]))
             ["A"; "B"] ["S"] 5 (empty_world, Batch.mkLocals 0 [] []) in
  fst r = Return tt
  /\ map (fun q => own (req_params q) "advertiser_id") (requests (fst (snd r)))
     = [Some (JStr "A"); Some (JStr "B")]
  /\ length (sheet_of (fst (snd r)) Batch.data_sheet) = 5%nat
  /\ sheet_of (fst (snd r)) Batch.totals_sheet
     = [map JStr ["cost"; "gross_revenue"; "roi"]; [JInt 10; JInt 20; JInt 2]]
  /\ sheets (fst (snd r)) !! "GMVMax_Errors" = None.
Proof. vm_compute. repeat split; reflexivity. Qed.

(** ** The query string can be read back *)

(** Reading a query string back: the parts between [&], each cut at its
    first [=], with the [%XX] escapes undone. *)
Definition hex_value (c : ascii) : option nat :=
  let n := nat_of_ascii c in
  if ((48 <=? n) && (n <=? 57))%nat then Some (n - 48)%nat
  else if ((65 <=? n) && (n <=? 70))%nat then Some (n - 55)%nat
  else None.

Fixpoint percent_decode (s : string) : option string :=
  match s with
  | EmptyString => Some EmptyString
  | String c r =>
      if Ascii.eqb c "%" then
        match r with
        | String a (String b r') =>
            match hex_value a, hex_value b, percent_decode r' with
            | Some x, Some y, Some d => Some (String (ascii_of_nat (16 * x + y)) d)
            | _, _, _ => None
            end
        | _ => None
        end
      else option_map (String c) (percent_decode r)
  end.

Fixpoint cut_at (sep : ascii) (s : string) : option (string * string) :=
  match s with
  | EmptyString => None
  | String c r =>
      if Ascii.eqb c sep then Some (EmptyString, r)
      else option_map (fun p => (String c (fst p), snd p)) (cut_at sep r)
  end.

Definition read_part (part : string) : option (string * string) :=
  match cut_at "=" part with
  | Some (k, v) =>
      match percent_decode k, percent_decode v with
      | Some k', Some v' => Some (k', v')
      | _, _ => None
      end
  | None => None
  end.

Fixpoint read_parts (parts : list string) : option (list (string * string)) :=
  match parts with
  | [] => Some []
  | p :: rest =>
      match read_part p, read_parts rest with
      | Some kv, Some kvs => Some (kv :: kvs)
      | _, _ => None
      end
  end.

Definition parse_query (q : string) : option (list (string * string)) :=
  if String.eqb q "" then Some [] else read_parts (split_on "&" q).

Fixpoint all_chars (f : ascii -> bool) (s : string) : bool :=
  match s with
  | EmptyString => true
  | String c r => f c && all_chars f r
  end.

(** The characters of an encoded component. *)
Definition is_escaped (c : ascii) : bool :=
  is_unreserved c || Ascii.eqb c "%".

Definition is_query_char (c : ascii) : bool :=
  is_escaped c || Ascii.eqb c "&" || Ascii.eqb c "=".

Lemma all_chars_app (f : ascii -> bool) (a b : string) :
  all_chars f (a ++ b)%string = all_chars f a && all_chars f b.
Proof.
  induction a as [| c a IH]; [reflexivity |].
  change (String c a ++ b)%string with (String c (a ++ b)%string).
  cbn [all_chars]. now rewrite IH, andb_assoc.
Qed.

Lemma all_chars_weaken (f g : ascii -> bool) (s : string) :
  (forall c, f c = true -> g c = true) -> all_chars f s = true -> all_chars g s = true.
Proof.
  intros Hfg. induction s as [| c s IH]; [reflexivity |]. cbn [all_chars].
  intros H. apply andb_true_iff in H. destruct H as [Hc Hs].
  now rewrite (Hfg c Hc), IH.
Qed.

(** The facts about single characters, checked on each of the 256. *)
Lemma char_facts (c : ascii) :
  let n := nat_of_ascii c in
  (is_unreserved c = true ->
   Ascii.eqb c "%" = false /\ Ascii.eqb c "&" = false /\ Ascii.eqb c "=" = false)
  /\ hex_value (hex_digit (n / 16)) = Some (n / 16)%nat
  /\ hex_value (hex_digit (n mod 16)) = Some (n mod 16)%nat
  /\ ascii_of_nat (16 * (n / 16) + n mod 16) = c
  /\ is_unreserved (hex_digit (n / 16)) = true
  /\ is_unreserved (hex_digit (n mod 16)) = true.
Proof.
  destruct c as [[] [] [] [] [] [] [] []]; vm_compute;
    (split; [intros H; first [discriminate H | repeat split] | repeat split]).
Qed.

Lemma percent_decode_plain (c : ascii) (r : string) :
  Ascii.eqb c "%" = false ->
  percent_decode (String c r) = option_map (String c) (percent_decode r).
Proof. intros H. cbn [percent_decode]. now rewrite H. Qed.

Lemma percent_decode_escape (a b : ascii) (x y : nat) (r : string) :
  hex_value a = Some x -> hex_value b = Some y ->
  percent_decode (String "%" (String a (String b r))) =
  option_map (String (ascii_of_nat (16 * x + y))) (percent_decode r).
Proof.
  intros Ha Hb. cbn [percent_decode].
  change (Ascii.eqb "%" "%") with true. cbv iota. rewrite Ha, Hb.
  now destruct (percent_decode r).
Qed.

(** Decoding undoes encoding, and an encoded component is made of
    unreserved characters and escapes. *)
Lemma percent_decode_encode (s : string) :
  percent_decode (encodeURIComponent s) = Some s.
Proof.
  induction s as [| c s IH]; [reflexivity |].
  destruct (char_facts c) as (Hun & Hhi & Hlo & Hback & _).
  cbn [encodeURIComponent]. destruct (is_unreserved c) eqn:E.
  - destruct (Hun eq_refl) as (Hp & _).
    now rewrite (percent_decode_plain c _ Hp), IH.
  - rewrite (percent_decode_escape _ _ _ _ _ Hhi Hlo), IH. cbn [option_map].
    now rewrite Hback.
Qed.

Lemma encodeURIComponent_escaped (s : string) :
  all_chars is_escaped (encodeURIComponent s) = true.
Proof.
  induction s as [| c s IH]; [reflexivity |].
  destruct (char_facts c) as (_ & _ & _ & _ & Hhi & Hlo).
  cbn [encodeURIComponent]. destruct (is_unreserved c) eqn:E; cbn [all_chars].
  - unfold is_escaped at 1. now rewrite E, IH.
  - unfold is_escaped at 1 2 3. rewrite Hhi, Hlo, IH. reflexivity.
Qed.

Lemma is_escaped_not_separator (c : ascii) :
  is_escaped c = true -> Ascii.eqb c "&" = false /\ Ascii.eqb c "=" = false.
Proof.
  unfold is_escaped. intros H. apply orb_true_iff in H. destruct H as [H | H].
  - destruct (char_facts c) as (Hun & _). now destruct (Hun H) as (_ & ? & ?).
  - apply Ascii.eqb_eq in H. subst c. split; reflexivity.
Qed.

Definition is_not (sep : ascii) (c : ascii) : bool := negb (Ascii.eqb c sep).

Lemma split_on_plain (sep : ascii) (s : string) :
  all_chars (is_not sep) s = true -> split_on sep s = [s].
Proof.
  induction s as [| c s IH]; [reflexivity |]. cbn [all_chars split_on].
  intros H. apply andb_true_iff in H. destruct H as [Hc Hs].
  unfold is_not in Hc. apply negb_true_iff in Hc. now rewrite Hc, (IH Hs).
Qed.

Lemma split_on_app (sep : ascii) (a b : string) :
  all_chars (is_not sep) a = true ->
  split_on sep (a ++ String sep b)%string = a :: split_on sep b.
Proof.
  induction a as [| c a IH].
  - intros _. change (split_on sep (String sep b) = EmptyString :: split_on sep b).
    cbn [split_on]. now rewrite Ascii.eqb_refl.
  - change (String c a ++ String sep b)%string with (String c (a ++ String sep b)%string).
    cbn [all_chars split_on]. intros H. apply andb_true_iff in H. destruct H as [Hc Ha].
    unfold is_not in Hc. apply negb_true_iff in Hc. now rewrite Hc, (IH Ha).
Qed.

Lemma cut_at_app (sep : ascii) (a b : string) :
  all_chars (is_not sep) a = true ->
  cut_at sep (a ++ String sep b)%string = Some (a, b).
Proof.
  induction a as [| c a IH].
  - intros _. change (cut_at sep (String sep b) = Some (EmptyString, b)).
    cbn [cut_at]. now rewrite Ascii.eqb_refl.
  - change (String c a ++ String sep b)%string with (String c (a ++ String sep b)%string).
    cbn [all_chars cut_at]. intros H. apply andb_true_iff in H. destruct H as [Hc Ha].
    unfold is_not in Hc. apply negb_true_iff in Hc. now rewrite Hc, (IH Ha).
Qed.

Lemma concat_cons2 (sep p q : string) (rest : list string) :
  String.concat sep (p :: q :: rest) = (p ++ sep ++ String.concat sep (q :: rest))%string.
Proof. reflexivity. Qed.

Lemma split_on_concat (parts : list string) :
  parts <> [] -> Forall (fun p => all_chars (is_not "&") p = true) parts ->
  split_on "&" (String.concat "&" parts) = parts.
Proof.
  intros Hne Hall. induction Hall as [| p parts Hp Hparts IH]; [contradiction |].
  destruct parts as [| q rest].
  - cbn [String.concat]. now apply split_on_plain.
  - rewrite concat_cons2.
    change ("&" ++ String.concat "&" (q :: rest))%string
      with (String "&" (String.concat "&" (q :: rest))).
    rewrite (split_on_app "&" p _ Hp). f_equal. apply IH. discriminate.
Qed.

(** One part of the query string, as both versions build it. *)
Definition query_part (k : string) (v : JsVal) : string :=
  (encodeURIComponent k ++ "=" ++ encodeURIComponent (ToString v))%string.

Lemma encoded_has_no (sep : ascii) (s : string) :
  is_escaped sep = false -> all_chars (is_not sep) (encodeURIComponent s) = true.
Proof.
  intros Hsep. apply (all_chars_weaken is_escaped); [| apply encodeURIComponent_escaped].
  intros c Hc. unfold is_not. apply negb_true_iff.
  destruct (Ascii.eqb_spec c sep) as [-> | _]; [congruence | reflexivity].
Qed.

Lemma query_part_spec (k : string) (v : JsVal) :
  all_chars (is_not "&") (query_part k v) = true
  /\ all_chars is_query_char (query_part k v) = true
  /\ read_part (query_part k v) = Some (k, ToString v)
  /\ query_part k v <> EmptyString.
Proof.
  unfold query_part.
  change ("=" ++ encodeURIComponent (ToString v))%string
    with (String "=" (encodeURIComponent (ToString v))).
  split; [| split; [| split]].
  - rewrite all_chars_app. cbn [all_chars].
    now rewrite !(encoded_has_no "&") by reflexivity.
  - rewrite all_chars_app. cbn [all_chars].
    rewrite !(all_chars_weaken is_escaped is_query_char _
                ltac:(intros c Hc; unfold is_query_char; now rewrite Hc)
                (encodeURIComponent_escaped _)).
    reflexivity.
  - unfold read_part. rewrite cut_at_app by (now apply encoded_has_no).
    now rewrite !percent_decode_encode.
  - destruct (encodeURIComponent k); discriminate.
Qed.

Lemma read_parts_query (kvs : Props) :
  read_parts (map (fun kv => query_part (fst kv) (snd kv)) kvs) =
  Some (map (fun kv => (fst kv, ToString (snd kv))) kvs).
Proof.
  induction kvs as [| [k v] kvs IH]; [reflexivity |]. cbn [map read_parts fst snd].
  destruct (query_part_spec k v) as (_ & _ & -> & _). now rewrite IH.
Qed.

Lemma all_chars_concat (f : ascii -> bool) (sep : string) (parts : list string) :
  all_chars f sep = true -> Forall (fun p => all_chars f p = true) parts ->
  all_chars f (String.concat sep parts) = true.
Proof.
  intros Hsep Hall. induction Hall as [| p parts Hp Hparts IH]; [reflexivity |].
  destruct parts as [| q rest]; [exact Hp |].
  rewrite concat_cons2, !all_chars_app, Hp, Hsep. exact IH.
Qed.

Lemma parse_query_parts (kvs : Props) :
  parse_query (String.concat "&" (map (fun kv => query_part (fst kv) (snd kv)) kvs)) =
  Some (map (fun kv => (fst kv, ToString (snd kv))) kvs)
  /\ all_chars is_query_char
       (String.concat "&" (map (fun kv => query_part (fst kv) (snd kv)) kvs)) = true.
Proof.
  split.
  - destruct kvs as [| [k v] kvs]; [reflexivity |].
    unfold parse_query.
    assert (Hne : String.concat "&"
                    (map (fun kv => query_part (fst kv) (snd kv)) ((k, v) :: kvs))
                  <> EmptyString).
    { cbn [map fst snd]. destruct (query_part_spec k v) as (_ & _ & _ & Hk).
      destruct (map _ kvs); cbn [String.concat]; [exact Hk |].
      destruct (query_part k v); [contradiction | discriminate]. }
    apply String.eqb_neq in Hne. rewrite Hne.
    rewrite split_on_concat; [apply read_parts_query | discriminate |].
    apply List.Forall_forall. intros p Hp. apply in_map_iff in Hp.
    destruct Hp as [[k' v'] [<- _]]. apply query_part_spec.
  - apply all_chars_concat; [reflexivity |].
    apply List.Forall_forall. intros p Hp. apply in_map_iff in Hp.
    destruct Hp as [[k' v'] [<- _]]. apply query_part_spec.
Qed.

Lemma get_distinct_key (ps : Props) (k : string) (v : JsVal) :
  List.NoDup (map fst ps) -> In (k, v) ps -> get (JObj ps) k = v.
Proof.
  induction ps as [| [k' v'] ps IH]; intros Hnd Hin; [contradiction |].
  inversion Hnd as [| ? ? Hnotin Hnd']; subst. cbn [get own].
  destruct Hin as [Heq | Hin].
  - inversion Heq; subst. now rewrite String.eqb_refl.
  - destruct (String.eqb_spec k' k) as [-> | _].
    + exfalso. apply Hnotin. apply in_map_iff. now exists (k, v).
    + now apply IH.
Qed.

Lemma toQueryString_parts (params : Props) :
  List.NoDup (map fst params) ->
  toQueryString_ params =
  String.concat "&" (map (fun kv => query_part (fst kv) (snd kv)) params).
Proof.
  intros Hnd. unfold toQueryString_. cbn [Object_keys]. f_equal.
  rewrite map_map. apply map_ext_in. intros [k v] Hin. cbn [fst snd].
  now rewrite (get_distinct_key params k v Hnd Hin).
Qed.

Lemma batch_toQueryString_parts (params : Props) :
  List.NoDup (map fst params) ->
  Batch.toQueryString_ params =
  String.concat "&"
    (map (fun kv => query_part (fst kv) (snd kv))
       (List.filter (fun kv => negb (nullish (snd kv))) params)).
Proof.
  intros Hnd. unfold Batch.toQueryString_. cbn [Object_keys]. f_equal.
  assert (Hget : forall kv, In kv params -> get (JObj params) (fst kv) = snd kv).
  { intros [k v] Hin. now apply get_distinct_key. }
  clear Hnd. revert Hget. generalize (JObj params) as o.
  induction params as [| [k v] params IH]; intros o Hget; [reflexivity |].
  cbn [map flat_map List.filter fst snd].
  pose proof (Hget (k, v) (or_introl eq_refl)) as Hk. cbn [fst snd] in Hk. rewrite Hk.
  rewrite (IH o) by (intros kv Hin; apply Hget; now right).
  destruct v; reflexivity.
Qed.

(** X16. The query string can be read back: cut at [&], each part cut at its
    first [=] and unescaped, it gives the keys of [params] in order, each
    with the string form of its value, whatever characters the keys and the
    values hold; and it is made of unreserved characters, [%XX] escapes, [&]
    and [=] only.  The version of the single-query reports sends every
    parameter, [undefined] and [null] by name; the version of the batch
    report leaves those two out. *)
Theorem query_string_reads_back (params : Props) :
  List.NoDup (map fst params) ->
  parse_query (toQueryString_ params) =
    Some (map (fun kv => (fst kv, ToString (snd kv))) params)
  /\ parse_query (Batch.toQueryString_ params) =
       Some (map (fun kv => (fst kv, ToString (snd kv)))
               (List.filter (fun kv => negb (nullish (snd kv))) params))
  /\ all_chars is_query_char (toQueryString_ params) = true
  /\ all_chars is_query_char (Batch.toQueryString_ params) = true.
Proof.
  intros Hnd.
  rewrite (toQueryString_parts params Hnd), (batch_toQueryString_parts params Hnd).
  destruct (parse_query_parts params) as [H1 H2].
  destruct (parse_query_parts (List.filter (fun kv => negb (nullish (snd kv))) params))
    as [H3 H4].
  repeat split; assumption.
Qed.

Lemma query_string_reads_back_witness :
  toQueryString_ [("store_ids", JStr "[a&b=]"); ("page", JInt 2); ("page_size", JUndefined)]
    = "store_ids=%5Ba%26b%3D%5D&page=2&page_size=undefined"%string
  /\ parse_query
       (toQueryString_
          [("store_ids", JStr "[a&b=]"); ("page", JInt 2); ("page_size", JUndefined)])
     = Some [("store_ids", "[a&b=]"); ("page", "2"); ("page_size", "undefined")]%string
  /\ parse_query
       (Batch.toQueryString_
          [("store_ids", JStr "[a&b=]"); ("page", JInt 2); ("page_size", JUndefined)])
     = Some [("store_ids", "[a&b=]"); ("page", "2")]%string.
Proof.
  destruct (query_string_reads_back
              [("store_ids", JStr "[a&b=]"); ("page", JInt 2); ("page_size", JUndefined)])
    as (H1 & H2 & _).
  - repeat constructor; simpl; intuition discriminate.
  - split; [reflexivity | split; [exact H1 | exact H2]].
Defined.

(** ** The configuration readers *)

(** The last position from [i] on at which [name] is a header. *)
Fixpoint find_last (name : string) (headers : list string) (i : nat) : option nat :=
  match headers with
  | [] => None
  | h :: rest =>
      match find_last name rest (S i) with
      | Some j => Some j
      | None => if String.eqb h name then Some i else None
      end
  end.

Lemma own_fill_map (f : JsVal -> JsVal) (row : list string) (name : string)
    (headers : list string) :
  forall (i : nat) (m : Props),
    own (fill_map f headers row i m) name =
    match find_last name headers i with
    | Some j => Some (f (cell_at row j))
    | None => own m name
    end.
Proof.
  induction headers as [| h rest IH]; intros i m; [reflexivity |].
  cbn [fill_map find_last]. rewrite IH.
  destruct (find_last name rest (S i)); [reflexivity |].
  destruct (String.eqb_spec h name) as [-> | Hne].
  - apply own_set_eq.
  - now apply own_set_ne.
Qed.

Lemma find_last_spec (name : string) (headers : list string) :
  forall i,
    match find_last name headers i with
    | Some j =>
        (i <= j)%nat /\ nth_error headers (j - i) = Some name
        /\ forall j', (j - i < j')%nat -> nth_error headers j' <> Some name
    | None => ~ In name headers
    end.
Proof.
  induction headers as [| h rest IH]; intros i; cbn [find_last].
  - intros [].
  - specialize (IH (S i)). destruct (find_last name rest (S i)) as [j |].
    + destruct IH as (Hle & Hnth & Hlast). split; [lia | split].
      * replace (j - i)%nat with (S (j - S i)) by lia. exact Hnth.
      * intros j' Hj'. destruct j' as [| j']; [lia |]. cbn [nth_error].
        apply Hlast. lia.
    + destruct (String.eqb_spec h name) as [-> | Hne].
      * split; [lia | split].
        -- now rewrite Nat.sub_diag.
        -- intros j' Hj'. destruct j' as [| j']; [lia |]. cbn [nth_error].
           intros Hin. apply IH. eapply nth_error_In. exact Hin.
      * intros [Heq | Hin]; [contradiction | now apply IH].
Qed.




(** A string, [undefined] or [null]: what a cell or a script property is. *)
Definition is_text (v : JsVal) : Prop :=
  match v with
  | JStr _ | JUndefined | JNull => True
  | _ => False
  end.

Lemma truthy_text (v : JsVal) :
  is_text v -> truthy v = true -> exists s, v = JStr s /\ s <> EmptyString.
Proof.
  destruct v as [| | | | s | |]; cbn; try contradiction; try discriminate.
  intros _ H. exists s. split; [reflexivity |].
  apply negb_true_iff in H. now apply String.eqb_neq.
Qed.

Lemma truthy_text_string (v : JsVal) :
  is_text v -> truthy v = true -> ToString v <> EmptyString.
Proof.
  intros Ht Hv. destruct (truthy_text v Ht Hv) as (s & -> & Hs). exact Hs.
Qed.

Lemma config_map_text (short : string) (f : JsVal -> JsVal)
    (config : option (list (list string))) (asMap : Props) (name : string) :
  (forall v, is_text v -> is_text (f v)) ->
  config_map short f config = Ok asMap -> is_text (get (JObj asMap) name).
Proof.
  intros Hf Hm. destruct config as [[| first [| row rest]] |]; try discriminate.
  cbn [config_map] in Hm. inversion Hm; subst. cbn [get]. rewrite own_fill_map.
  destruct (find_last name (map trim first) 0) as [j |]; cbn; [| exact I].
  apply Hf. unfold cell_at. now destruct (nth_error row j).
Qed.

Lemma trimmed_text (v : JsVal) : is_text v -> is_text (trimmed v).
Proof. intros _. exact I. Qed.

Lemma advertiser_property_text (P : Platform) : is_text (advertiser_property P).
Proof. unfold advertiser_property. now destruct (scriptProperties P _). Qed.

Lemma js_or_text (a b : JsVal) : is_text a -> is_text b -> is_text (js_or a b).
Proof. intros Ha Hb. unfold js_or. now destruct (truthy a). Qed.

Lemma csv_list_nonempty (s : string) :
  Forall (fun x => x <> EmptyString) (csv_list s).
Proof.
  unfold csv_list. apply List.Forall_forall. intros x Hx.
  apply filter_In in Hx. destruct Hx as [_ Hx].
  apply negb_true_iff in Hx. now apply String.eqb_neq.
Qed.

(** The fields every reader checks. *)
Definition fields_are_set (cfg : Config) : Prop :=
  advertiser_id (cfg_entity cfg) <> EmptyString
  /\ store_id (cfg_entity cfg) <> EmptyString
  /\ start_date cfg <> EmptyString
  /\ end_date cfg <> EmptyString.

Ltac checked_fields :=
  repeat match goal with
         | H : context [if negb (truthy ?v) then _ else _] |- _ =>
             let E := fresh "E" in
             destruct (truthy v) eqn:E; cbn [negb orb] in H; [| discriminate H]
         | H : context [if negb (truthy ?v) || _ then _ else _] |- _ =>
             let E := fresh "E" in
             destruct (truthy v) eqn:E; cbn [negb orb] in H; [| discriminate H]
         end.

Lemma readConfig_fields (P : Platform) (config : option (list (list string)))
    (cfg : Config) :
  readConfig_ P config = Ok cfg -> fields_are_set cfg.
Proof.
  unfold readConfig_, result_bind.
  destruct (config_map _ _ config) as [asMap | e] eqn:Hm; [| discriminate].
  pose proof (fun name => config_map_text _ _ config asMap name (fun v Hv => Hv) Hm)
    as Htext.
  intros H. checked_fields. inversion H; subst; clear H.
  unfold fields_are_set. cbn [cfg_entity advertiser_id store_id start_date end_date].
  repeat split; apply truthy_text_string; try assumption; try apply Htext.
  apply js_or_text; [apply Htext | apply advertiser_property_text].
Qed.

Lemma readConfigLiveHourly_fields (P : Platform) (config : option (list (list string)))
    (cfg : Config) :
  readConfigLiveHourly_ P config = Ok cfg -> fields_are_set cfg.
Proof.
  unfold readConfigLiveHourly_, result_bind.
  destruct (config_map _ _ config) as [asMap | e] eqn:Hm; [| discriminate].
  pose proof (fun name => config_map_text _ _ config asMap name trimmed_text Hm)
    as Htext.
  intros H. checked_fields. inversion H; subst; clear H.
  unfold fields_are_set. cbn [cfg_entity advertiser_id store_id start_date end_date].
  repeat split; apply truthy_text_string; try assumption; try apply Htext.
  destruct (negb _); [exact I | apply Htext].
Qed.

Lemma readConfig_ProductSingleCampaign_fields (P : Platform)
    (config : option (list (list string))) (cfg : Config) :
  readConfig_ProductSingleCampaign_ P config = Ok cfg ->
  fields_are_set cfg /\ campaign_id (cfg_entity cfg) <> EmptyString.
Proof.
  unfold readConfig_ProductSingleCampaign_, result_bind.
  destruct (config_map _ _ config) as [asMap | e] eqn:Hm; [| discriminate].
  pose proof (fun name => config_map_text _ _ config asMap name (fun v Hv => Hv) Hm)
    as Htext.
  set (ids := trim (ToString (js_or (get (JObj asMap) "campaign_ids") (JStr "")))).
  assert (Hids : Forall (fun x => x <> EmptyString)
                   (if String.eqb ids "" then [] else csv_list ids)).
  { destruct (String.eqb ids ""); [constructor | apply csv_list_nonempty]. }
  destruct (if String.eqb ids "" then [] else csv_list ids) as [| c [| c' arr]];
    try discriminate.
  intros H. checked_fields. inversion H; subst; clear H.
  unfold fields_are_set.
  cbn [cfg_entity advertiser_id store_id campaign_id start_date end_date].
  split; [| now inversion Hids].
  repeat split; apply truthy_text_string; try assumption; try apply Htext.
  apply js_or_text; [apply Htext | apply advertiser_property_text].
Qed.

Lemma readConfigCreativeStatuses_fields (P : Platform)
    (config : option (list (list string))) (cfg : Config) :
  readConfigCreativeStatuses_ P config = Ok cfg ->
  fields_are_set cfg
  /\ campaign_ids cfg <> [] /\ item_group_ids cfg <> []
  /\ Forall (fun x => x <> EmptyString)
       (campaign_ids cfg ++ item_group_ids cfg ++ creative_delivery_statuses cfg).
Proof.
  unfold readConfigCreativeStatuses_, result_bind.
  destruct (config_map _ _ config) as [asMap | e] eqn:Hm; [| discriminate].
  pose proof (fun name => config_map_text _ _ config asMap name trimmed_text Hm)
    as Htext.
  intros H. checked_fields.
  destruct (Nat.eqb_spec (length (csv_of asMap "campaign_ids")) 0) as [| Hc];
    [discriminate |].
  destruct (Nat.eqb_spec (length (csv_of asMap "item_group_ids")) 0) as [| Hg];
    [discriminate |].
  inversion H; subst; clear H.
  unfold fields_are_set.
  cbn [cfg_entity advertiser_id store_id start_date end_date campaign_ids
       item_group_ids creative_delivery_statuses].
  split; [| split; [| split]].
  - repeat split; apply truthy_text_string; try assumption; try apply Htext.
    destruct (negb _); [exact I | apply Htext].
  - intros Hnil. now rewrite Hnil in Hc.
  - intros Hnil. now rewrite Hnil in Hg.
  - unfold csv_of. rewrite !Forall_app. repeat split; apply csv_list_nonempty.
Qed.

(** X18. A configuration that a reader returns has its four required fields set:
    the advertiser, the store and the two dates are not empty.  The reader
    of the product-level report also returns a campaign that is not empty,
    and the reader of the creative report at least one campaign and one item
    group, with no empty entry in its three lists. *)
Theorem returned_config_has_its_fields_set (P : Platform)
    (config : option (list (list string))) (cfg : Config) :
  (readConfig_ P config = Ok cfg -> fields_are_set cfg)
  /\ (readConfigLiveHourly_ P config = Ok cfg -> fields_are_set cfg)
  /\ (readConfig_ProductSingleCampaign_ P config = Ok cfg ->
      fields_are_set cfg /\ campaign_id (cfg_entity cfg) <> EmptyString)
  /\ (readConfigCreativeStatuses_ P config = Ok cfg ->
      fields_are_set cfg
      /\ campaign_ids cfg <> [] /\ item_group_ids cfg <> []
      /\ Forall (fun x => x <> EmptyString)
           (campaign_ids cfg ++ item_group_ids cfg ++ creative_delivery_statuses cfg)).
Proof.
  split; [apply readConfig_fields | split; [apply readConfigLiveHourly_fields |]].
  split; [apply readConfig_ProductSingleCampaign_fields
         | apply readConfigCreativeStatuses_fields].
Qed.

Lemma returned_config_has_its_fields_set_witness :
  fields_are_set
    (mkConfig (mkEntity "A" "S" "") "2025-06-01" "2025-06-02" JUndefined false
       ["c1"; "c2"] ["g"] [])
  /\ ["c1"; "c2"]%string <> [].
Proof.
  destruct (returned_config_has_its_fields_set (sample_platform 1 JNull)
              (Some [["advertiser_id"; "store_id"; "start_date"; "end_date";
                      "campaign_ids"; "item_group_ids"];
                     [" A "; "S"; "2025-06-01"; "2025-06-02"; "c1, c2,,"; "g"]])
              (mkConfig (mkEntity "A" "S" "") "2025-06-01" "2025-06-02" JUndefined false
                 ["c1"; "c2"] ["g"] []))
    as (_ & _ & _ & H).
  destruct H as (Hf & Hc & _); [reflexivity |].
  split; [exact Hf | exact Hc].
Defined.

(** ** Lists in a cell *)

Lemma split_on_joined (sep : ascii) (parts : list string) :
  parts <> [] -> Forall (fun p => all_chars (is_not sep) p = true) parts ->
  split_on sep (String.concat (String sep EmptyString) parts) = parts.
Proof.
  intros Hne Hall. induction Hall as [| p parts Hp Hparts IH]; [contradiction |].
  destruct parts as [| q rest].
  - cbn [String.concat]. now apply split_on_plain.
  - rewrite concat_cons2.
    change (String sep EmptyString ++ String.concat (String sep EmptyString) (q :: rest))%string
      with (String sep (String.concat (String sep EmptyString) (q :: rest))).
    rewrite (split_on_app sep p _ Hp). f_equal. apply IH. discriminate.
Qed.

Lemma append_assoc (a b c : string) :
  ((a ++ b) ++ c)%string = (a ++ b ++ c)%string.
Proof.
  induction a as [| x a IH]; [reflexivity |].
  change (String x (((a ++ b) ++ c))%string = String x (a ++ b ++ c)%string).
  now rewrite IH.
Qed.

Lemma concat_push (sep pre p : string) (rest : list string) :
  (pre ++ String.concat sep (p :: rest))%string
  = String.concat sep ((pre ++ p)%string :: rest).
Proof.
  destruct rest as [| q rest]; [reflexivity |].
  rewrite !concat_cons2.
  symmetry. apply append_assoc.
Qed.

Lemma split_on_spaced (p : string) (rest : list string) :
  Forall (fun x => all_chars (is_not ",") x = true) (p :: rest) ->
  split_on "," (String.concat ", " (p :: rest)) =
  p :: map (fun x => String " " x) rest.
Proof.
  revert p. induction rest as [| q rest IH]; intros p Hall.
  - cbn [String.concat map]. apply split_on_plain. now inversion Hall.
  - inversion Hall as [| ? ? Hp Hrest]; subst.
    inversion Hrest as [| ? ? Hq Hrest']; subst.
    rewrite concat_cons2.
    change (", " ++ String.concat ", " (q :: rest))%string
      with (String "," (" " ++ String.concat ", " (q :: rest))%string).
    rewrite (split_on_app "," p _ Hp). f_equal.
    rewrite (concat_push ", " " " q rest).
    change (" " ++ q)%string with (String " " q).
    rewrite IH; [reflexivity |].
    constructor; [exact Hq | exact Hrest'].
Qed.

Lemma trim_after_space (s : string) : trim (String " " s) = trim s.
Proof. reflexivity. Qed.

(** An identifier as one types it in a list: not empty, without a comma,
    and with no white space around it. *)
Definition is_identifier (s : string) : Prop :=
  s <> EmptyString /\ trim s = s /\ all_chars (is_not ",") s = true.

Lemma keep_identifiers (ids : list string) :
  Forall is_identifier ids ->
  List.filter (fun x => negb (String.eqb x "")) ids = ids.
Proof.
  induction 1 as [| s ids (Hne & _ & _) _ IH]; [reflexivity |].
  cbn [List.filter]. apply String.eqb_neq in Hne. rewrite Hne. cbn [negb].
  now rewrite IH.
Qed.

(** X19. A cell that lists identifiers separated by commas, or by commas followed
    by a space, reads back as the list of the identifiers; entries that are
    empty or blank are dropped, so an empty cell reads as no identifier, and
    no entry of the result is ever empty. *)
Theorem csv_list_reads_identifiers (ids : list string) :
  Forall is_identifier ids ->
  csv_list (String.concat "," ids) = ids
  /\ csv_list (String.concat ", " ids) = ids
  /\ csv_list (String.concat "," ids ++ ", ,") = ids
  /\ forall s, Forall (fun x => x <> EmptyString) (csv_list s).
Proof.
  intros Hids.
  assert (Hcommas : Forall (fun p => all_chars (is_not ",") p = true) ids).
  { eapply List.Forall_impl; [| exact Hids]. now intros s (_ & _ & Hs). }
  assert (Htrim : map trim ids = ids).
  { clear Hcommas. induction Hids as [| s ids (_ & Hs & _) _ IH]; [reflexivity |].
    cbn [map]. now rewrite Hs, IH. }
  destruct ids as [| p rest].
  - repeat split; try reflexivity. intros s. apply csv_list_nonempty.
  - split; [| split; [| split]].
    + unfold csv_list.
      rewrite (split_on_joined "," (p :: rest)) by (discriminate || assumption).
      rewrite Htrim. now apply keep_identifiers.
    + unfold csv_list. rewrite (split_on_spaced p rest Hcommas).
      cbn [map]. rewrite map_map.
      rewrite (map_ext (fun x => trim (String " " x)) trim) by (intros; reflexivity).
      change (trim p :: map trim rest) with (map trim (p :: rest)).
      rewrite Htrim. now apply keep_identifiers.
    + unfold csv_list.
      assert (Hsplit : split_on "," (String.concat "," (p :: rest) ++ ", ,")
                       = (p :: rest) ++ [" "; ""]%string).
      { clear Hids Htrim. revert p Hcommas.
        induction rest as [| q rest IH]; intros p Hall.
        - inversion Hall as [| ? ? Hp _]; subst. cbn [String.concat app].
          change (p ++ ", ,")%string with (p ++ String "," " ,")%string.
          now rewrite (split_on_app "," p _ Hp).
        - inversion Hall as [| ? ? Hp Hrest]; subst.
          rewrite concat_cons2.
          change ("," ++ String.concat "," (q :: rest))%string
            with (String "," (String.concat "," (q :: rest))).
          rewrite append_assoc.
          change (String "," (String.concat "," (q :: rest)) ++ ", ,")%string
            with (String "," (String.concat "," (q :: rest) ++ ", ,")%string).
          rewrite (split_on_app "," p _ Hp), (IH q Hrest). reflexivity. }
      rewrite Hsplit, map_app, Htrim, List.filter_app.
      rewrite (keep_identifiers _ Hids). cbn. now rewrite app_nil_r.
    + intros s. apply csv_list_nonempty.
Qed.

Lemma csv_list_reads_identifiers_witness :
  csv_list "c1,c2" = ["c1"; "c2"]%string /\ csv_list "c1, c2" = ["c1"; "c2"]%string.
Proof.
  destruct (csv_list_reads_identifiers ["c1"; "c2"]%string) as (H1 & H2 & _).
  - repeat constructor; discriminate.
  - split; [exact H1 | exact H2].
Defined.

(** ** From the configuration to the request *)

Lemma requested_page_size (rp : Report) (cfg : Config) (token : string) (p : Z) :
  own (req_params (page_request rp cfg token p)) "page_size"
  = Some (js_or (page_size cfg) (JInt 1000)).
Proof. reflexivity. Qed.

Lemma page_size_of_text (asMap : Props) :
  is_text (get (JObj asMap) "page_size") ->
  js_or (page_size_of asMap) (JInt 1000) =
  if Num.truthy (ToNumber (get (JObj asMap) "page_size"))
  then JNum (ToNumber (get (JObj asMap) "page_size")) else JInt 1000.
Proof.
  unfold page_size_of. destruct (get (JObj asMap) "page_size") as [| | | | s | |];
    cbn [is_text]; try contradiction; intros _; try reflexivity.
  cbn [truthy]. destruct (String.eqb_spec s "") as [-> | _]; reflexivity.
Qed.

(** X20. The page size a run asks for comes from the cell under [page_size]: the
    number the cell reads as, and 1000 when there is no such cell or when it
    is empty, blank, zero or not a number.  This holds for the four readers. *)
Theorem page_size_defaults_to_1000 (P : Platform) (config : option (list (list string)))
    (cfg : Config) (rp : Report) (token : string) (p : Z) :
  let asked := own (req_params (page_request rp cfg token p)) "page_size" in
  let size_in (asMap : Props) :=
    let n := ToNumber (get (JObj asMap) "page_size") in
    Some (if Num.truthy n then JNum n else JInt 1000) in
  (forall short asMap,
     config_map short (fun v => v) config = Ok asMap ->
     readConfig_ P config = Ok cfg \/ readConfig_ProductSingleCampaign_ P config = Ok cfg ->
     asked = size_in asMap)
  /\ (forall short asMap,
        config_map short trimmed config = Ok asMap ->
        readConfigLiveHourly_ P config = Ok cfg
          \/ readConfigCreativeStatuses_ P config = Ok cfg ->
        asked = size_in asMap).
Proof.
  intros asked size_in. subst asked size_in. cbv zeta.
  rewrite requested_page_size.
  split.
  - intros short asMap Hm Hread.
    pose proof (config_map_text _ _ config asMap "page_size" (fun v Hv => Hv) Hm) as Ht.
    rewrite <- (page_size_of_text asMap Ht). do 2 f_equal.
    destruct config as [[| first [| row rest]] |]; try discriminate Hm.
    cbn [config_map] in Hm. injection Hm as <-.
    destruct Hread as [Hread | Hread].
    + unfold readConfig_, result_bind in Hread. cbn [config_map] in Hread.
      checked_fields. now inversion Hread.
    + unfold readConfig_ProductSingleCampaign_, result_bind in Hread.
      cbn [config_map] in Hread.
      destruct (if String.eqb _ "" then [] else csv_list _) as [| c [| c' arr]];
        try discriminate.
      checked_fields. now inversion Hread.
  - intros short asMap Hm Hread.
    pose proof (config_map_text _ _ config asMap "page_size" trimmed_text Hm) as Ht.
    rewrite <- (page_size_of_text asMap Ht). do 2 f_equal.
    destruct config as [[| first [| row rest]] |]; try discriminate Hm.
    cbn [config_map] in Hm. injection Hm as <-.
    destruct Hread as [Hread | Hread].
    + unfold readConfigLiveHourly_, result_bind in Hread. cbn [config_map] in Hread.
      checked_fields. now inversion Hread.
    + unfold readConfigCreativeStatuses_, result_bind in Hread.
      cbn [config_map] in Hread.
      checked_fields.
      destruct (Nat.eqb (length (csv_of _ "campaign_ids")) 0); [discriminate |].
      destruct (Nat.eqb (length (csv_of _ "item_group_ids")) 0); [discriminate |].
      now inversion Hread.
Qed.

Lemma page_size_defaults_to_1000_witness :
  own (req_params
         (page_request ProductCampaignDaily
            (mkConfig (mkEntity "A" "S" "") "2025-06-01" "2025-06-02"
               (JNum Num.NaN) false [] [] [])
            "secret" 1)) "page_size"
  = Some (JInt 1000).
Proof.
  destruct (page_size_defaults_to_1000 (sample_platform 1 JNull)
              (Some [["advertiser_id"; "store_id"; "start_date"; "end_date"; "page_size"];
                     ["A"; "S"; "2025-06-01"; "2025-06-02"; "many"]])
              (mkConfig (mkEntity "A" "S" "") "2025-06-01" "2025-06-02"
                 (JNum Num.NaN) false [] [] [])
              ProductCampaignDaily "secret" 1) as [H _].
  rewrite (H "short"%string _ eq_refl (or_introl eq_refl)). reflexivity.
Defined.

Lemma get_without_header (f : JsVal -> JsVal) (first row : list string) (name : string) :
  ~ In name (map trim first) ->
  get (JObj (fill_map f (map trim first) row 0 [])) name = JUndefined.
Proof.
  intros Hnot. cbn [get]. rewrite own_fill_map.
  pose proof (find_last_spec name (map trim first) 0) as H.
  destruct (find_last name (map trim first) 0) as [j |]; [| reflexivity].
  destruct H as (_ & Hnth & _). exfalso. apply Hnot. eapply nth_error_In. exact Hnth.
Qed.

(** X21. Without a header [advertiser_id], the readers fall back on the script
    property [TT_ADVERTISER_IDS], but not in the same way: the readers of
    the Product reports return the property as it is, commas included, and
    the readers of the LIVE hourly and of the creative reports return its
    first entry, trimmed. *)
Theorem advertiser_fallback_differs (P : Platform) (first row : list string)
    (rest : list (list string)) (p : string) (cfg : Config) :
  ~ In "advertiser_id"%string (map trim first) ->
  scriptProperties P "TT_ADVERTISER_IDS" = Some p ->
  let config := Some (first :: row :: rest) in
  (readConfig_ P config = Ok cfg \/ readConfig_ProductSingleCampaign_ P config = Ok cfg ->
   advertiser_id (cfg_entity cfg) = p)
  /\ (readConfigLiveHourly_ P config = Ok cfg
        \/ readConfigCreativeStatuses_ P config = Ok cfg ->
      advertiser_id (cfg_entity cfg) = trim (hd EmptyString (split_on "," p))).
Proof.
  intros Hnot Hp config. subst config.
  assert (Hprop : advertiser_property P = JStr p).
  { unfold advertiser_property. now rewrite Hp. }
  split; intros [Hread | Hread].
  - unfold readConfig_, result_bind in Hread. cbn [config_map] in Hread.
    rewrite (get_without_header _ first row "advertiser_id" Hnot), Hprop in Hread.
    checked_fields. inversion Hread; subst. cbn [cfg_entity advertiser_id].
    unfold js_or. reflexivity.
  - unfold readConfig_ProductSingleCampaign_, result_bind in Hread.
    cbn [config_map] in Hread.
    rewrite (get_without_header _ first row "advertiser_id" Hnot), Hprop in Hread.
    destruct (if String.eqb _ "" then [] else csv_list _) as [| c [| c' arr]];
      try discriminate.
    checked_fields. inversion Hread; subst. cbn [cfg_entity advertiser_id].
    unfold js_or. reflexivity.
  - unfold readConfigLiveHourly_, result_bind in Hread. cbn [config_map] in Hread.
    rewrite (get_without_header _ first row "advertiser_id" Hnot) in Hread.
    cbn [truthy negb] in Hread. unfold first_advertiser in Hread. rewrite Hprop in Hread.
    checked_fields. inversion Hread; subst. cbn [cfg_entity advertiser_id ToString].
    unfold js_or. cbn [truthy]. destruct (String.eqb_spec p "") as [-> | _]; reflexivity.
  - unfold readConfigCreativeStatuses_, result_bind in Hread.
    cbn [config_map] in Hread.
    rewrite (get_without_header _ first row "advertiser_id" Hnot) in Hread.
    cbn [truthy negb] in Hread. unfold first_advertiser in Hread. rewrite Hprop in Hread.
    checked_fields.
    destruct (Nat.eqb (length (csv_of _ "campaign_ids")) 0); [discriminate |].
    destruct (Nat.eqb (length (csv_of _ "item_group_ids")) 0); [discriminate |].
    inversion Hread; subst. cbn [cfg_entity advertiser_id ToString].
    unfold js_or. cbn [truthy]. destruct (String.eqb_spec p "") as [-> | _]; reflexivity.
Qed.

Lemma advertiser_fallback_differs_witness :
  advertiser_id
    (cfg_entity (mkConfig (mkEntity "A1" "S" "") "2025-06-01" "2025-06-01"
                   JUndefined false [] [] []))
  = trim (hd EmptyString (split_on "," " A1 ,A2")).
Proof.
  destruct (advertiser_fallback_differs
              (mkPlatform (paged_server 1 JNull)
                 (fun key => if String.eqb key "TT_ADVERTISER_IDS" then Some " A1 ,A2"%string
                             else None)
                 (fun _ => 0) UTC (fun _ => UTC))
              ["store_id"; "start_date"; "end_date"] ["S"; "2025-06-01"; "2025-06-01"] []
              " A1 ,A2"
              (mkConfig (mkEntity "A1" "S" "") "2025-06-01" "2025-06-01"
                 JUndefined false [] [] [])) as [_ H].
  - simpl. intuition discriminate.
  - reflexivity.
  - apply H. left. reflexivity.
Defined.

(** ** What a data row holds *)

Lemma report_rows_are_row_literals (rp : Report) :
  In rp single_query_reports ->
  In (rp_row rp) all_row_literals /\ rp_columns rp = map fst (rp_row rp).
Proof.
  intros [<- | [<- | [<- | [<- | [<- | []]]]]]; (split; [cbn; tauto | reflexivity]).
Qed.

Lemma cells_of_row (cell : Props -> string -> JsVal) (g : Source -> JsVal)
    (lit : RowLiteral) :
  List.NoDup (map fst lit) ->
  (forall row col, nullish (get (JObj row) col) = false ->
     cell row col = get (JObj row) col) ->
  (forall src, nullish (g src) = false) ->
  map (cell (map (fun f => (fst f, g (snd f))) lit)) (map fst lit) =
  map (fun f => g (snd f)) lit.
Proof.
  intros Hnd Hcell Hg. rewrite map_map. apply map_ext_in. intros [col src] Hin.
  cbn [fst snd]. rewrite Hcell; rewrite (get_row_field g lit col src Hnd Hin);
    [reflexivity | apply Hg].
Qed.

Lemma single_cell_value (row : Props) (col : string) :
  nullish (get (JObj row) col) = false -> single_cell row col = get (JObj row) col.
Proof. intros H. unfold single_cell, js_coalesce. now rewrite H. Qed.

Lemma batch_cell_value (row : Props) (col : string) :
  nullish (get (JObj row) col) = false -> batch_cell row col = get (JObj row) col.
Proof. unfold batch_cell. now destruct (get (JObj row) col). Qed.

(** X22. The cells of a data row are the fields of the row literal, in the order
    of the header: under each header stands the value the literal gives the
    field of that name (an identifier of the configuration, or the item's
    dimension or metric, or the empty string when that is falsy).  The
    defaults of the two sinks never apply.  This holds for the five
    single-query reports and for the batch report. *)
Theorem data_row_lists_the_fields (ent : Entity) (ips : Props) :
  let d := js_or (get (JObj ips) "dimensions") (JObj []) in
  let m := js_or (get (JObj ips) "metrics") (JObj []) in
  (forall rp, In rp single_query_reports ->
     map (single_cell (row_of (rp_row rp) ent ips)) (rp_columns rp) =
     map (fun f => field_value ent d m (snd f)) (rp_row rp))
  /\ map (batch_cell (row_of row_LiveCampaignDailySince ent ips))
       (live_campaign_columns "stat_time_day") =
     map (fun f => field_value ent d m (snd f)) row_LiveCampaignDailySince.
Proof.
  intros d m. split.
  - intros rp Hin. destruct (report_rows_are_row_literals rp Hin) as [Hlit ->].
    apply (cells_of_row single_cell (field_value ent d m) (rp_row rp)).
    + now apply row_literals_have_distinct_fields.
    + apply single_cell_value.
    + apply field_value_not_nullish.
  - change (live_campaign_columns "stat_time_day")
      with (map fst row_LiveCampaignDailySince).
    apply (cells_of_row batch_cell (field_value ent d m) row_LiveCampaignDailySince).
    + apply row_literals_have_distinct_fields. cbn. tauto.
    + apply batch_cell_value.
    + apply field_value_not_nullish.
Qed.

Lemma data_row_lists_the_fields_witness :
  map (single_cell (row_of (rp_row ProductProductDaily) (mkEntity "A" "S" "C")
                      (sample_item "g1" 7)))
    (rp_columns ProductProductDaily) =
  map (fun f => field_value (mkEntity "A" "S" "C")
                  (js_or (get (JObj (sample_item "g1" 7)) "dimensions") (JObj []))
                  (js_or (get (JObj (sample_item "g1" 7)) "metrics") (JObj [])) (snd f))
    (rp_row ProductProductDaily).
Proof.
  destruct (data_row_lists_the_fields (mkEntity "A" "S" "C") (sample_item "g1" 7))
    as [H _].
  apply H. right. right. right. left. reflexivity.
Defined.

(** ** Numerals in the totals *)

(** A string of decimal digits, with the values of its digits. *)
Inductive Digits : string -> list Z -> Prop :=
| Digits_nil : Digits EmptyString []
| Digits_cons (d : Z) (s : string) (ds : list Z) :
    0 <= d <= 9 -> Digits s ds -> Digits (String (digit_char d) s) (d :: ds).

Lemma digit_char_spec (d : Z) :
  0 <= d <= 9 ->
  is_digit (digit_char d) = true /\ digit_val (digit_char d) = d
  /\ is_space (digit_char d) = false
  /\ Ascii.eqb (digit_char d) "-" = false /\ Ascii.eqb (digit_char d) "+" = false
  /\ Ascii.eqb (digit_char d) "I" = false.
Proof.
  intros H.
  assert (Hd : d = 0 \/ d = 1 \/ d = 2 \/ d = 3 \/ d = 4 \/ d = 5 \/ d = 6 \/ d = 7
               \/ d = 8 \/ d = 9) by lia.
  repeat (destruct Hd as [-> | Hd]; [repeat split; reflexivity |]).
  subst d. repeat split; reflexivity.
Qed.

Lemma take_digits_Digits (s : string) (ds : list Z) (rest : string) :
  Digits s ds ->
  take_digits (s ++ rest)%string =
  ((ds ++ fst (take_digits rest))%list, snd (take_digits rest)).
Proof.
  induction 1 as [| d s ds Hd _ IH].
  - change (EmptyString ++ rest)%string with rest. now destruct (take_digits rest).
  - change (String (digit_char d) s ++ rest)%string
      with (String (digit_char d) (s ++ rest)%string).
    cbn [take_digits]. destruct (digit_char_spec d Hd) as (-> & -> & _).
    now rewrite IH.
Qed.

Lemma digits_of_fuel_Digits (fuel : nat) :
  forall (n : Z) (acc : string) (dsacc : list Z),
    0 <= n < 10 ^ Z.of_nat (S fuel) -> Digits acc dsacc ->
    exists d ds,
      Digits (digits_of_fuel (S fuel) n acc) (d :: ds ++ dsacc)%list
      /\ digits_value (d :: ds) = n.
Proof.
  induction fuel as [| fuel IH]; intros n acc dsacc Hn Hacc;
    cbn [digits_of_fuel];
    assert (Hmod : 0 <= n mod 10 <= 9) by (Z.div_mod_to_equations; lia);
    (destruct (Z.ltb_spec n 10) as [Hlt | Hge];
     [exists n, []; rewrite Z.mod_small by lia; split;
      [constructor; [lia | exact Hacc] | unfold digits_value; cbn; lia] |]).
  - change (10 ^ Z.of_nat 1) with 10 in Hn. lia.
  - destruct (IH (n / 10) (String (digit_char (n mod 10)) acc) (n mod 10 :: dsacc))
      as (d & ds & HD & Hval).
    + rewrite Nat2Z.inj_succ, Z.pow_succ_r in Hn by lia.
      split; [apply Z.div_pos; lia | apply Z.div_lt_upper_bound; lia].
    + constructor; assumption.
    + exists d, (ds ++ [n mod 10])%list. split.
      * rewrite <- app_assoc. exact HD.
      * unfold digits_value in *. cbn [fold_left] in *.
        rewrite fold_left_app. cbn [fold_left]. rewrite Hval.
        Z.div_mod_to_equations. lia.
Qed.

Lemma numeral_Digits (n : Z) :
  0 <= n ->
  exists d ds,
    Digits (digits_of_fuel (S (Z.to_nat (Z.log2 n))) n EmptyString) (d :: ds)
    /\ digits_value (d :: ds) = n.
Proof.
  intros Hn.
  destruct (digits_of_fuel_Digits (Z.to_nat (Z.log2 n)) n EmptyString [])
    as (d & ds & HD & Hval).
  - split; [exact Hn |].
    rewrite Nat2Z.inj_succ, Z2Nat.id by apply Z.log2_nonneg.
    destruct (Z.eq_dec n 0) as [-> | Hne]; [reflexivity |].
    pose proof (Z.log2_spec n ltac:(lia)) as [_ Hlog].
    eapply Z.lt_le_trans; [exact Hlog |].
    apply Z.pow_le_mono_l. pose proof (Z.log2_nonneg n). lia.
  - constructor.
  - exists d, ds. rewrite app_nil_r in HD. now split.
Qed.

(** What may follow a numeral without being read as part of it. *)
Definition ends_numeral (rest : string) : Prop :=
  match rest with
  | EmptyString => True
  | String c _ =>
      is_digit c = false /\ c <> "."%char /\ c <> "e"%char /\ c <> "E"%char
  end.

Lemma scan_unsigned_numeral (n : Z) (rest : string) :
  0 <= n -> ends_numeral rest ->
  scan_unsigned (digits_of_fuel (S (Z.to_nat (Z.log2 n))) n EmptyString ++ rest)%string
  = Some (Num.ofZ n, rest).
Proof.
  intros Hn Hrest. destruct (numeral_Digits n Hn) as (d & ds & HD & Hval).
  set (str := digits_of_fuel (S (Z.to_nat (Z.log2 n))) n EmptyString) in *.
  clearbody str. unfold scan_unsigned.
  rewrite (take_digits_Digits _ _ rest HD).
  assert (Htail : take_digits rest = ([], rest)
                  /\ match rest with String "." r => take_digits r | _ => ([], rest) end
                     = ([], rest)
                  /\ scan_exponent rest = (0, rest)).
  { destruct rest as [| c r]; [repeat split; reflexivity |].
    destruct Hrest as (Hdig & Hdot & He & HE). cbn [take_digits scan_exponent].
    rewrite Hdig.
    apply Ascii.eqb_neq in He, HE. rewrite He, HE. cbn [orb].
    repeat split; try reflexivity.
    destruct c as [[] [] [] [] [] [] [] []]; try reflexivity.
    contradiction Hdot. reflexivity. }
  destruct Htail as (Ht & Hfp & Hexp). rewrite Ht. cbn [fst snd]. rewrite Hfp.
  rewrite app_nil_r. cbn [app].
  revert Hval. inversion HD as [| d' s' ds' Hd HD' Hs]; subst d' ds' str. intros Hval.
  change (String (digit_char d) s' ++ rest)%string
    with (String (digit_char d) (s' ++ rest)%string).
  cbn [strip_prefix]. destruct (digit_char_spec d Hd) as (_ & _ & _ & _ & _ & HI).
  rewrite Ascii.eqb_sym in HI. rewrite HI. rewrite Hexp.
  rewrite app_nil_r, Hval. unfold decimal_value, Num.ofZ.
  change (0 - Z.of_nat (length (@nil Z))) with 0.
  change (0 <=? 0) with true. cbv iota. now rewrite Z.pow_0_r, Z.mul_1_r.
Qed.

Lemma scan_signed_digit (d : Z) (s : string) :
  0 <= d <= 9 ->
  trim_start (String (digit_char d) s) = String (digit_char d) s
  /\ scan_signed (String (digit_char d) s) = scan_unsigned (String (digit_char d) s).
Proof.
  intros H.
  assert (Hd : d = 0 \/ d = 1 \/ d = 2 \/ d = 3 \/ d = 4 \/ d = 5 \/ d = 6 \/ d = 7
               \/ d = 8 \/ d = 9) by lia.
  repeat (destruct Hd as [-> | Hd]; [split; reflexivity |]).
  subst d. split; reflexivity.
Qed.

Lemma parseFloat_numeral (n : Z) (rest : string) :
  0 <= n -> ends_numeral rest ->
  parseFloat (digits_of_fuel (S (Z.to_nat (Z.log2 n))) n EmptyString ++ rest)%string
  = Num.ofZ n.
Proof.
  intros Hn Hrest. pose proof (scan_unsigned_numeral n rest Hn Hrest) as Hscan.
  destruct (numeral_Digits n Hn) as (d & ds & HD & _).
  set (str := digits_of_fuel (S (Z.to_nat (Z.log2 n))) n EmptyString) in *.
  clearbody str. inversion HD as [| d' s' ds' Hd HD' Hs]; subst d' ds' str.
  change (String (digit_char d) s' ++ rest)%string
    with (String (digit_char d) (s' ++ rest)%string) in *.
  unfold parseFloat. destruct (scan_signed_digit d (s' ++ rest)%string Hd) as [-> ->].
  now rewrite Hscan.
Qed.

Lemma Z_to_string_nonneg (n : Z) :
  0 <= n -> Z_to_string n = digits_of_fuel (S (Z.to_nat (Z.log2 n))) n EmptyString.
Proof.
  intros H. unfold Z_to_string. destruct (Z.ltb_spec n 0); [lia | reflexivity].
Qed.

Lemma Z_to_string_neg (z : Z) : z < 0 -> Z_to_string z = String "-" (Z_to_string (- z)).
Proof.
  intros H. rewrite (Z_to_string_nonneg (- z)) by lia.
  unfold Z_to_string. destruct (Z.ltb_spec z 0); [reflexivity | lia].
Qed.

Lemma number_to_string_integer (z : Z) : number_to_string (Num.ofZ z) = Z_to_string z.
Proof.
  unfold number_to_string, Num.ofZ, inject_Z. cbn [Qnum Qden].
  rewrite Z.mod_1_r, Z.div_1_r. cbn [Z.eqb].
  destruct (Z.ltb_spec z 0) as [Hneg | Hpos].
  - now rewrite Z.abs_neq, (Z_to_string_neg z) by lia.
  - now rewrite Z.abs_eq by lia.
Qed.

(** X23. [num_] reads the decimal numeral of an integer (one that a number
    holds exactly) as that integer, and stops reading where the numeral
    ends: what follows it (anything that does not start with a digit, a
    point or an exponent mark) is ignored, so a text such as [12 USD] counts
    as 12 in the totals.  In particular a number printed as a string reads
    back as itself. *)
Theorem num_reads_the_numeral_of_an_integer (z : Z) (rest : string) :
  Z.abs z <= 2 ^ 53 ->
  ends_numeral rest ->
  num_ (JStr (Z_to_string z ++ rest)) = Num.ofZ z
  /\ num_ (JStr (ToString (JInt z))) = Num.ofZ z
  /\ num_ (JInt z) = Num.ofZ z.
Proof.
  intros _ Hrest.
  assert (Hread : forall tail, ends_numeral tail ->
            parseFloat (Z_to_string z ++ tail)%string = Num.ofZ z).
  { intros tail Htail.
    destruct (Z.ltb_spec z 0) as [Hneg | Hpos].
    - rewrite (Z_to_string_neg z Hneg), (Z_to_string_nonneg (- z)) by lia.
      set (body := digits_of_fuel (S (Z.to_nat (Z.log2 (- z)))) (- z) EmptyString).
      change (String "-" body ++ tail)%string with (String "-" (body ++ tail)%string).
      unfold parseFloat.
      change (trim_start (String "-" (body ++ tail)%string))
        with (String "-" (body ++ tail)%string).
      cbn [scan_signed]. subst body.
      rewrite (scan_unsigned_numeral (- z) tail ltac:(lia) Htail).
      rewrite neg_ofZ. now rewrite Z.opp_involutive.
    - rewrite (Z_to_string_nonneg z Hpos). now apply parseFloat_numeral. }
  split; [| split].
  - unfold num_. now rewrite (Hread rest Hrest).
  - unfold JInt. cbn [ToString]. rewrite number_to_string_integer.
    unfold num_. rewrite <- (append_empty (Z_to_string z)).
    now rewrite (Hread EmptyString I).
  - reflexivity.
Qed.

Lemma num_reads_the_numeral_of_an_integer_witness :
  num_ (JStr "12 USD") = Num.ofZ 12.
Proof.
  destruct (num_reads_the_numeral_of_an_integer 12 " USD") as [H _].
  - vm_compute. discriminate.
  - repeat split; discriminate.
  - exact H.
Defined.

(** ** The windows and the daily validation *)

Lemma buildDailyWindows_closed
    (scriptOffset tzOffset : Z) (startDateStr endDateStr : string) (a b : Z) :
  iso_day startDateStr = Some a -> iso_day endDateStr = Some b ->
  0 <= tzOffset - scriptOffset < msDay ->
  buildDailyWindows_ (fixed_zone scriptOffset) (fixed_zone tzOffset)
    startDateStr endDateStr =
  map (fun i => (format_day (fst (window_at a b i)), format_day (snd (window_at a b i))))
    (seq 0 (Z.to_nat ((b - a + 30) / 30))).
Proof.
  intros Ha Hb Hzone.
  rewrite (buildDailyWindows_fixed scriptOffset tzOffset _ _ a b Ha Hb).
  destruct (Z_le_gt_dec a b) as [Hab | Hgt].
  - rewrite (windows_loop_closed _ _ b (Z.to_nat ((b - a) / 30)) a Hab eq_refl).
    assert (Hdiv : 0 <= (b - a) / 30) by (apply Z.div_pos; lia).
    replace (b - a + 30) with (b - a + 1 * 30) by ring.
    rewrite Z.div_add by lia.
    replace (Z.to_nat ((b - a) / 30 + 1)) with (S (Z.to_nat ((b - a) / 30))) by lia.
    apply map_ext. intros i.
    now rewrite !(formatDate_of_midnight scriptOffset tzOffset _ Hzone).
  - rewrite windows_loop_empty by lia.
    assert (Hneg : (b - a + 30) / 30 <= 0) by (Z.div_mod_to_equations; lia).
    now replace (Z.to_nat ((b - a + 30) / 30)) with 0%nat by lia.
Qed.

(** X24. In zones without daylight saving, every window the planner returns
    is a range the daily validation accepts: read back as dates, its start
    is not after its end and it spans at most 30 days, so
    [validateDailyRange_] returns on it (dates read in the script's zone and
    printed in a zone at most a day further east). *)
Theorem every_window_passes_the_daily_validation
    (scriptOffset tzOffset : Z) (startDateStr endDateStr : string) (a b : Z) :
  0 <= tzOffset - scriptOffset < msDay ->
  iso_day startDateStr = Some a -> iso_day endDateStr = Some b ->
  Forall (fun w =>
            validateDailyRange_ (fst w) (snd w) = Ok tt
            /\ exists x y, iso_day (fst w) = Some x /\ iso_day (snd w) = Some y
                           /\ a <= x <= y /\ y <= b /\ y - x + 1 <= 30)
    (buildDailyWindows_ (fixed_zone scriptOffset) (fixed_zone tzOffset)
       startDateStr endDateStr).
Proof.
  intros Hzone Ha Hb.
  rewrite (buildDailyWindows_closed _ _ _ _ a b Ha Hb Hzone).
  pose proof (iso_day_range _ _ Ha) as Hra.
  pose proof (iso_day_range _ _ Hb) as Hrb.
  apply List.Forall_forall. intros w Hw. apply in_map_iff in Hw.
  destruct Hw as (i & <- & Hi). apply in_seq in Hi. cbn [fst snd].
  unfold window_at. cbn [fst snd].
  set (x := a + 30 * Z.of_nat i). set (y := Z.min b (x + 29)).
  assert (Hx : a <= x /\ x <= b).
  { subst x. split; [lia |].
    assert (Z.of_nat i < (b - a + 30) / 30) by lia.
    Z.div_mod_to_equations. lia. }
  assert (Hy : x <= y /\ y <= b /\ y - x + 1 <= 30) by (subst y; lia).
  assert (Hix : iso_day (format_day x) = Some x) by (apply iso_day_format_day; lia).
  assert (Hiy : iso_day (format_day y) = Some y) by (apply iso_day_format_day; lia).
  split.
  - unfold validateDailyRange_.
    rewrite (dailyRangeDays_of_dates _ _ x y Hix Hiy), gtb_ofZ.
    destruct (Z.ltb_spec 30 (y - x + 1)); [lia | reflexivity].
  - exists x, y. repeat split; try assumption; lia.
Qed.

Lemma every_window_passes_the_daily_validation_witness :
  Forall (fun w => validateDailyRange_ (fst w) (snd w) = Ok tt)
    (buildDailyWindows_ (fixed_zone seven_hours) (fixed_zone seven_hours)
       "2025-06-01" "2025-08-15").
Proof.
  eapply List.Forall_impl;
    [| apply (every_window_passes_the_daily_validation seven_hours seven_hours
                "2025-06-01" "2025-08-15"
                (days_from_civil 2025 6 1) (days_from_civil 2025 8 15))].
  - intros w [H _]. exact H.
  - unfold seven_hours, msDay. lia.
  - reflexivity.
  - reflexivity.
Defined.

(** X26. In zones without daylight saving, for two calendar dates with
    start <= end, read in the script's time zone and printed in a zone at
    most a day further east, the window planner returns the printed bounds
    of an ordered sequence of windows of days: the first starts at the start
    date, the last ends at the end date, each window starts the day after
    the one before ends, later windows lie after earlier ones, each spans at
    most 30 days, and a day is in the range exactly when it is in some
    window.  With start = end there is exactly one window, of that single
    day.  From 2025-06-01 to 2025-07-05 the windows are
    2025-06-01..2025-06-30 and 2025-07-01..2025-07-05. *)
Theorem fixed_zone_windows_tile_the_range
    (scriptOffset tzOffset : Z) (startDateStr endDateStr : string) (a b : Z) :
  0 <= tzOffset - scriptOffset < msDay ->
  iso_day startDateStr = Some a -> iso_day endDateStr = Some b -> a <= b ->
  exists ws : list (Z * Z),
    buildDailyWindows_ (fixed_zone scriptOffset) (fixed_zone tzOffset)
      startDateStr endDateStr
      = map (fun w => (format_day (fst w), format_day (snd w))) ws
    /\ Forall (fun w => iso_day (format_day (fst w)) = Some (fst w)
                        /\ iso_day (format_day (snd w)) = Some (snd w)) ws
    /\ fst <$> head ws = Some a
    /\ snd <$> last ws = Some b
    /\ (forall (i : nat) (w1 w2 : Z * Z),
          ws !! i = Some w1 -> ws !! S i = Some w2 -> fst w2 = snd w1 + 1)
    /\ (forall (i j : nat) (wi wj : Z * Z),
          ws !! i = Some wi -> ws !! j = Some wj -> (i < j)%nat -> snd wi < fst wj)
    /\ Forall (fun w => fst w <= snd w /\ snd w - fst w + 1 <= 30) ws
    /\ (forall d, a <= d <= b <-> exists w, In w ws /\ fst w <= d <= snd w)
    /\ (a = b -> ws = [(a, a)])
    /\ buildDailyWindows_ Asia_Jakarta Asia_Jakarta "2025-06-01" "2025-07-05"
       = [("2025-06-01", "2025-06-30"); ("2025-07-01", "2025-07-05")].
Proof.
  intros Hzone Ha Hb Hab.
  destruct (windows_loop_tiling (formatDate_ymd (fixed_zone tzOffset)) scriptOffset
              (Z.to_nat (b + 1 - a)) a b ltac:(lia) ltac:(lia)) as (ws & Hws & HT).
  exists ws.
  pose proof (Tiling_bounds a b ws HT) as [_ Hbounds].
  pose proof (iso_day_range _ _ Ha) as Hra.
  pose proof (iso_day_range _ _ Hb) as Hrb.
  split; [| split; [| split; [| split; [| split; [| split; [| split;
    [| split; [| split]]]]]]]].
  - rewrite (buildDailyWindows_fixed scriptOffset tzOffset _ _ a b Ha Hb), Hws.
    apply map_ext. intros w.
    now rewrite !(formatDate_of_midnight scriptOffset tzOffset _ Hzone).
  - eapply Forall_impl; [exact Hbounds |]. simpl. intros w Hw.
    split; apply iso_day_format_day; lia.
  - now apply (Tiling_ends a b ws HT).
  - now apply (Tiling_ends a b ws HT).
  - exact (Tiling_contiguous a b ws HT).
  - exact (Tiling_ordered a b ws HT).
  - eapply Forall_impl; [exact Hbounds |]. simpl. intros w Hw. lia.
  - exact (Tiling_covers a b ws HT).
  - intros ->. now apply Tiling_single_day.
  - reflexivity.
Qed.

Lemma fixed_zone_windows_tile_the_range_witness :
  exists ws : list (Z * Z),
    buildDailyWindows_ (fixed_zone seven_hours) (fixed_zone seven_hours)
      "2025-06-01" "2025-06-01"
      = map (fun w => (format_day (fst w), format_day (snd w))) ws
    /\ ws = [(days_from_civil 2025 6 1, days_from_civil 2025 6 1)].
Proof.
  destruct (fixed_zone_windows_tile_the_range seven_hours seven_hours
              "2025-06-01" "2025-06-01"
              (days_from_civil 2025 6 1) (days_from_civil 2025 6 1))
    as (ws & Hws & _ & _ & _ & _ & _ & _ & _ & Hone & _).
  - unfold seven_hours, msDay. lia.
  - reflexivity.
  - reflexivity.
  - lia.
  - exists ws. split; [exact Hws | now apply Hone].
Defined.
